(** * sales-radar: the scraping engine of [server.js]

    A shallow embedding of the request handler, the page extractor, the
    collection loop and the scrape run of [server.js], with the properties
    the specification states about them.

    Conventions of the embedding.
    - A JavaScript number is a [number]: an integer [Num z] or [NaN].  The
      program only counts, compares and subtracts integers; fractions,
      infinities and the rounding of integers above 2^53 are outside the
      model.
    - A JavaScript string is a [string] of the Standard Library (bytes);
      white space and letter case are the ASCII ones.
    - The browser is an environment: what each query of the page returns is
      a field of a record, and a promise that rejects is an [Exc]. *)

From Stdlib Require Import ZArith List String Ascii Bool Lia.
From Stdlib Require Import Permutation Sorted.
Import ListNotations.

Open Scope string_scope.
Open Scope Z_scope.

(* ===================================================================== *)
(** ** JavaScript values, numbers and strings *)
(* ===================================================================== *)

Module JS.

(** Numbers. *)
Inductive number : Type :=
| Num (z : Z)
| NaN.

(** [a < b]: false as soon as one side is [NaN]. *)
Definition lt (a b : number) : bool :=
  match a, b with
  | Num x, Num y => x <? y
  | _, _ => false
  end.

(** [a >= b]: false as soon as one side is [NaN]. *)
Definition ge (a b : number) : bool :=
  match a, b with
  | Num x, Num y => x >=? y
  | _, _ => false
  end.

(** [a - b]. *)
Definition sub (a b : number) : number :=
  match a, b with
  | Num x, Num y => Num (x - y)
  | _, _ => NaN
  end.

(** [Math.max(a, b)]: [NaN] when an argument is. *)
Definition Math_max (a b : number) : number :=
  match a, b with
  | Num x, Num y => Num (Z.max x y)
  | _, _ => NaN
  end.

(** [arr.length] as a number. *)
Definition len {A : Type} (l : list A) : Z := Z.of_nat (List.length l).

(** [arr.slice(0, end)]: [end] is truncated to an integer ([NaN] gives 0),
    a negative [end] counts from the end of the array. *)
Definition slice0 {A : Type} (l : list A) (e : number) : list A :=
  match e with
  | NaN => []
  | Num k =>
      if k <? 0 then firstn (Z.to_nat (Z.max (len l + k) 0)) l
      else firstn (Z.to_nat k) l
  end.

(** Characters. *)
Definition is_digit (c : ascii) : bool :=
  let n := nat_of_ascii c in (48 <=? n)%nat && (n <=? 57)%nat.

Definition digit_val (c : ascii) : Z := Z.of_nat (nat_of_ascii c) - 48.

Definition is_upper (c : ascii) : bool :=
  let n := nat_of_ascii c in (65 <=? n)%nat && (n <=? 90)%nat.

Definition is_lower (c : ascii) : bool :=
  let n := nat_of_ascii c in (97 <=? n)%nat && (n <=? 122)%nat.

(** [\w] of a regular expression: [A-Za-z0-9_]. *)
Definition is_word (c : ascii) : bool :=
  is_upper c || is_lower c || is_digit c || (nat_of_ascii c =? 95)%nat.

(** White space of [trim] and of [parseInt]: tab, line feed, vertical tab,
    form feed, carriage return, space. *)
Definition is_space (c : ascii) : bool :=
  let n := nat_of_ascii c in
  ((9 <=? n)%nat && (n <=? 13)%nat) || (n =? 32)%nat.

Definition lower_char (c : ascii) : ascii :=
  if is_upper c then ascii_of_nat (nat_of_ascii c + 32) else c.

(** Strings. *)
Fixpoint str_map (f : ascii -> ascii) (s : string) : string :=
  match s with
  | EmptyString => EmptyString
  | String c r => String (f c) (str_map f r)
  end.

Definition toLowerCase (s : string) : string := str_map lower_char s.

(** A string is truthy when it is not empty. *)
Definition truthy_str (s : string) : bool :=
  match s with
  | EmptyString => false
  | String _ _ => true
  end.

Definition startsWith (s p : string) : bool := String.prefix p s.

(** [s.includes(p)]. *)
Fixpoint includes (s p : string) : bool :=
  if String.prefix p s then true
  else match s with
       | EmptyString => false
       | String _ r => includes r p
       end.

Fixpoint drop_while (f : ascii -> bool) (s : string) : string :=
  match s with
  | EmptyString => EmptyString
  | String c r => if f c then drop_while f r else s
  end.

Fixpoint take_while (f : ascii -> bool) (s : string) : string :=
  match s with
  | EmptyString => EmptyString
  | String c r => if f c then String c (take_while f r) else EmptyString
  end.

Fixpoint str_filter (f : ascii -> bool) (s : string) : string :=
  match s with
  | EmptyString => EmptyString
  | String c r => if f c then String c (str_filter f r) else str_filter f r
  end.

Fixpoint str_rev_app (s acc : string) : string :=
  match s with
  | EmptyString => acc
  | String c r => str_rev_app r (String c acc)
  end.

Definition str_rev (s : string) : string := str_rev_app s EmptyString.

(** [s.trim()]. *)
Definition trim (s : string) : string :=
  str_rev (drop_while is_space (str_rev (drop_while is_space s))).

(** [s.split(sep)] for a separator of one character: never empty. *)
Fixpoint split (sep : ascii) (s : string) : list string :=
  match s with
  | EmptyString => [EmptyString]
  | String c r =>
      if Ascii.eqb c sep then EmptyString :: split sep r
      else match split sep r with
           | [] => [String c EmptyString]
           | p :: ps => String c p :: ps
           end
  end.

(** [s.split(sep)[0]]. *)
Definition split_head (sep : ascii) (s : string) : string :=
  hd EmptyString (split sep s).

(** [s.slice(n)] for [n <= s.length]. *)
Fixpoint str_drop (n : nat) (s : string) : string :=
  match n, s with
  | O, _ => s
  | S k, EmptyString => EmptyString
  | S k, String _ r => str_drop k r
  end.

(** [s.replace(c, '')] for a pattern of one character: the first occurrence
    only is removed. *)
Fixpoint remove_first (c : ascii) (s : string) : string :=
  match s with
  | EmptyString => EmptyString
  | String d r => if Ascii.eqb d c then r else String d (remove_first c r)
  end.

(** The value of a string of decimal digits, most significant first. *)
Fixpoint digits_val (acc : Z) (s : string) : Z :=
  match s with
  | EmptyString => acc
  | String c r => digits_val (10 * acc + digit_val c) r
  end.

(** [parseInt(s, 10)] on a string: leading white space is skipped, one sign
    is read, then the longest run of decimal digits; no digit gives [NaN].
    The value is the one the digits write: it is the number [parseInt]
    returns up to 2^53 in absolute value, above which [parseInt] returns the
    nearest double. *)
Definition parseInt (s : string) : number :=
  let t := drop_while is_space s in
  let '(neg, u) :=
    match t with
    | String "-" r => (true, r)
    | String "+" r => (false, r)
    | _ => (false, t)
    end in
  let ds := take_while is_digit u in
  match ds with
  | EmptyString => NaN
  | _ => Num (if neg then - digits_val 0 ds else digits_val 0 ds)
  end.

(** The values a parsed JSON body holds, and [undefined] for a field that
    is absent.  [JNum z] is the integer [z], below 10^21 in absolute value;
    [JReal] is any other number, which is not zero, and [JObject] an array
    or an object: both are given by the string [String(v)] converts them
    to. *)
Inductive value : Type :=
| JUndefined
| JNull
| JBool (b : bool)
| JNum (z : Z)
| JReal (shown : string)
| JStr (s : string)
| JObject (shown : string).

Definition truthy (v : value) : bool :=
  match v with
  | JUndefined | JNull => false
  | JBool b => b
  | JNum z => negb (z =? 0)
  | JReal _ => true
  | JStr s => truthy_str s
  | JObject _ => true
  end.

(** [a || b]. *)
Definition or_else (a b : value) : value := if truthy a then a else b.

(** [parseInt(v, 10)]: the argument is converted to a string first.  The
    string of [JNum z] is the decimal numeral of [z], which reads back as
    [z]. *)
Definition parseInt_value (v : value) : number :=
  match v with
  | JUndefined => parseInt "undefined"
  | JNull => parseInt "null"
  | JBool true => parseInt "true"
  | JBool false => parseInt "false"
  | JNum z => Num z
  | JReal shown => parseInt shown
  | JStr s => parseInt s
  | JObject shown => parseInt shown
  end.

End JS.


(* ===================================================================== *)
(** ** The rendered document, as the queries of [server.js] read it *)
(* ===================================================================== *)

Module Dom.

(** An [a[href]] element of a post: its [href] attribute, the [innerText]
    of [querySelector('div span')] and of [querySelector('span')] under it,
    and its [aria-label] and [title] attributes ([None]: no such element or
    attribute). *)
Record anchor : Type := {
  href : string;
  div_span : option string;
  span : option string;
  aria_label : option string;
  title : option string
}.

(** The [[data-testid="like"]] element.  It is found by an attribute, so it
    need not be an HTML element: [innerText] may be undefined. *)
Record like_control : Type := {
  like_aria : option string;
  like_innerText : option string
}.

(** The [time] element. *)
Record time_element : Type := {
  datetime : option string;
  time_innerText : string
}.

(** An [article] element.  [tweetText]: the [[data-testid="tweetText"]]
    element, [None] when there is none, [Some None] when it has no
    [innerText]; [anchors]: its [a[href]] elements in document order;
    [headerSpan]: the [innerText] of [div[dir="auto"] span]. *)
Record article : Type := {
  tweetText : option (option string);
  anchors : list anchor;
  headerSpan : option string;
  innerText : string;
  like : option like_control;
  icon_verified : bool;
  time : option time_element
}.

(** The landing page, as the logged-in check reads it. *)
Record landing : Type := {
  home_link : bool;          (* a[href="/home"] *)
  profile_link : bool;       (* a[aria-label="Profile"] *)
  timeline : bool;           (* div[aria-label*="Timeline"] *)
  landing_body : option string  (* document.body.innerText *)
}.

(** The search page: [body]: [document.body.innerText] ([None]: no body);
    [login_element]: whether the selector of login buttons and links
    matches; [articles]: [document.querySelectorAll('article')]. *)
Record document : Type := {
  body : option string;
  login_element : bool;
  articles : list article
}.

End Dom.

(* ===================================================================== *)
(** ** Session validator *)
(* ===================================================================== *)

Module Validator.
Import JS Dom.

(** The function evaluated in the landing page by [scrapeTweetsForQuery]. *)
Definition loggedIn (d : landing) : bool :=
  if home_link d then true
  else if profile_link d then true
  else if timeline d then true
  else
    let body := match landing_body d with
                | Some t => toLowerCase t
                | None => ""
                end in
    if includes body "log in" || includes body "sign up"
       || includes body "password"
    then false
    else false.

(** [isBlockedOrLoginPage]. *)
Definition isBlockedOrLoginPage (d : document) : bool :=
  let bodyText := match body d with
                  | Some t => t
                  | None => ""
                  end in
  let lower := toLowerCase bodyText in
  if includes lower "log in"
     && (includes lower "twitter" || includes lower "x.com") then true
  else if includes lower "sign up"
     && (includes lower "twitter" || includes lower "x.com") then true
  else if includes lower "rate limit" || includes lower "too many requests"
  then true
  else if includes lower "you are only seeing"
     || includes lower "to view this page" then true
  else if login_element d then true
  else false.

End Validator.

(* ===================================================================== *)
(** ** Page extractor *)
(* ===================================================================== *)

Module Extractor.
Import JS Dom.

(** An extracted post. *)
Record tweet : Type := {
  displayName : string;
  handle : string;
  text : string;
  link : string;
  likes : number;
  verified : bool;
  timestamp : option string
}.

(** What the body of the [try] does for one article: it pushes an item,
    pushes nothing, or throws. *)
Inductive candidate : Type :=
| Emit (t : tweet)
| Skip
| Fail.

Definition or_str (a : option string) (b : string) : string :=
  match a with
  | Some s => if truthy_str s then s else b
  | None => b
  end.

(** [article.querySelector('a[href*="/status/"]')]. *)
Definition statusAnchor (a : article) : option anchor :=
  find (fun x => includes (href x) "/status/") (anchors a).

(** The [for] loop over the anchors: the first one whose [href] is not
    empty, has no [/status/] and one non-empty path segment before [?]. *)
Fixpoint first_profile (l : list anchor) : option anchor :=
  match l with
  | [] => None
  | x :: r =>
      let h := href x in
      if negb (truthy_str h) then first_profile r
      else if includes h "/status/" then first_profile r
      else
        let cleaned := split_head "?" h in
        let parts := filter truthy_str (split "/" cleaned) in
        if (List.length parts =? 1)%nat then Some x else first_profile r
  end.

(** [/twitter\.com\/[^\/]+$/.test(s)]. *)
Fixpoint ends_with_profile (s : string) : bool :=
  (startsWith s "twitter.com/"
   && truthy_str (str_drop 12 s)
   && negb (includes (str_drop 12 s) "/"))
  || match s with
     | EmptyString => false
     | String _ r => ends_with_profile r
     end.

Definition profileAnchor (a : article) : option anchor :=
  match first_profile (anchors a) with
  | Some x => Some x
  | None => find (fun x => ends_with_profile (href x)) (anchors a)
  end.

(** [s.replace(/^https?:\/\/(www\.)?twitter\.com/, '')]. *)
Definition strip_origin (s : string) : string :=
  let after_scheme :=
    if startsWith s "https://" then Some (str_drop 8 s)
    else if startsWith s "http://" then Some (str_drop 7 s)
    else None in
  match after_scheme with
  | None => s
  | Some r =>
      if startsWith r "www.twitter.com" then str_drop 15 r
      else if startsWith r "twitter.com" then str_drop 11 r
      else s
  end.

(** The handle read from the [href] of the profile anchor. *)
Definition handle_of_href (h : string) : string :=
  let h1 := strip_origin h in
  let h2 := split_head "#" (split_head "?" h1) in
  let h3 := if startsWith h2 "/" then str_drop 1 h2 else h2 in
  if truthy_str h3 then trim (remove_first "@" (split_head "/" h3)) else "".

Definition has_text (o : option string) : bool :=
  match o with
  | Some s => truthy_str s && (0 <? List.length (list_ascii_of_string (trim s)))%nat
  | None => false
  end.

(** The display name when a profile anchor was found. *)
Definition displayName_of (a : article) (p : anchor) : string :=
  let nameSpan := match div_span p with
                  | Some s => Some s
                  | None => span p
                  end in
  if has_text nameSpan then trim (or_str nameSpan "")
  else if has_text (headerSpan a) then trim (or_str (headerSpan a) "")
  else match aria_label p with
       | Some l => if truthy_str l then trim l
                   else match title p with
                        | Some t => if truthy_str t then trim t else ""
                        | None => ""
                        end
       | None => match title p with
                 | Some t => if truthy_str t then trim t else ""
                 | None => ""
                 end
       end.

(** [s.match(/@([A-Za-z0-9_]{1,15})/)], the captured group. *)
Fixpoint match_at_handle (s : string) : option string :=
  match s with
  | EmptyString => None
  | String c r =>
      if Ascii.eqb c "@" && truthy_str (take_while is_word r)
      then Some (substring 0 15 (take_while is_word r))
      else match_at_handle r
  end.

Definition is_digit_or_comma (c : ascii) : bool :=
  is_digit c || Ascii.eqb c ",".

(** [s.match(/[\d,]+/)], the matched text. *)
Definition match_digits (s : string) : option string :=
  let r := drop_while (fun c => negb (is_digit_or_comma c)) s in
  match r with
  | EmptyString => None
  | _ => Some (take_while is_digit_or_comma r)
  end.

(** The like count of an article.  The control is
    [querySelector('[data-testid="like"]')]; the alternative the code tries
    when there is none, a [div] under such a control, matches nothing
    then. *)
Definition likes_of (a : article) : number :=
  match like a with
  | None => Num 0
  | Some b =>
      let aria := or_str (like_aria b) (or_str (like_innerText b) "") in
      match match_digits aria with
      | Some m => parseInt (str_filter (fun c => negb (Ascii.eqb c ",")) m)
      | None => Num 0
      end
  end.

Definition timestamp_of (a : article) : option string :=
  match time a with
  | None => None
  | Some t =>
      match datetime t with
      | Some d => if truthy_str d then Some d
                  else if truthy_str (time_innerText t)
                       then Some (time_innerText t) else None
      | None => if truthy_str (time_innerText t)
                then Some (time_innerText t) else None
      end
  end.

(** [textEl ? textEl.innerText.trim() : ''], when it does not throw. *)
Definition text_of (a : article) : string :=
  match tweetText a with
  | Some (Some s) => trim s
  | _ => ""
  end.

(** The permalink: ['https://twitter.com' + href] of the status anchor. *)
Definition link_of (a : article) : string :=
  match statusAnchor a with
  | Some s => "https://twitter.com" ++ href s
  | None => ""
  end.

(** The body of the [try] for one article. *)
Definition extract_article (a : article) : candidate :=
  match tweetText a with
  | Some None => Fail
  | _ =>
      let text := text_of a in
      let link := link_of a in
      let '(handle, displayName) :=
        match profileAnchor a with
        | Some p => (handle_of_href (href p), displayName_of a p)
        | None =>
            (match match_at_handle (innerText a) with
             | Some h => if truthy_str h then h else ""
             | None => ""
             end,
             match headerSpan a with
             | Some s => s
             | None => ""
             end)
        end in
      let likes := likes_of a in
      let verified := icon_verified a in
      let timestamp := timestamp_of a in
      if truthy_str text && truthy_str link then
        Emit {| displayName := displayName; handle := handle; text := text;
                link := link; likes := likes; verified := verified;
                timestamp := timestamp |}
      else Skip
  end.

(** [articles.forEach]: an article that throws is skipped. *)
Fixpoint extract_articles (l : list article) : list tweet :=
  match l with
  | [] => []
  | a :: r =>
      match extract_article a with
      | Emit t => t :: extract_articles r
      | Skip | Fail => extract_articles r
      end
  end.

(** [extractTweetsFromPage], the function evaluated in the page. *)
Definition extractTweetsFromPage (d : document) : list tweet :=
  extract_articles (articles d).

End Extractor.

(* ===================================================================== *)
(** ** Merging a pass into the running set *)
(* ===================================================================== *)

Module Collect.
Import JS Extractor.

(** A JavaScript [Map] from permalink to item: its entries in insertion
    order.  [set] on a key that is present replaces the value and keeps the
    position; on a new key it appends. *)
Definition jsmap : Type := list (string * tweet).

Fixpoint map_has (k : string) (m : jsmap) : bool :=
  match m with
  | [] => false
  | (k', _) :: r => if String.eqb k k' then true else map_has k r
  end.

Fixpoint map_set (k : string) (v : tweet) (m : jsmap) : jsmap :=
  match m with
  | [] => [(k, v)]
  | (k', v') :: r =>
      if String.eqb k k' then (k, v) :: r else (k', v') :: map_set k v r
  end.

(** [new Map(entries)]. *)
Definition Map_of (entries : list (string * tweet)) : jsmap :=
  fold_left (fun m e => map_set (fst e) (snd e) m) entries [].

(** [Array.from(map.values())]. *)
Definition values (m : jsmap) : list tweet := map snd m.

(** The [forEach] over the new items. *)
Definition add_new (m : jsmap) (t : tweet) : jsmap :=
  if truthy_str (link t) && negb (map_has (link t) m)
  then map_set (link t) t m
  else m.

(** Lines 352-356: the running set after one pass is merged into it. *)
Definition merge (tweets newTweets : list tweet) : list tweet :=
  let map := Map_of (List.map (fun t => (link t, t)) tweets) in
  values (fold_left add_new newTweets map).

End Collect.

(* ===================================================================== *)
(** ** The scrape run *)
(* ===================================================================== *)

Module Scrape.
Import JS Dom Extractor Collect.

(** A cookie of the cookie source. *)
Record cookie : Type := {
  name : string;
  value : string;
  domain : option string;
  path : option string;
  httpOnly : bool;
  secure : bool;
  expires : option Z
}.

(** The cookie given to [page.setCookie]. *)
Definition normalize_cookie (c : cookie) : cookie :=
  {| name := name c;
     value := value c;
     domain := Some (or_str (domain c) ".x.com");
     path := Some (or_str (path c) "/");
     httpOnly := httpOnly c;
     secure := secure c;
     expires := match expires c with
                | Some e => if e =? 0 then None else Some e
                | None => None
                end |}.

(** [!cookieArray || cookieArray.length === 0]. *)
Definition no_cookies (cookieArray : option (list cookie)) : bool :=
  match cookieArray with
  | None => true
  | Some l => len l =? 0
  end.

(** Errors: the one the run builds itself, with [code = 'LOGIN_REQUIRED'],
    and the rejection of a browser operation. *)
Inductive error : Type :=
| LOGIN_REQUIRED (msg : string)
| Rejected (msg : string).

(** What awaiting a browser operation gives. *)
Inductive outcome (A : Type) : Type :=
| Resolves (a : A)
| Rejects (msg : string).
Arguments Resolves {A} a.
Arguments Rejects {A} msg.

(** The browser, as the run observes it.  A field is what the operation
    gives when the run performs it; [loop_page i] and [scrollHeight i] are
    what the [i]-th iteration of the loop reads.  [browser.close()] is taken
    to resolve. *)
Record env : Type := {
  launch : outcome unit;            (* launchBrowser() *)
  newPage : outcome unit;           (* browser.newPage() *)
  page_setup : outcome unit;        (* setViewport, setExtraHTTPHeaders, setUserAgent *)
  setCookie : outcome unit;         (* page.setCookie(...) *)
  goto_home : outcome unit;         (* page.goto('https://twitter.com/') *)
  waitForTimeout : outcome unit;    (* page.waitForTimeout(1500) *)
  landing_page : outcome landing;   (* the page the logged-in check evaluates *)
  debug_files : outcome unit;       (* screenshot, content, writeFileSync *)
  goto_search : outcome unit;       (* page.goto(url) *)
  search_page : outcome document;   (* the page of the first block check *)
  waitForSelector : outcome unit;   (* page.waitForSelector('article') *)
  loop_page : nat -> outcome document;
  scrollHeight : nat -> outcome Z;
  scrollBy : nat -> outcome unit;
  final_page : outcome document     (* the page of the block check after the loop *)
}.

(** What the run does to the browser, in order. *)
Inductive event : Type :=
| EvLaunch
| EvNewPage
| EvPageSetup
| EvSetCookie (cs : list cookie)
| EvGotoHome
| EvWaitForTimeout
| EvCheckLoggedIn
| EvDebugFiles
| EvClose
| EvGotoSearch (url : string)
| EvCheckBlocked
| EvWaitForSelector
| EvExtract (i : nat)
| EvScrollHeight (i : nat)
| EvScrollBy (i : nat)
| EvSleep (i : nat).

Definition trace : Type := list event.

(** How a computation ends: with a value, with a thrown error, or not within
    the iterations allowed to the loop. *)
Inductive reply (A : Type) : Type :=
| Val (a : A)
| Exc (e : error)
| Diverge.
Arguments Val {A} a.
Arguments Exc {A} e.
Arguments Diverge {A}.

(** The monad of the run: the trace so far goes in, the reply and the trace
    extended come out. *)
Definition M (A : Type) : Type := trace -> reply A * trace.

Definition ret {A : Type} (a : A) : M A := fun tr => (Val a, tr).

Definition bind {A B : Type} (m : M A) (k : A -> M B) : M B :=
  fun tr =>
    match m tr with
    | (Val a, tr') => k a tr'
    | (Exc e, tr') => (Exc e, tr')
    | (Diverge, tr') => (Diverge, tr')
    end.

Definition throw {A : Type} (e : error) : M A := fun tr => (Exc e, tr).

Definition diverge {A : Type} : M A := fun tr => (Diverge, tr).

(** [await op]: the operation is performed, then its promise settles. *)
Definition await {A : Type} (ev : event) (o : outcome A) : M A :=
  fun tr =>
    match o with
    | Resolves a => (Val a, (tr ++ [ev])%list)
    | Rejects msg => (Exc (Rejected msg), (tr ++ [ev])%list)
    end.

(** [try { m } catch (e) { h }] and [m.catch(() => h)]. *)
Definition catch {A : Type} (m : M A) (h : A) : M A :=
  fun tr =>
    match m tr with
    | (Exc _, tr') => (Val h, tr')
    | r => r
    end.

Notation "x <- m ;; k" := (bind m (fun x => k))
  (at level 61, m at next level, right associativity).
Notation "m ;;; k" := (bind m (fun _ => k))
  (at level 61, right associativity).

(** [encodeURIComponent] on the bytes of the query. *)
Definition unreserved (c : ascii) : bool :=
  is_upper c || is_lower c || is_digit c
  || existsb (Ascii.eqb c) ["-"; "_"; "."; "!"; "~"; "*"; "'"; "("; ")"]%char.

Definition hex_digit (n : nat) : ascii :=
  if (n <? 10)%nat then ascii_of_nat (48 + n) else ascii_of_nat (55 + n).

Fixpoint encodeURIComponent (s : string) : string :=
  match s with
  | EmptyString => EmptyString
  | String c r =>
      if unreserved c then String c (encodeURIComponent r)
      else
        let n := nat_of_ascii c in
        String "%" (String (hex_digit (n / 16)) (String (hex_digit (n mod 16))
          (encodeURIComponent r)))
  end.

Definition buildTwitterSearchUrl (query : string) : string :=
  "https://twitter.com/search?q=" ++ encodeURIComponent query ++ "&f=live".


(** A collected item once its timestamp is normalized. *)
Record item : Type := {
  post : tweet;
  timestamp_iso : option string
}.

(** The state of the collection loop. *)
Record loop_state : Type := {
  tweets : list tweet;
  scrollAttempts : Z;
  lastHeight : Z
}.

Definition loop_init : loop_state :=
  {| tweets := []; scrollAttempts := 0; lastHeight := 0 |}.

(** Lines 361-366: the stagnation counter after a height is measured. *)
Definition measure (st : loop_state) (tws : list tweet) (newHeight : Z)
  : loop_state :=
  if newHeight =? lastHeight st
  then {| tweets := tws; scrollAttempts := scrollAttempts st + 1;
          lastHeight := lastHeight st |}
  else {| tweets := tws; scrollAttempts := 0; lastHeight := newHeight |}.

Definition msg_login : string :=
  "Login not detected after applying cookies. Check COOKIE_JSON or cookie.json; include auth_token and ct0 and ensure domain is .x.com. Saved debug files.".
Definition msg_blocked : string :=
  "Twitter returned a login/blocked page on search. Provide COOKIE_JSON or cookie.json (logged-in cookies) to continue.".
Definition msg_after : string :=
  "After navigation, page appears blocked or requires login. Provide valid cookies.".

Section Run.

(** The configured budget of stagnant scroll attempts, and the [Date] of the
    platform: [Date_parse s] is the time value of [new Date(s)] in
    milliseconds ([None]: an invalid date), [toISOString] prints a time
    value. *)
Variable MAX_SCROLL_ATTEMPTS : number.
Variable Date_parse : string -> option Z.
Variable toISOString : Z -> string.

Variable E : env.

(** Lines 349-370.  [fuel] bounds the iterations; [i] counts them. *)
Fixpoint collect (maxTweets : number) (fuel : nat) (i : nat) (st : loop_state)
  : M loop_state :=
  if lt (Num (len (tweets st))) maxTweets
     && lt (Num (scrollAttempts st)) MAX_SCROLL_ATTEMPTS
  then
    match fuel with
    | O => diverge
    | S fuel' =>
        d <- await (EvExtract i) (loop_page E i) ;;
        let newTweets := extractTweetsFromPage d in
        let tws := merge (tweets st) newTweets in
        if ge (Num (len tws)) maxTweets
        then ret {| tweets := tws; scrollAttempts := scrollAttempts st;
                    lastHeight := lastHeight st |}
        else
          newHeight <- catch (await (EvScrollHeight i) (scrollHeight E i)) 0 ;;
          let st' := measure st tws newHeight in
          catch (await (EvScrollBy i) (scrollBy E i)) tt ;;;
          await (EvSleep i) (Resolves tt) ;;;
          collect maxTweets fuel' (S i) st'
    end
  else ret st.

(** Lines 386-392: the normalized timestamp of an item. *)
Definition normalize (t : tweet) : item :=
  {| post := t;
     timestamp_iso :=
       match timestamp t with
       | Some s =>
           if truthy_str s then
             match Date_parse s with
             | Some z => Some (toISOString z)
             | None => None
             end
           else None
       | None => None
       end |}.

(** [a.timestamp_iso ? new Date(a.timestamp_iso).getTime() : 0]. *)
Definition time_key (a : item) : number :=
  match timestamp_iso a with
  | Some s =>
      if truthy_str s then
        match Date_parse s with
        | Some z => Num z
        | None => NaN
        end
      else Num 0
  | None => Num 0
  end.

(** The comparator of the sort: [tb - ta]. *)
Definition compareFn (a b : item) : number := sub (time_key b) (time_key a).

(** [a] sorts after [b] when the comparator is positive; a [NaN] counts as
    zero. *)
Definition sorts_after (a b : item) : bool :=
  match compareFn a b with
  | Num v => 0 <? v
  | NaN => false
  end.

(** [Array.prototype.sort] is stable (ECMAScript 2019, Node 11 and later):
    for a comparator that orders the items consistently its result is
    determined, and insertion from the right computes it. *)
Fixpoint insert (x : item) (l : list item) : list item :=
  match l with
  | [] => [x]
  | y :: r => if sorts_after x y then y :: insert x r else x :: y :: r
  end.

Fixpoint sort (l : list item) : list item :=
  match l with
  | [] => []
  | x :: r => insert x (sort r)
  end.

(** Lines 386-399. *)
Definition finish (tws : list tweet) (maxTweets : number) : list item :=
  slice0 (sort (List.map normalize tws)) maxTweets.

(** Lines 344-401 of [scrapeTweetsForQuery]: the loop, the block check when
    nothing was collected, the sort and the return. *)
Definition collect_and_finish (fuel : nat) (maxTweets : number)
  (cookieArray : option (list cookie)) : M (list item) :=
  st <- collect maxTweets fuel 0 loop_init ;;
  (if len (tweets st) =? 0 then
     d1 <- await EvCheckBlocked (final_page E) ;;
     if Validator.isBlockedOrLoginPage d1 && no_cookies cookieArray then
       await EvClose (Resolves tt) ;;;
       throw (LOGIN_REQUIRED msg_after)
     else ret tt
   else ret tt) ;;;
  let result := finish (tweets st) maxTweets in
  await EvClose (Resolves tt) ;;;
  ret result.

(** [scrapeTweetsForQuery], lines 240-343, then [collect_and_finish]. *)
Definition scrapeTweetsForQuery (fuel : nat) (query : string)
  (maxTweets : number) (cookieArray : option (list cookie)) : M (list item) :=
  await EvLaunch (launch E) ;;;
  await EvNewPage (newPage E) ;;;
  await EvPageSetup (page_setup E) ;;;
  (match cookieArray with
   | Some cs =>
       if negb (len cs =? 0)
       then catch (await (EvSetCookie (List.map normalize_cookie cs))
                         (setCookie E)) tt
       else ret tt
   | None => ret tt
   end) ;;;
  catch (await EvGotoHome (goto_home E)) tt ;;;
  await EvWaitForTimeout (waitForTimeout E) ;;;
  home <- await EvCheckLoggedIn (landing_page E) ;;
  if negb (Validator.loggedIn home) then
    catch (await EvDebugFiles (debug_files E)) tt ;;;
    await EvClose (Resolves tt) ;;;
    throw (LOGIN_REQUIRED msg_login)
  else
    catch (await (EvGotoSearch (buildTwitterSearchUrl query)) (goto_search E)) tt ;;;
    d0 <- await EvCheckBlocked (search_page E) ;;
    if Validator.isBlockedOrLoginPage d0 && no_cookies cookieArray then
      await EvClose (Resolves tt) ;;;
      throw (LOGIN_REQUIRED msg_blocked)
    else
      catch (await EvWaitForSelector (waitForSelector E)) tt ;;;
      collect_and_finish fuel maxTweets cookieArray.

End Run.

End Scrape.

(* ===================================================================== *)
(** ** The request handler of [POST /scrape] *)
(* ===================================================================== *)

Module Handler.
Import JS Scrape.

(** The fields of the request body the handler reads; [JUndefined] for a
    field that is absent. *)
Record request_body : Type := {
  filter : JS.value;
  query : JS.value;
  max_tweets_per_run : JS.value;
  max_tweets : JS.value
}.

(** What the handler does before the run: it throws (a [trim] on a value
    that is not a string), answers 400, or starts the run. *)
Inductive call : Type :=
| TypeError
| BadRequest
| Invoke (filter : string) (maxTweets : number).

(** [Math.max(1, parseInt(body.max_tweets_per_run || body.max_tweets || 1, 10))]. *)
Definition maxTweets_of (b : request_body) : number :=
  Math_max (Num 1)
    (parseInt_value
       (or_else (max_tweets_per_run b) (or_else (max_tweets b) (JNum 1)))).

(** Lines 411-423, up to the call of [scrapeTweetsForQuery]. *)
Definition post_scrape (b : request_body) : call :=
  match or_else (filter b) (or_else (query b) (JStr "")) with
  | JStr s =>
      let filter := trim s in
      let maxTweets := maxTweets_of b in
      if negb (truthy_str filter) then BadRequest
      else Invoke filter maxTweets
  | _ => TypeError
  end.

(** The answer of the handler to the reply of the run. *)
Inductive response : Type :=
| Ok200 (tweets : list item)
| Forbidden403 (message : string)
| Error500 (message : string).

Definition respond (r : reply (list item)) : option response :=
  match r with
  | Val tws => Some (Ok200 tws)
  | Exc (LOGIN_REQUIRED m) => Some (Forbidden403 m)
  | Exc (Rejected m) => Some (Error500 (if truthy_str m then m else "scrape_failed"))
  | Diverge => None
  end.

End Handler.


(* ===================================================================== *)
(** ** The cookie source and the configuration *)
(* ===================================================================== *)

Module CookieSource.
Import JS Scrape.

(** What [JSON.parse] gives, as the loader looks at it: an array, whose
    elements are read as cookies, or a value that is not an array. *)
Inductive parsed : Type :=
| PArray (cs : list cookie)
| POther.

(** The cookie file: it does not exist, or reading it throws, or it holds a
    text. *)
Inductive file : Type :=
| NoFile
| Unreadable
| Holds (raw : string).

Section Loader.

(** [JSON.parse]: [None] when it throws. *)
Variable JSON_parse : string -> option parsed.

(** [Array.isArray(parsed) && parsed.length], then [return parsed]. *)
Definition nonempty_array (p : parsed) : option (list cookie) :=
  match p with
  | PArray cs => if negb (len cs =? 0) then Some cs else None
  | POther => None
  end.

(** [loadCookiesFromEnvOrFile]: [COOKIE_JSON] is the environment variable
    ([None]: not set), [cookie_file] the file at [COOKIE_FILE_PATH]; the
    result is the array returned, [None] for [null]. *)
Definition loadCookiesFromEnvOrFile (COOKIE_JSON : option string)
  (cookie_file : file) : option (list cookie) :=
  let from_env :=
    match COOKIE_JSON with
    | Some env =>
        if truthy_str env then
          match JSON_parse env with
          | Some p => nonempty_array p
          | None => None
          end
        else None
    | None => None
    end in
  match from_env with
  | Some cs => Some cs
  | None =>
      match cookie_file with
      | Holds raw =>
          match JSON_parse raw with
          | Some p => nonempty_array p
          | None => None
          end
      | NoFile | Unreadable => None
      end
  end.

End Loader.

End CookieSource.

Module Config.
Import JS Extractor.

(** [parseInt(process.env.X || default, 10)]. *)
Definition env_int (v : option string) (default : string) : number :=
  parseInt (or_str v default).

Definition SCROLL_DELAY (SCROLL_DELAY_MS : option string) : number :=
  env_int SCROLL_DELAY_MS "1000".

Definition MAX_SCROLL_ATTEMPTS (v : option string) : number :=
  env_int v "12".

(** [(process.env.HEADLESS || 'true').toLowerCase() === 'true']. *)
Definition HEADLESS (v : option string) : bool :=
  String.eqb (toLowerCase (or_str v "true")) "true".

End Config.
(* ===================================================================== *)
(** ** The notions the properties are stated with *)
(* ===================================================================== *)

Module Spec.
Import JS Dom Extractor Collect Scrape Handler.

(** A field of the request is absent. *)
Definition absent (v : JS.value) : Prop := v = JUndefined.

(** A field of the request is absent or parses as an integer. *)
Definition absent_or_integer (v : JS.value) : Prop :=
  absent v \/ exists n, parseInt_value v = Num n.

(** The item has permalink [l]. *)
Definition has_link (l : string) (t : tweet) : bool := String.eqb (link t) l.

(** A candidate with body text and a permalink, whose processing does not
    throw. *)
Definition qualifies (a : article) : bool :=
  match tweetText a with
  | Some None => false
  | _ => truthy_str (text_of a) && truthy_str (link_of a)
  end.

(** The merge as the specification words it: an item of the pass joins the
    end of the running set when its permalink is not empty and not yet
    there. *)
Definition merge_step (acc : list tweet) (t : tweet) : list tweet :=
  if truthy_str (link t) && negb (existsb (has_link (link t)) acc)
  then (acc ++ [t])%list
  else acc.

Definition merge_spec (tweets newTweets : list tweet) : list tweet :=
  fold_left merge_step newTweets tweets.

(** The entries [tweets.map(t => [t.link, t])] the map is built from. *)
Definition entries (ts : list tweet) : jsmap :=
  List.map (fun t => (link t, t)) ts.

(** Every key of the map is the permalink of its value. *)
Definition keyed (m : jsmap) : Prop :=
  Forall (fun e => fst e = link (snd e)) m.

(** The running set an iteration starts from, as [new Map] reads it: of the
    items that share a permalink, one stays. *)
Definition compact (ts : list tweet) : list tweet :=
  values (Map_of (entries ts)).

(** Every character of the string satisfies [f]. *)
Fixpoint str_forall (f : ascii -> bool) (s : string) : bool :=
  match s with
  | EmptyString => true
  | String c r => f c && str_forall f r
  end.

(** *** The collection loop *)

(** The pass the [i]-th iteration extracts. *)
Definition batch (E : env) (i : nat) : list tweet :=
  match loop_page E i with
  | Resolves d => extractTweetsFromPage d
  | Rejects _ => []
  end.

(** The height the [i]-th iteration measures: 0 when the evaluation is
    rejected. *)
Definition height (E : env) (i : nat) : Z :=
  match scrollHeight E i with
  | Resolves h => h
  | Rejects _ => 0
  end.

(** The state at the top of iteration [n], when the iterations before it
    ran whole. *)
Fixpoint state_at (E : env) (n : nat) : loop_state :=
  match n with
  | O => loop_init
  | S k =>
      let st := state_at E k in
      measure st (merge (tweets st) (batch E k)) (height E k)
  end.

(** The state the loop is left in by the [break] of iteration [n]. *)
Definition broken_at (E : env) (n : nat) : loop_state :=
  let st := state_at E n in
  {| tweets := merge (tweets st) (batch E n);
     scrollAttempts := scrollAttempts st;
     lastHeight := lastHeight st |}.

(** Iteration [k] runs whole: the guard holds at its top, the extraction
    resolves, and the merged set is still short of [maxTweets]. *)
Definition runs_whole (budget : number) (E : env) (maxTweets : number)
  (k : nat) : Prop :=
  lt (Num (len (tweets (state_at E k)))) maxTweets = true /\
  lt (Num (scrollAttempts (state_at E k))) budget = true /\
  (exists d, loop_page E k = Resolves d) /\
  ge (Num (len (tweets (broken_at E k)))) maxTweets = false.

(** The passes of the first [n] iterations, in order. *)
Definition seen (E : env) (n : nat) : list tweet :=
  flat_map (batch E) (seq 0 n).

(** The height measured before iteration [k]: 0 before the first. *)
Definition prev_height (E : env) (k : nat) : Z :=
  match k with
  | O => 0
  | S j => height E j
  end.

(** Iteration [k] is stagnant: the height it measures is the one measured
    before. *)
Definition stagnant (E : env) (k : nat) : bool :=
  height E k =? prev_height E k.

(** How many of the iterations just before [n] satisfy [f], counting back
    from [n - 1] until one does not. *)
Fixpoint trailing (f : nat -> bool) (n : nat) : nat :=
  match n with
  | O => O
  | S k => if f k then S (trailing f k) else O
  end.

(** *** The scrape run *)

(** An event of the search navigation or of the collection. *)
Definition search_or_collection (ev : event) : bool :=
  match ev with
  | EvGotoSearch _ | EvCheckBlocked | EvWaitForSelector
  | EvExtract _ | EvScrollHeight _ | EvScrollBy _ | EvSleep _ => true
  | _ => false
  end.

Definition is_close (ev : event) : bool :=
  match ev with
  | EvClose => true
  | _ => false
  end.

(** The session was closed at some point of the trace. *)
Definition closed (tr : trace) : bool := existsb is_close tr.

(** The run aborts with a [LOGIN_REQUIRED] error. *)
Definition login_required {A : Type} (r : reply A) : Prop :=
  exists msg, r = Exc (LOGIN_REQUIRED msg).

(** What the run does up to the logged-in check, when every operation it
    awaits resolves or is caught. *)
Definition landing_events (cookieArray : option (list cookie)) : trace :=
  ([EvLaunch; EvNewPage; EvPageSetup]
   ++ match cookieArray with
      | Some cs =>
          if negb (len cs =? 0) then [EvSetCookie (List.map normalize_cookie cs)]
          else []
      | None => []
      end
   ++ [EvGotoHome; EvWaitForTimeout; EvCheckLoggedIn])%list.

(** The same, up to the block check of the search page. *)
Definition search_events (query : string) (cookieArray : option (list cookie))
  : trace :=
  (landing_events cookieArray
   ++ [EvGotoSearch (buildTwitterSearchUrl query); EvCheckBlocked])%list.

(** The browser session, the page and the landing check are reached. *)
Definition reaches_landing (E : env) (home : landing) : Prop :=
  launch E = Resolves tt /\ newPage E = Resolves tt /\
  page_setup E = Resolves tt /\ waitForTimeout E = Resolves tt /\
  landing_page E = Resolves home.

(** *** The order of the result *)

(** The instant the normalized timestamp of a post denotes: none when the
    raw timestamp is absent, empty or not a date. *)
Definition norm_time (Date_parse : string -> option Z) (t : tweet) : option Z :=
  match timestamp t with
  | Some s => if truthy_str s then Date_parse s else None
  | None => None
  end.

(** The same, a null normalized timestamp counting as the epoch. *)
Definition epoch_time (Date_parse : string -> option Z) (t : tweet) : Z :=
  match norm_time Date_parse t with
  | Some z => z
  | None => 0
  end.

(** The instant of the normalized timestamp of an item. *)
Definition item_time (Date_parse : string -> option Z) (a : item) : option Z :=
  match timestamp_iso a with
  | Some s => Date_parse s
  | None => None
  end.

(** [a >= b] when a null timestamp is below every instant. *)
Definition null_min_ge (a b : option Z) : bool :=
  match a, b with
  | _, None => true
  | None, Some _ => false
  | Some x, Some y => x >=? y
  end.

(** The order C5 words: non-increasing by normalized timestamp, null being
    minimal. *)
Definition newest_first_null_min (Date_parse : string -> option Z)
  (l : list item) : Prop :=
  StronglySorted
    (fun a b => null_min_ge (item_time Date_parse a) (item_time Date_parse b) = true)
    l.

(** The order the code gives: non-increasing by instant, null being the
    epoch. *)
Definition newest_first_epoch (Date_parse : string -> option Z)
  (l : list item) : Prop :=
  StronglySorted
    (fun a b => epoch_time Date_parse (post a) >= epoch_time Date_parse (post b))
    l.

(** The items of [l] at instant [z], in the order of [l]. *)
Definition at_instant (Date_parse : string -> option Z) (z : Z)
  (l : list item) : list item :=
  List.filter (fun a => epoch_time Date_parse (post a) =? z) l.

End Spec.

(* ===================================================================== *)
(** ** Sample pages and requests *)
(* ===================================================================== *)

Module Samples.
Import JS Dom Extractor Collect Scrape Handler.

Definition plain_anchor (h : string) : anchor :=
  {| href := h; div_span := None; span := None; aria_label := None;
     title := None |}.

(** A post by [alice] with permalink [/alice/status/1]; the parameters are
    its body text, the accessible name of its like control and its
    [datetime]. *)
Definition post_of (body_text : string) (like_label : option string)
  (when : option string) : article :=
  {| tweetText := Some (Some body_text);
     anchors := [ {| href := "/alice"; div_span := Some "Alice"; span := Some "Alice";
                     aria_label := None; title := None |};
                  plain_anchor "/alice/status/1" ];
     headerSpan := Some "Alice";
     innerText := "Alice @alice " ++ body_text;
     like := Some {| like_aria := like_label; like_innerText := Some "" |};
     icon_verified := false;
     time := match when with
             | Some w => Some {| datetime := Some w; time_innerText := "1h" |}
             | None => None
             end |}.

Definition page_of (l : list article) : document :=
  {| body := Some "Latest"; login_element := false; articles := l |}.

(** A page that shows the same post in two containers. *)
Definition twice : document :=
  page_of [post_of "hello" (Some "3 Likes. Like") None;
           post_of "hello" (Some "3 Likes. Like") None].

(** A post whose like control is named with a comma before the count. *)
Definition comma_like : article :=
  post_of "hello" (Some "Like, 12 likes") None.

(** A post without body text and a post without permalink. *)
Definition no_text : article := post_of "   " None None.
Definition no_link : article :=
  {| tweetText := Some (Some "hello");
     anchors := [plain_anchor "/alice"];
     headerSpan := None; innerText := "hello"; like := None;
     icon_verified := false; time := None |}.

(** A request for five posts about rust. *)
Definition five_rust : request_body :=
  {| filter := JStr " rust "; query := JUndefined;
     max_tweets_per_run := JUndefined; max_tweets := JStr "5" |}.

(** A [Date] that knows the instants of a table: [Date_parse] reads the
    ISO strings of the table and no other string, [toISOString] prints the
    instants of the table. *)
Definition known_dates : list (string * Z) :=
  [("1969-12-31T00:00:00.000Z", -86400000);
   ("1970-01-01T00:00:00.000Z", 0);
   ("2024-05-01T12:00:00.000Z", 1714564800000)].

Definition Date_parse (s : string) : option Z :=
  option_map snd (find (fun e => String.eqb (fst e) s) known_dates).

Definition toISOString (z : Z) : string :=
  match find (fun e => snd e =? z) known_dates with
  | Some e => fst e
  | None => "1970-01-01T00:00:00.000Z"
  end.

(** The post of [post_of] as the extractor gives it. *)
Definition extracted (body_text : string) (when : option string) : tweet :=
  {| displayName := "Alice"; handle := "alice"; text := body_text;
     link := "https://twitter.com/alice/status/1"; likes := Num 0;
     verified := false; timestamp := when |}.

(** A post without [time] element and a post dated before 1970. *)
Definition undated : tweet := extracted "undated" None.

Definition from_1969 : tweet :=
  {| displayName := "Bob"; handle := "bob"; text := "old";
     link := "https://twitter.com/bob/status/2"; likes := Num 0;
     verified := false; timestamp := Some "1969-12-31T00:00:00.000Z" |}.

Definition from_2024 : tweet :=
  {| displayName := "Carol"; handle := "carol"; text := "new";
     link := "https://twitter.com/carol/status/3"; likes := Num 0;
     verified := false; timestamp := Some "2024-05-01T12:00:00.000Z" |}.

Definition logged_in_home : landing :=
  {| home_link := true; profile_link := true; timeline := true;
     landing_body := Some "Home" |}.

Definition logged_out_home : landing :=
  {| home_link := false; profile_link := false; timeline := false;
     landing_body := Some "Log in Sign up" |}.

Definition rate_limited : document :=
  {| body := Some "Rate limit exceeded"; login_element := false; articles := [] |}.

Definition one_post : document :=
  page_of [post_of "hello" (Some "3 Likes. Like") (Some "2024-05-01T12:00:00.000Z")].

(** A browser where every operation resolves: [home] is the landing page,
    [search] the page of the block checks, [pages] the page of each
    iteration. *)
Definition browser (home : landing) (search : document)
  (pages : nat -> outcome document) (heights : nat -> Z) : env :=
  {| launch := Resolves tt; newPage := Resolves tt; page_setup := Resolves tt;
     setCookie := Resolves tt; goto_home := Resolves tt;
     waitForTimeout := Resolves tt; landing_page := Resolves home;
     debug_files := Resolves tt; goto_search := Resolves tt;
     search_page := Resolves search; waitForSelector := Resolves tt;
     loop_page := pages; scrollHeight := fun i => Resolves (heights i);
     scrollBy := fun _ => Resolves tt; final_page := Resolves search |}.

(** A search page that shows one post and never grows. *)
Definition still : env :=
  browser logged_in_home one_post (fun _ => Resolves one_post) (fun _ => 900).

(** A search page that shows the same post in two containers. *)
Definition echo : env :=
  browser logged_in_home twice (fun _ => Resolves twice) (fun _ => 900).

(** A search page whose execution context is lost when the loop reads it. *)
Definition crash : env :=
  browser logged_in_home one_post
    (fun _ => Rejects "Execution context was destroyed") (fun _ => 900).

(** A landing page that shows no sign of a session. *)
Definition logged_out : env :=
  browser logged_out_home one_post (fun _ => Resolves one_post) (fun _ => 900).

(** A search page that reports a rate limit and shows no post. *)
Definition limited : env :=
  browser logged_in_home rate_limited (fun _ => Resolves rate_limited)
    (fun _ => 900).

(** A search page without posts that turns into a rate-limit notice by the
    time the loop has given up. *)
Definition late_gate : env :=
  {| launch := Resolves tt; newPage := Resolves tt; page_setup := Resolves tt;
     setCookie := Resolves tt; goto_home := Resolves tt;
     waitForTimeout := Resolves tt; landing_page := Resolves logged_in_home;
     debug_files := Resolves tt; goto_search := Resolves tt;
     search_page := Resolves (page_of []); waitForSelector := Resolves tt;
     loop_page := fun _ => Resolves (page_of []);
     scrollHeight := fun _ => Resolves 900;
     scrollBy := fun _ => Resolves tt; final_page := Resolves rate_limited |}.

Definition auth_cookie : cookie :=
  {| name := "auth_token"; value := "0123"; domain := None; path := None;
     httpOnly := true; secure := true; expires := None |}.

End Samples.

(* ===================================================================== *)
(** ** Further notions *)
(* ===================================================================== *)

Module Notions.
Import JS Dom Extractor Collect Scrape Handler Spec.

(** Some character of the string satisfies [f]. *)
Fixpoint str_exists (f : ascii -> bool) (s : string) : bool :=
  match s with
  | EmptyString => false
  | String c r => f c || str_exists f r
  end.

(** The characters [encodeURIComponent] writes: the unreserved ones and the
    percent sign. *)
Definition url_safe (c : ascii) : bool := unreserved c || Ascii.eqb c "%".

(** The value of a hexadecimal digit, upper case. *)
Definition hex_val (c : ascii) : nat :=
  let n := nat_of_ascii c in
  if (n <? 58)%nat then (n - 48)%nat else (n - 55)%nat.

(** Percent decoding: the inverse the encoding is checked against. *)
Fixpoint percent_decode (s : string) : string :=
  match s with
  | String "%" (String h (String l r)) =>
      String (ascii_of_nat (16 * hex_val h + hex_val l)) (percent_decode r)
  | String c r => String c (percent_decode r)
  | EmptyString => EmptyString
  end.

(** None of [/], [?] and [#]. *)
Definition segment_char (c : ascii) : bool :=
  negb (Ascii.eqb c "/") && negb (Ascii.eqb c "?") && negb (Ascii.eqb c "#").

(** The document with more text around its body and, possibly, a login
    element more. *)
Definition grows_from (d d' : document) : Prop :=
  (login_element d = true -> login_element d' = true) /\
  match body d with
  | Some t => exists before after, body d' = Some (before ++ t ++ after)
  | None => True
  end.

(** The string is empty or starts with a character that [f] rejects. *)
Definition stops (f : ascii -> bool) (s : string) : bool :=
  match s with
  | EmptyString => true
  | String c _ => negb (f c)
  end.

(** An extraction of the loop. *)
Definition is_extract (ev : event) : bool :=
  match ev with
  | EvExtract _ => true
  | _ => false
  end.

(** The run failed by an error it built itself, or returned. *)
Definition written_exit {A : Type} (r : reply A) : Prop :=
  (exists v, r = Val v) \/ login_required r.

End Notions.

Module MoreSamples.
Import JS Dom Extractor Collect Scrape Handler.

(** The item the extractor gives for the post of [Samples.one_post]. *)
Definition one_post_item : tweet :=
  {| displayName := "Alice"; handle := "alice"; text := "hello";
     link := "https://twitter.com/alice/status/1"; likes := Num 3;
     verified := false; timestamp := Some "2024-05-01T12:00:00.000Z" |}.

(** What the run on [Samples.still] returns. *)
Definition one_post_result : list item :=
  [{| post := one_post_item;
      timestamp_iso := Some "2024-05-01T12:00:00.000Z" |}].

(** A [JSON.parse] that reads one text, as an array of one cookie. *)
Definition parse_one (s : string) : option CookieSource.parsed :=
  if String.eqb s "[auth_token]"
  then Some (CookieSource.PArray [Samples.auth_cookie])
  else None.

End MoreSamples.
(* ===================================================================== *)
(** * Properties *)
(* ===================================================================== *)

(** ** The string and number primitives on examples *)

Module PrimitiveExamples.
Import JS Extractor Scrape.

Example parseInt_sign_and_tail : parseInt "  -12abc" = Num (-12).
Proof. reflexivity. Qed.

Example parseInt_empty : parseInt "" = NaN.
Proof. reflexivity. Qed.

Example split_keeps_empty_parts : split "/" "/a//b" = [""; "a"; ""; "b"].
Proof. reflexivity. Qed.

Example trim_both_ends : trim "  a b  " = "a b".
Proof. reflexivity. Qed.

Example includes_status : includes "/u/status/1" "/status/" = true.
Proof. reflexivity. Qed.

Example slice0_negative_end : slice0 [1; 2; 3] (Num (-1)) = [1; 2].
Proof. reflexivity. Qed.

Example search_url :
  buildTwitterSearchUrl "a b&c" = "https://twitter.com/search?q=a%20b%26c&f=live".
Proof. reflexivity. Qed.

Example handle_from_absolute_href :
  handle_of_href "https://www.twitter.com/@bob/with_replies?x=1#f" = "bob".
Proof. reflexivity. Qed.

Example profile_tail :
  ends_with_profile "https://twitter.com/bob" = true
  /\ ends_with_profile "https://twitter.com/bob/" = false.
Proof. split; reflexivity. Qed.

Example at_handle_capped : match_at_handle "hi @ @_abcdefghijklmnopqrst x"
                           = Some "_abcdefghijklmn".
Proof. reflexivity. Qed.

Example like_count_with_commas :
  likes_of (Samples.post_of "hello" (Some "1,234 Likes. Like") None) = Num 1234.
Proof. reflexivity. Qed.

End PrimitiveExamples.

(** ** The maximum-item count of a request *)

Module HandlerFacts.
Import JS Handler Spec.

Lemma parseInt_value_falsy v n :
  truthy v = false -> parseInt_value v = Num n -> n = 0.
Proof.
  destruct v as [| |b|z|r|s|o]; simpl; try discriminate.
  - destruct b; simpl; discriminate.
  - intros Hz Hn. apply negb_false_iff, Z.eqb_eq in Hz. congruence.
  - destruct s; [|discriminate]. discriminate.
Qed.

(** The count when one field at most is given. *)
Lemma maxTweets_of_single b v n :
  (absent (max_tweets b) /\ max_tweets_per_run b = v) \/
  (absent (max_tweets_per_run b) /\ max_tweets b = v) ->
  parseInt_value v = Num n ->
  maxTweets_of b = Num (Z.max 1 n).
Proof.
  unfold maxTweets_of, absent.
  intros [[Ha Hv]|[Ha Hv]] Hp; rewrite Ha, Hv; unfold or_else; simpl.
  - destruct (truthy v) eqn:Ht.
    + rewrite Hp. reflexivity.
    + rewrite (parseInt_value_falsy v n Ht Hp). reflexivity.
  - destruct (truthy v) eqn:Ht.
    + rewrite Hp. reflexivity.
    + rewrite (parseInt_value_falsy v n Ht Hp). reflexivity.
Qed.

Lemma maxTweets_of_at_least_one b :
  absent_or_integer (max_tweets_per_run b) ->
  absent_or_integer (max_tweets b) ->
  exists m, maxTweets_of b = Num m /\ 1 <= m.
Proof.
  unfold maxTweets_of, absent_or_integer, absent, or_else.
  intros Ha Hb.
  destruct (truthy (max_tweets_per_run b)) eqn:Ta.
  - destruct Ha as [Ha|[n Hn]].
    + rewrite Ha in Ta. discriminate.
    + rewrite Hn. exists (Z.max 1 n). split; [reflexivity | lia].
  - destruct (truthy (max_tweets b)) eqn:Tb.
    + destruct Hb as [Hb|[n Hn]].
      * rewrite Hb in Tb. discriminate.
      * rewrite Hn. exists (Z.max 1 n). split; [reflexivity | lia].
    + exists 1. split; [reflexivity | lia].
Qed.

(** C10.  When [POST /scrape] starts a run, the maximum-item count it passes
    is 1 for a request that gives neither [max_tweets_per_run] nor
    [max_tweets]; it is [max(1, n)] for a request that gives one of them with
    a value that parses as the integer [n]; when both are given and
    [max_tweets_per_run] is truthy, that field is the one parsed; and
    whenever each field is absent or parses as an integer the count is a
    number that is at least 1. *)
Theorem post_scrape_max_items (b : request_body) (f : string) (m : number) :
  post_scrape b = Invoke f m ->
  (absent (max_tweets_per_run b) -> absent (max_tweets b) -> m = Num 1) /\
  (forall v n,
      (absent (max_tweets b) /\ max_tweets_per_run b = v) \/
      (absent (max_tweets_per_run b) /\ max_tweets b = v) ->
      parseInt_value v = Num n -> m = Num (Z.max 1 n)) /\
  (forall n,
      truthy (max_tweets_per_run b) = true ->
      parseInt_value (max_tweets_per_run b) = Num n -> m = Num (Z.max 1 n)) /\
  (absent_or_integer (max_tweets_per_run b) ->
   absent_or_integer (max_tweets b) ->
   exists k, m = Num k /\ 1 <= k).
Proof.
  unfold post_scrape. intros H.
  destruct (or_else (filter b) (or_else (query b) (JStr ""))); try discriminate.
  destruct (negb (truthy_str (trim s))); [discriminate|].
  injection H as _ Hm. subst m.
  split; [|split; [|split]].
  - unfold absent, maxTweets_of. intros -> ->. reflexivity.
  - intros v n Hv Hp. exact (maxTweets_of_single b v n Hv Hp).
  - intros n Ht Hp. unfold maxTweets_of, or_else. rewrite Ht, Hp. reflexivity.
  - apply maxTweets_of_at_least_one.
Qed.

Lemma post_scrape_max_items_witness :
  post_scrape Samples.five_rust = Invoke "rust" (Num 5)
  /\ Num 5 = Num (Z.max 1 5)
  /\ exists k, Num 5 = Num k /\ 1 <= k.
Proof.
  destruct (post_scrape_max_items Samples.five_rust "rust" (Num 5) eq_refl)
    as [_ [Hone [_ Hall]]].
  split; [reflexivity|]. split.
  - apply (Hone (JStr "5") 5); [right; split; reflexivity | reflexivity].
  - apply Hall; [left; reflexivity | right; exists 5; reflexivity].
Defined.

End HandlerFacts.

(** ** The merge of a pass into the running set *)

Module CollectFacts.
Import JS Extractor Collect Spec.


Lemma keyed_entries (m : jsmap) : keyed m -> m = entries (values m).
Proof.
  unfold entries.
  induction 1 as [|[k v] r Hk _ IH]; simpl; [reflexivity|].
  simpl in Hk. rewrite Hk. f_equal. exact IH.
Qed.

Lemma map_set_keyed k v m : k = link v -> keyed m -> keyed (map_set k v m).
Proof.
  intros Hk. induction 1 as [|[k' v'] r Hk' Hr IH]; simpl.
  - constructor; [exact Hk | constructor].
  - destruct (String.eqb k k'); constructor; auto.
Qed.

Lemma Map_of_keyed_from (ts : list tweet) (m : jsmap) :
  keyed m ->
  keyed (fold_left (fun m e => map_set (fst e) (snd e) m) (entries ts) m).
Proof.
  unfold compact, entries in *.
  revert m. induction ts as [|t r IH]; intros m Hm; simpl; [exact Hm|].
  apply IH. apply map_set_keyed; [reflexivity | exact Hm].
Qed.

Lemma Map_of_keyed (ts : list tweet) : keyed (Map_of (entries ts)).
Proof.
  unfold compact, entries in *. apply Map_of_keyed_from. constructor. Qed.

Lemma map_has_In k m : map_has k m = true <-> In k (List.map fst m).
Proof.
  induction m as [|[k' v'] r IH]; simpl.
  - split; [discriminate | tauto].
  - destruct (String.eqb k k') eqn:E.
    + apply String.eqb_eq in E. subst. tauto.
    + apply String.eqb_neq in E. rewrite IH. split; [tauto|].
      intros [H|H]; [congruence | exact H].
Qed.

Lemma map_set_keys k v m :
  List.map fst (map_set k v m) =
  if map_has k m then List.map fst m else (List.map fst m ++ [k])%list.
Proof.
  induction m as [|[k' v'] r IH]; simpl; [reflexivity|].
  destruct (String.eqb k k') eqn:E; simpl.
  - apply String.eqb_eq in E. subst. reflexivity.
  - rewrite IH. destruct (map_has k r); reflexivity.
Qed.

Lemma NoDup_snoc {A : Type} (l : list A) (x : A) :
  NoDup l -> ~ In x l -> NoDup (l ++ [x]).
Proof.
  intros Hl Hx. induction Hl as [|y r Hy Hr IH]; simpl.
  - constructor; [tauto | constructor].
  - constructor.
    + rewrite in_app_iff. simpl. intros [H|[H|[]]]; [tauto|].
      subst. apply Hx. left. reflexivity.
    + apply IH. intros H. apply Hx. right. exact H.
Qed.

Lemma map_set_NoDup k v m :
  NoDup (List.map fst m) -> NoDup (List.map fst (map_set k v m)).
Proof.
  intros H. rewrite map_set_keys. destruct (map_has k m) eqn:E; [exact H|].
  apply NoDup_snoc; [exact H|]. rewrite <- map_has_In. congruence.
Qed.

Lemma Map_of_NoDup_from (es : list (string * tweet)) (m : jsmap) :
  NoDup (List.map fst m) ->
  NoDup (List.map fst (fold_left (fun m e => map_set (fst e) (snd e) m) es m)).
Proof.
  revert m. induction es as [|e r IH]; intros m Hm; simpl; [exact Hm|].
  apply IH. apply map_set_NoDup. exact Hm.
Qed.

Lemma map_set_fresh k v m :
  map_has k m = false -> map_set k v m = (m ++ [(k, v)])%list.
Proof.
  induction m as [|[k' v'] r IH]; simpl; [reflexivity|].
  destruct (String.eqb k k'); [discriminate|].
  intros H. rewrite (IH H). reflexivity.
Qed.

Lemma map_has_entries k (ts : list tweet) :
  map_has k (entries ts) = existsb (has_link k) ts.
Proof.
  unfold compact, entries in *.
  induction ts as [|t r IH]; simpl; [reflexivity|].
  unfold has_link at 1. rewrite (String.eqb_sym (link t) k).
  destruct (String.eqb k (link t)); simpl; [reflexivity | exact IH].
Qed.

Lemma links_of_values m : keyed m -> List.map link (values m) = List.map fst m.
Proof.
  induction 1 as [|[k v] r Hk _ IH]; simpl; [reflexivity|].
  simpl in Hk. rewrite Hk, IH. reflexivity.
Qed.

Lemma compact_NoDup (ts : list tweet) : NoDup (List.map link (compact ts)).
Proof.
  unfold compact. rewrite links_of_values by apply Map_of_keyed.
  apply Map_of_NoDup_from. constructor.
Qed.

Lemma Map_of_entries_from (ts2 ts1 : list tweet) :
  NoDup (List.map link (ts1 ++ ts2)) ->
  fold_left (fun m e => map_set (fst e) (snd e) m) (entries ts2) (entries ts1)
  = entries (ts1 ++ ts2).
Proof.
  unfold compact, entries in *.
  revert ts1. induction ts2 as [|t r IH]; intros ts1 H; simpl.
  - rewrite app_nil_r. reflexivity.
  - rewrite map_set_fresh.
    + specialize (IH (ts1 ++ [t])%list).
      rewrite <- app_assoc in IH. simpl in IH.
      rewrite (map_app (fun t => (link t, t)) ts1 [t]) in IH. simpl in IH.
      apply IH. exact H.
    + destruct (map_has (link t) (List.map (fun t => (link t, t)) ts1)) eqn:E;
        [|reflexivity].
      exfalso. apply map_has_In in E. rewrite map_map in E. simpl in E.
      rewrite map_app in H. simpl in H.
      apply NoDup_remove_2 in H. apply H. rewrite in_app_iff. left. exact E.
Qed.

Lemma compact_id (ts : list tweet) : NoDup (List.map link ts) -> compact ts = ts.
Proof.
  unfold compact, entries in *.
  intros H. unfold compact, Map_of, entries.
  pose proof (Map_of_entries_from ts [] H) as E. unfold entries in E.
  simpl in E. rewrite E.
  unfold values. rewrite map_map. simpl. apply map_id.
Qed.

Lemma add_new_entries (acc : list tweet) (t : tweet) :
  add_new (entries acc) t = entries (merge_step acc t).
Proof.
  unfold compact, entries in *.
  unfold add_new, merge_step. rewrite map_has_entries.
  destruct (truthy_str (link t) && negb (existsb (has_link (link t)) acc)) eqn:E;
    [|reflexivity].
  apply andb_true_iff in E. destruct E as [_ E]. apply negb_true_iff in E.
  rewrite map_set_fresh by (rewrite map_has_entries; exact E).
  rewrite map_app. reflexivity.
Qed.

Lemma fold_add_new_entries (b acc : list tweet) :
  fold_left add_new b (entries acc) = entries (fold_left merge_step b acc).
Proof.
  unfold compact, entries in *.
  revert acc. induction b as [|t r IH]; intros acc; simpl; [reflexivity|].
  rewrite add_new_entries. apply IH.
Qed.

(** The code's merge is the merge of the specification, from the compacted
    running set. *)
Lemma merge_compact (ts b : list tweet) : merge ts b = merge_spec (compact ts) b.
Proof.
  unfold merge, merge_spec. fold (entries ts).
  rewrite (keyed_entries (Map_of (entries ts))) by apply Map_of_keyed.
  fold (compact ts). rewrite fold_add_new_entries.
  unfold values, entries. rewrite map_map. simpl. apply map_id.
Qed.

Lemma merge_refines (ts b : list tweet) :
  NoDup (List.map link ts) -> merge ts b = merge_spec ts b.
Proof. intros H. rewrite merge_compact, compact_id by exact H. reflexivity. Qed.

Lemma existsb_has_link l (ts : list tweet) :
  existsb (has_link l) ts = true <-> In l (List.map link ts).
Proof.
  rewrite existsb_exists, in_map_iff. unfold has_link.
  split; intros [t [H1 H2]]; exists t.
  - apply String.eqb_eq in H2. tauto.
  - rewrite String.eqb_eq. tauto.
Qed.

Lemma merge_step_NoDup acc t :
  NoDup (List.map link acc) -> NoDup (List.map link (merge_step acc t)).
Proof.
  intros H. unfold merge_step.
  destruct (truthy_str (link t) && negb (existsb (has_link (link t)) acc)) eqn:E;
    [|exact H].
  apply andb_true_iff in E. destruct E as [_ E]. apply negb_true_iff in E.
  rewrite map_app. simpl. apply NoDup_snoc; [exact H|].
  rewrite <- existsb_has_link. congruence.
Qed.

Lemma merge_spec_NoDup b acc :
  NoDup (List.map link acc) -> NoDup (List.map link (merge_spec acc b)).
Proof.
  unfold merge_spec.
  revert acc. induction b as [|t r IH]; intros acc H; simpl; [exact H|].
  apply IH. apply merge_step_NoDup. exact H.
Qed.

Lemma merge_NoDup (ts b : list tweet) : NoDup (List.map link (merge ts b)).
Proof. rewrite merge_compact. apply merge_spec_NoDup, compact_NoDup. Qed.

Lemma merge_spec_extends b acc : exists added, merge_spec acc b = (acc ++ added)%list.
Proof.
  unfold merge_spec.
  revert acc. induction b as [|t r IH]; intros acc; simpl.
  - exists []. rewrite app_nil_r. reflexivity.
  - destruct (IH (merge_step acc t)) as [added Ha].
    rewrite Ha. unfold merge_step.
    destruct (truthy_str (link t) && negb (existsb (has_link (link t)) acc)).
    + exists (t :: added). rewrite <- app_assoc. reflexivity.
    + exists added. reflexivity.
Qed.

Lemma find_app {A : Type} (f : A -> bool) (l1 l2 : list A) :
  find f (l1 ++ l2) = match find f l1 with Some x => Some x | None => find f l2 end.
Proof.
  induction l1 as [|x r IH]; simpl; [reflexivity|].
  destruct (f x); [reflexivity | exact IH].
Qed.

Lemma find_existsb {A : Type} (f : A -> bool) (l : list A) :
  existsb f l = true -> exists x, find f l = Some x.
Proof.
  induction l as [|x r IH]; simpl; [discriminate|].
  destruct (f x); [eexists; reflexivity | exact IH].
Qed.

(** First occurrence wins: looking a permalink up in the merged set gives
    what looking it up in the running set followed by the pass gives. *)
Lemma merge_spec_first l b acc :
  l <> "" ->
  find (has_link l) (merge_spec acc b) = find (has_link l) (acc ++ b).
Proof.
  unfold merge_spec.
  intros Hl. revert acc. induction b as [|t r IH]; intros acc; simpl.
  - rewrite app_nil_r. reflexivity.
  - rewrite IH. unfold merge_step.
    destruct (truthy_str (link t)) eqn:Et; simpl.
    + destruct (existsb (has_link (link t)) acc) eqn:Ex; simpl.
      * rewrite !find_app. simpl.
        destruct (find (has_link l) acc) eqn:Ef; [reflexivity|].
        destruct (has_link l t) eqn:El; [|reflexivity].
        unfold has_link in El. apply String.eqb_eq in El. subst l.
        apply find_existsb in Ex. destruct Ex as [x Hx]. congruence.
      * rewrite <- app_assoc. reflexivity.
    + rewrite !find_app. simpl.
      destruct (has_link l t) eqn:El; [|reflexivity].
      unfold has_link in El. apply String.eqb_eq in El. subst l.
      destruct (link t); [congruence | discriminate].
Qed.

Lemma merge_step_mono l acc t :
  existsb (has_link l) acc = true ->
  existsb (has_link l) (merge_step acc t) = true.
Proof.
  intros H. unfold merge_step.
  destruct (truthy_str (link t) && negb (existsb (has_link (link t)) acc));
    [|exact H].
  rewrite existsb_app, H. reflexivity.
Qed.

Lemma merge_spec_mono l b acc :
  existsb (has_link l) acc = true ->
  existsb (has_link l) (merge_spec acc b) = true.
Proof.
  unfold merge_spec.
  revert acc. induction b as [|t r IH]; intros acc H; simpl; [exact H|].
  apply IH, merge_step_mono, H.
Qed.

(** Nothing of the pass is lost: a permalink of the pass is in the merged
    set. *)
Lemma merge_spec_covers b acc t :
  In t b -> truthy_str (link t) = true ->
  existsb (has_link (link t)) (merge_spec acc b) = true.
Proof.
  unfold merge_spec.
  revert acc. induction b as [|u r IH]; intros acc [] Ht; simpl.
  - subst u. apply merge_spec_mono. unfold merge_step. rewrite Ht. simpl.
    destruct (existsb (has_link (link t)) acc) eqn:E; simpl; [exact E|].
    rewrite existsb_app. simpl. unfold has_link.
    rewrite String.eqb_refl. rewrite orb_true_r. reflexivity.
  - apply IH; assumption.
Qed.

Lemma merge_spec_absorbs b acc :
  (forall t, In t b -> truthy_str (link t) = true ->
             existsb (has_link (link t)) acc = true) ->
  merge_spec acc b = acc.
Proof.
  unfold merge_spec.
  induction b as [|u r IH]; intros H; simpl; [reflexivity|].
  assert (Hu : merge_step acc u = acc).
  { unfold merge_step. destruct (truthy_str (link u)) eqn:E; [|reflexivity].
    rewrite (H u (or_introl eq_refl) E). reflexivity. }
  rewrite Hu. apply IH. intros t Ht. apply H. right. exact Ht.
Qed.

Lemma merge_spec_idempotent b acc :
  merge_spec (merge_spec acc b) b = merge_spec acc b.
Proof. apply merge_spec_absorbs. intros t Ht Hl. apply merge_spec_covers; assumption. Qed.

Lemma merge_idempotent (ts b : list tweet) : merge (merge ts b) b = merge ts b.
Proof.
  rewrite (merge_refines (merge ts b)) by apply merge_NoDup.
  rewrite merge_compact. apply merge_spec_idempotent.
Qed.

End CollectFacts.

(** ** The page extractor *)

Module ExtractorFacts.
Import JS Dom Extractor Collect Spec.

Lemma truthy_str_nonempty s : truthy_str s = true <-> s <> "".
Proof. destruct s; simpl; split; congruence. Qed.

Lemma extract_article_emit a t :
  extract_article a = Emit t ->
  qualifies a = true /\ text t = text_of a /\ link t = link_of a
  /\ likes t = likes_of a.
Proof.
  unfold extract_article, qualifies.
  destruct (tweetText a) as [[s|]|]; try discriminate;
    destruct (profileAnchor a);
    destruct (truthy_str (text_of a) && truthy_str (link_of a));
    try discriminate; intros H; injection H as <-; simpl; auto.
Qed.

Lemma extract_article_qualifies a :
  qualifies a = true -> exists t, extract_article a = Emit t.
Proof.
  unfold extract_article, qualifies.
  destruct (tweetText a) as [[s|]|]; try discriminate;
    destruct (profileAnchor a); intros ->; eexists; reflexivity.
Qed.

Lemma extract_articles_In l t :
  In t (extract_articles l) ->
  exists a, In a l /\ extract_article a = Emit t.
Proof.
  induction l as [|a r IH]; simpl; [tauto|].
  destruct (extract_article a) as [u| |] eqn:E.
  - intros [H|H].
    + subst u. exists a. auto.
    + destruct (IH H) as [b [Hb1 Hb2]]. exists b. auto.
  - intros H. destruct (IH H) as [b [Hb1 Hb2]]. exists b. auto.
  - intros H. destruct (IH H) as [b [Hb1 Hb2]]. exists b. auto.
Qed.

(** One item for each qualifying container, in document order. *)
Lemma extract_articles_links l :
  List.map link (extract_articles l) = List.map link_of (List.filter qualifies l).
Proof.
  induction l as [|a r IH]; simpl; [reflexivity|].
  destruct (extract_article a) as [u| |] eqn:E.
  - destruct (extract_article_emit a u E) as [Hq [_ [Hl _]]].
    rewrite Hq. simpl. rewrite Hl, IH. reflexivity.
  - destruct (qualifies a) eqn:Hq; [|exact IH].
    destruct (extract_article_qualifies a Hq) as [t Ht]. congruence.
  - destruct (qualifies a) eqn:Hq; [|exact IH].
    destruct (extract_article_qualifies a Hq) as [t Ht]. congruence.
Qed.

(** C8.  Every item of a pass has a non-empty body text and a non-empty
    permalink, and a container whose body text is empty or that has no
    status link gives no item. *)
Theorem extractor_requires_text_and_link (d : document) :
  (forall t, In t (extractTweetsFromPage d) -> text t <> "" /\ link t <> "") /\
  (forall a, In a (articles d) ->
     text_of a = "" \/ statusAnchor a = None ->
     forall t, extract_article a <> Emit t).
Proof.
  split.
  - intros t Ht. apply extract_articles_In in Ht.
    destruct Ht as [a [_ Ha]].
    destruct (extract_article_emit a t Ha) as [Hq [Ht [Hl _]]].
    unfold qualifies in Hq.
    assert (Hb : truthy_str (text_of a) && truthy_str (link_of a) = true)
      by (destruct (tweetText a) as [[s|]|]; [exact Hq | discriminate | exact Hq]).
    apply andb_true_iff in Hb. destruct Hb as [H1 H2].
    rewrite Ht, Hl. split; apply truthy_str_nonempty; assumption.
  - intros a _ Hlack t Ha.
    destruct (extract_article_emit a t Ha) as [Hq _].
    unfold qualifies in Hq.
    assert (Hb : truthy_str (text_of a) && truthy_str (link_of a) = true)
      by (destruct (tweetText a) as [[s|]|]; [exact Hq | discriminate | exact Hq]).
    apply andb_true_iff in Hb. destruct Hb as [H1 H2].
    destruct Hlack as [H|H].
    + rewrite H in H1. discriminate.
    + unfold link_of in H2. rewrite H in H2. discriminate.
Qed.

Lemma extractor_requires_text_and_link_witness :
  (text_of Samples.no_text = "" /\
   forall t, extract_article Samples.no_text <> Emit t) /\
  (statusAnchor Samples.no_link = None /\
   forall t, extract_article Samples.no_link <> Emit t) /\
  (forall t, In t (extractTweetsFromPage Samples.twice) ->
     text t <> "" /\ link t <> "").
Proof.
  split; [|split].
  - split; [reflexivity|].
    apply (proj2 (extractor_requires_text_and_link
                    (Samples.page_of [Samples.no_text; Samples.no_link]))).
    + left. reflexivity.
    + left. reflexivity.
  - split; [reflexivity|].
    apply (proj2 (extractor_requires_text_and_link
                    (Samples.page_of [Samples.no_text; Samples.no_link]))).
    + right. left. reflexivity.
    + right. reflexivity.
  - exact (proj1 (extractor_requires_text_and_link Samples.twice)).
Defined.

(** The claim of C7 as it is worded: no two items of a pass share a
    permalink.  It fails on a page that shows a post in two containers. *)
Lemma extractor_pass_repeats_permalink :
  ~ NoDup (List.map link (extractTweetsFromPage Samples.twice)).
Proof.
  intros H. inversion H as [|x l Hx _]. subst. apply Hx. left. reflexivity.
Qed.

(** C7, amended.  A pass emits one item for each container that has body
    text and a permalink and does not throw, in document order and with its
    permalink: nothing is deduplicated inside a pass.  The merge of the pass
    into the running set is where a repeated permalink is dropped. *)
Theorem extractor_pass_one_item_per_container (d : document) :
  List.map link (extractTweetsFromPage d)
  = List.map link_of (List.filter qualifies (articles d))
  /\ (forall running,
        NoDup (List.map link (merge running (extractTweetsFromPage d)))).
Proof.
  split.
  - apply extract_articles_links.
  - intros running. apply CollectFacts.merge_NoDup.
Qed.

(** *** The like count *)

Lemma digit_char c :
  is_digit c = true ->
  is_space c = false /\ c <> "-"%char /\ c <> "+"%char /\ 0 <= digit_val c.
Proof.
  destruct c as [[] [] [] [] [] [] [] []]; cbv; intros H; try discriminate H;
    repeat split; intros; discriminate.
Qed.

Lemma digits_val_nonneg s acc :
  str_forall is_digit s = true -> 0 <= acc -> 0 <= digits_val acc s.
Proof.
  revert acc. induction s as [|c r IH]; intros acc Hs Ha; cbn [digits_val];
    [exact Ha|].
  cbn [str_forall] in Hs. apply andb_true_iff in Hs. destruct Hs as [Hc Hr].
  apply IH; [exact Hr|]. destruct (digit_char c Hc) as [_ [_ [_ Hd]]]. lia.
Qed.

Lemma take_while_all f s : str_forall f s = true -> take_while f s = s.
Proof.
  induction s as [|c r IH]; simpl; [reflexivity|].
  intros H. apply andb_true_iff in H. destruct H as [Hc Hr].
  rewrite Hc, (IH Hr). reflexivity.
Qed.

(** [parseInt] on a string of digits: [NaN] when it is empty, its value
    otherwise. *)
Lemma parseInt_digits s :
  str_forall is_digit s = true ->
  parseInt s = match s with
               | EmptyString => NaN
               | _ => Num (digits_val 0 s)
               end.
Proof.
  destruct s as [|c r]; [reflexivity|].
  intros H. pose proof (take_while_all is_digit _ H) as Ht.
  simpl in H. apply andb_true_iff in H. destruct H as [Hc Hr].
  destruct (digit_char c Hc) as [Hs [Hm [Hp _]]].
  unfold parseInt. simpl drop_while. rewrite Hs.
  assert (E : match String c r with
              | String "-" r0 => (true, r0)
              | String "+" r0 => (false, r0)
              | _ => (false, String c r)
              end = (false, String c r)).
  { destruct c as [[] [] [] [] [] [] [] []]; try reflexivity;
      exfalso; [apply Hp | apply Hm]; reflexivity. }
  rewrite E. rewrite Ht. reflexivity.
Qed.

Lemma filter_commas_digits s :
  str_forall is_digit_or_comma s = true ->
  str_forall is_digit (str_filter (fun c => negb (Ascii.eqb c ",")) s) = true.
Proof.
  induction s as [|c r IH]; simpl; [reflexivity|].
  intros H. apply andb_true_iff in H. destruct H as [Hc Hr].
  unfold is_digit_or_comma in Hc.
  destruct (Ascii.eqb c ","); simpl; [exact (IH Hr)|].
  rewrite orb_false_r in Hc. rewrite Hc. exact (IH Hr).
Qed.

Lemma take_while_forall f s : str_forall f (take_while f s) = true.
Proof.
  induction s as [|c r IH]; simpl; [reflexivity|].
  destruct (f c) eqn:E; simpl; [rewrite E; exact IH | reflexivity].
Qed.

(** The like count is never negative; it is a number unless the first run
    of digits and commas holds commas only. *)
Lemma likes_of_nonneg a n : likes_of a = Num n -> 0 <= n.
Proof.
  unfold likes_of. destruct (like a) as [b|].
  - destruct (match_digits _) as [m|] eqn:Em.
    + assert (Hm : str_forall is_digit_or_comma m = true).
      { unfold match_digits in Em.
        destruct (drop_while _ _) as [|c r] eqn:Ed; [discriminate|].
        injection Em as Em. rewrite <- Em.
        apply (take_while_forall is_digit_or_comma (String c r)). }
      apply filter_commas_digits in Hm.
      rewrite (parseInt_digits _ Hm).
      destruct (str_filter _ m) eqn:Ef; [discriminate|].
      intros H. injection H as <-.
      apply (digits_val_nonneg (String _ _) 0 Hm). lia.
    + intros H. injection H as <-. lia.
  - intros H. injection H as <-. lia.
Qed.

(** C9, at the failing input.  The like control of the post is named
    ["Like, 12 likes"]: the first run of digits and commas is [","], nothing
    is left once the comma is removed, and the item is emitted with a like
    count that is [NaN], not 0. *)
Theorem extractor_like_count_comma :
  match_digits "Like, 12 likes" = Some ","
  /\ likes_of Samples.comma_like = NaN
  /\ List.map likes (extractTweetsFromPage (Samples.page_of [Samples.comma_like]))
     = [NaN].
Proof. repeat split. Qed.

End ExtractorFacts.

(** ** The collection loop *)

Module LoopFacts.
Import JS Dom Extractor Collect Scrape Spec.

Section Loop.

Variable budget : number.
Variable E : env.
Variable maxTweets : number.

Lemma catch_await {A : Type} (ev : event) (o : outcome A) (h : A) (tr : trace) :
  catch (await ev o) h tr
  = (Val (match o with Resolves a => a | Rejects _ => h end), (tr ++ [ev])%list).
Proof. unfold catch, await. destruct o; reflexivity. Qed.

(** The loop does not enter an iteration when its guard fails. *)
Lemma collect_exit fuel i st tr :
  lt (Num (len (tweets st))) maxTweets
  && lt (Num (scrollAttempts st)) budget = false ->
  collect budget E maxTweets fuel i st tr = (Val st, tr).
Proof. intros H. destruct fuel; cbn [collect]; rewrite H; reflexivity. Qed.

(** One iteration. *)
Lemma collect_step fuel i st tr :
  lt (Num (len (tweets st))) maxTweets
  && lt (Num (scrollAttempts st)) budget = true ->
  collect budget E maxTweets (S fuel) i st tr
  = match loop_page E i with
    | Rejects msg => (Exc (Rejected msg), (tr ++ [EvExtract i])%list)
    | Resolves d =>
        let tws := merge (tweets st) (extractTweetsFromPage d) in
        if ge (Num (len tws)) maxTweets
        then (Val {| tweets := tws; scrollAttempts := scrollAttempts st;
                     lastHeight := lastHeight st |},
              (tr ++ [EvExtract i])%list)
        else collect budget E maxTweets fuel (S i)
               (measure st tws (height E i))
               (tr ++ [EvExtract i; EvScrollHeight i; EvScrollBy i; EvSleep i])%list
    end.
Proof.
  intros H. cbn [collect]. rewrite H. unfold bind at 1. unfold await at 1.
  destruct (loop_page E i) as [d|msg]; [|reflexivity].
  cbv zeta.
  destruct (ge (Num (len (merge (tweets st) (extractTweetsFromPage d)))) maxTweets);
    [reflexivity|].
  unfold bind at 1. rewrite catch_await.
  unfold bind at 1. rewrite catch_await.
  unfold bind at 1. unfold await at 1.
  unfold height. rewrite <- !app_assoc. reflexivity.
Qed.

Lemma collect_out_of_fuel i st tr :
  lt (Num (len (tweets st))) maxTweets
  && lt (Num (scrollAttempts st)) budget = true ->
  collect budget E maxTweets 0 i st tr = (Diverge, tr).
Proof. intros H. cbn [collect]. rewrite H. reflexivity. Qed.

(** The reply of the loop does not depend on the trace it starts from, and
    the loop only appends to it. *)
Lemma collect_trace fuel : forall i st tr,
  collect budget E maxTweets fuel i st tr
  = (fst (collect budget E maxTweets fuel i st []),
     (tr ++ snd (collect budget E maxTweets fuel i st []))%list).
Proof.
  induction fuel as [|f IH]; intros i st tr;
    destruct (lt (Num (len (tweets st))) maxTweets
              && lt (Num (scrollAttempts st)) budget) eqn:G.
  - rewrite !collect_out_of_fuel by exact G. simpl. rewrite app_nil_r. reflexivity.
  - rewrite !collect_exit by exact G. simpl. rewrite app_nil_r. reflexivity.
  - rewrite !collect_step by exact G.
    destruct (loop_page E i) as [d|msg]; [|reflexivity].
    cbv zeta.
    destruct (ge _ maxTweets); [reflexivity|].
    rewrite (IH _ _ (tr ++ _)%list). rewrite (IH _ _ ([] ++ _)%list).
    simpl. rewrite <- app_assoc. reflexivity.
  - rewrite !collect_exit by exact G. simpl. rewrite app_nil_r. reflexivity.
Qed.

Lemma state_at_step k d :
  loop_page E k = Resolves d ->
  measure (state_at E k)
    (merge (tweets (state_at E k)) (extractTweetsFromPage d)) (height E k)
  = state_at E (S k).
Proof. intros H. simpl. unfold batch. rewrite H. reflexivity. Qed.

(** What a normal return of the loop tells: the iterations before the last
    ran whole, and the loop left at the guard or by the [break]. *)
Lemma collect_inv fuel : forall i tr st' tr',
  collect budget E maxTweets fuel i (state_at E i) tr = (Val st', tr') ->
  exists n, (i <= n)%nat /\
    (forall k, (i <= k < n)%nat -> runs_whole budget E maxTweets k) /\
    ((st' = state_at E n /\
      lt (Num (len (tweets st'))) maxTweets
      && lt (Num (scrollAttempts st')) budget = false)
     \/
     (lt (Num (len (tweets (state_at E n)))) maxTweets
      && lt (Num (scrollAttempts (state_at E n))) budget = true /\
      st' = broken_at E n /\
      ge (Num (len (tweets st'))) maxTweets = true)).
Proof.
  induction fuel as [|f IH]; intros i tr st' tr' H;
    destruct (lt (Num (len (tweets (state_at E i)))) maxTweets
              && lt (Num (scrollAttempts (state_at E i))) budget) eqn:G.
  - rewrite collect_out_of_fuel in H by exact G. discriminate.
  - rewrite collect_exit in H by exact G. injection H as <- <-.
    exists i. split; [lia|]. split; [intros k Hk; lia|]. left. auto.
  - rewrite collect_step in H by exact G.
    destruct (loop_page E i) as [d|msg] eqn:P; [|discriminate].
    cbv zeta in H.
    destruct (ge _ maxTweets) eqn:B.
    + injection H as <- <-. exists i. split; [lia|].
      split; [intros k Hk; lia|]. right.
      unfold broken_at, batch. rewrite P. cbn [tweets]. auto.
    + rewrite (state_at_step i d P) in H. apply IH in H.
      destruct H as [n [Hn [Hw Hend]]]. exists n. split; [lia|]. split; [|exact Hend].
      intros k Hk. destruct (Nat.eq_dec k i) as [->|Hne].
      * apply andb_true_iff in G. destruct G as [G1 G2].
        unfold runs_whole. repeat split; auto.
        -- exists d. exact P.
        -- unfold broken_at, batch. rewrite P. exact B.
      * apply Hw. lia.
  - rewrite collect_exit in H by exact G. injection H as <- <-.
    exists i. split; [lia|]. split; [intros k Hk; lia|]. left. auto.
Qed.

(** Iterations that run whole are run. *)
Lemma collect_forward n : forall fuel i tr,
  (forall k, (i <= k < i + n)%nat -> runs_whole budget E maxTweets k) ->
  exists tr1,
    collect budget E maxTweets (n + fuel) i (state_at E i) tr
    = collect budget E maxTweets fuel (i + n) (state_at E (i + n)) tr1.
Proof.
  induction n as [|n IH]; intros fuel i tr Hw.
  - exists tr. rewrite Nat.add_0_r. reflexivity.
  - destruct (Hw i ltac:(lia)) as [G1 [G2 [[d P] B]]].
    cbn [Nat.add]. rewrite collect_step by (rewrite G1, G2; reflexivity).
    rewrite P. cbv zeta.
    unfold broken_at, batch in B. rewrite P in B. cbn [tweets] in B. rewrite B.
    rewrite (state_at_step i d P).
    destruct (IH fuel (S i) (tr ++ [EvExtract i; EvScrollHeight i; EvScrollBy i;
                                    EvSleep i])%list) as [tr1 Htr1].
    + intros k Hk. apply Hw. lia.
    + exists tr1. rewrite Htr1. replace (S i + n)%nat with (i + S n)%nat by lia.
      reflexivity.
Qed.

(** *** The stagnation counter *)

Lemma lastHeight_state_at n : lastHeight (state_at E n) = prev_height E n.
Proof.
  destruct n as [|k]; [reflexivity|]. simpl. unfold measure.
  destruct (height E k =? lastHeight (state_at E k)) eqn:H; simpl;
    [|reflexivity].
  apply Z.eqb_eq in H. symmetry. exact H.
Qed.

Lemma scrollAttempts_state_at n :
  scrollAttempts (state_at E n) = Z.of_nat (trailing (stagnant E) n).
Proof.
  induction n as [|k IH]; [reflexivity|].
  cbn [state_at trailing]. unfold measure. unfold stagnant at 1.
  rewrite lastHeight_state_at.
  destruct (height E k =? prev_height E k); cbn [scrollAttempts]; lia.
Qed.

(** *** What the loop holds *)

Lemma seen_S n : seen E (S n) = (seen E n ++ batch E n)%list.
Proof.
  unfold seen. rewrite seq_S, flat_map_app. simpl. rewrite app_nil_r. reflexivity.
Qed.

Lemma tweets_state_at n :
  NoDup (List.map link (tweets (state_at E n))) /\
  tweets (state_at E n) = merge_spec [] (seen E n).
Proof.
  induction n as [|k [IH1 IH2]].
  - split; [constructor | reflexivity].
  - assert (Ht : tweets (state_at E (S k))
                 = merge (tweets (state_at E k)) (batch E k)).
    { simpl. unfold measure. destruct (_ =? _); reflexivity. }
    rewrite Ht. split; [apply CollectFacts.merge_NoDup|].
    rewrite CollectFacts.merge_refines by exact IH1.
    rewrite IH2, seen_S. unfold merge_spec. rewrite fold_left_app. reflexivity.
Qed.

Lemma tweets_broken_at n :
  NoDup (List.map link (tweets (broken_at E n))) /\
  tweets (broken_at E n) = merge_spec [] (seen E (S n)).
Proof.
  destruct (tweets_state_at n) as [H1 H2]. unfold broken_at. cbn [tweets].
  split; [apply CollectFacts.merge_NoDup|].
  rewrite CollectFacts.merge_refines by exact H1.
  rewrite H2, seen_S. unfold merge_spec. rewrite fold_left_app. reflexivity.
Qed.

(** *** Termination when the page stops growing *)

Lemma measure_attempts_nonneg st tws h :
  0 <= scrollAttempts st -> 0 <= scrollAttempts (measure st tws h).
Proof. unfold measure. destruct (h =? lastHeight st); simpl; lia. Qed.

Lemma measure_lastHeight st tws h : lastHeight (measure st tws h) = h.
Proof.
  unfold measure. destruct (h =? lastHeight st) eqn:H; simpl; [|reflexivity].
  apply Z.eqb_eq in H. symmetry. exact H.
Qed.

Hypothesis pages_resolve : forall k, exists d, loop_page E k = Resolves d.

Lemma collect_stagnant_returns (b : Z) : budget = Num b ->
  forall fuel i st tr,
    (forall k, (i <= k)%nat -> height E k = lastHeight st) ->
    (Z.to_nat (b - scrollAttempts st) <= fuel)%nat ->
    exists st' tr', collect budget E maxTweets fuel i st tr = (Val st', tr').
Proof.
  intros Hb. induction fuel as [|f IH]; intros i st tr Hh Hf;
    destruct (lt (Num (len (tweets st))) maxTweets
              && lt (Num (scrollAttempts st)) budget) eqn:G;
    try (rewrite collect_exit by exact G; eauto; fail).
  - exfalso. apply andb_true_iff in G. destruct G as [_ G].
    rewrite Hb in G. simpl in G. apply Z.ltb_lt in G. lia.
  - rewrite collect_step by exact G.
    destruct (pages_resolve i) as [d P]. rewrite P. cbv zeta.
    destruct (ge _ maxTweets); [eauto|].
    apply andb_true_iff in G. destruct G as [_ G].
    rewrite Hb in G. simpl in G. apply Z.ltb_lt in G.
    apply IH.
    + intros k Hk. rewrite measure_lastHeight. rewrite !Hh by lia. reflexivity.
    + unfold measure. rewrite (Hh i) by lia. rewrite Z.eqb_refl. simpl. lia.
Qed.

Lemma collect_returns_from (b : Z) (i0 : nat) (h : Z) : budget = Num b ->
  (forall k, (i0 <= k)%nat -> height E k = h) ->
  forall d fuel i st tr,
    (i + d = i0 + 1)%nat ->
    (d + Z.to_nat b <= fuel)%nat ->
    0 <= scrollAttempts st ->
    (d = O -> lastHeight st = h) ->
    exists st' tr', collect budget E maxTweets fuel i st tr = (Val st', tr').
Proof.
  intros Hb Hh. induction d as [|d IH]; intros fuel i st tr Hi Hf Ha Hl.
  - apply (collect_stagnant_returns b Hb).
    + intros k Hk. rewrite Hl by reflexivity. apply Hh. lia.
    + lia.
  - destruct (lt (Num (len (tweets st))) maxTweets
              && lt (Num (scrollAttempts st)) budget) eqn:G;
      [|rewrite collect_exit by exact G; eauto].
    destruct fuel as [|f]; [lia|].
    rewrite collect_step by exact G.
    destruct (pages_resolve i) as [p P]. rewrite P. cbv zeta.
    destruct (ge _ maxTweets); [eauto|].
    apply IH; [lia | lia | apply measure_attempts_nonneg; exact Ha |].
    intros ->. rewrite measure_lastHeight. apply Hh. lia.
Qed.

(** When every extraction resolves and the measured height is the same from
    iteration [i0] on, the loop returns within [i0 + 1 + budget]
    iterations. *)
Lemma collect_returns_when_stagnant (b : Z) (i0 : nat) (h : Z) :
  budget = Num b ->
  (forall k, (i0 <= k)%nat -> height E k = h) ->
  forall fuel tr,
    (i0 + 1 + Z.to_nat b <= fuel)%nat ->
    exists st' tr',
      collect budget E maxTweets fuel 0 loop_init tr = (Val st', tr').
Proof.
  intros Hb Hh fuel tr Hf.
  apply (collect_returns_from b i0 h Hb Hh (i0 + 1)); simpl; try lia.
Qed.

End Loop.

(** The loop leaves by the [break] of iteration [n] when the iterations
    before ran whole, the guard holds, the extraction resolves and the
    merged set reaches [maxTweets]. *)
Lemma collect_breaks (budget : number) (E : env) (maxTweets : number)
  (n fuel : nat) (tr : trace) :
  (forall k, (k < n)%nat -> runs_whole budget E maxTweets k) ->
  lt (Num (len (tweets (state_at E n)))) maxTweets
  && lt (Num (scrollAttempts (state_at E n))) budget = true ->
  (exists d, loop_page E n = Resolves d) ->
  ge (Num (len (tweets (broken_at E n)))) maxTweets = true ->
  (n < fuel)%nat ->
  exists tr',
    collect budget E maxTweets fuel 0 loop_init tr = (Val (broken_at E n), tr').
Proof.
  intros Hw G [d P] B Hf.
  destruct (collect_forward budget E maxTweets n (fuel - n) 0 tr) as [tr1 H1].
  - intros k Hk. apply Hw. lia.
  - replace (n + (fuel - n))%nat with fuel in H1 by lia.
    change loop_init with (state_at E 0). rewrite H1. simpl Nat.add.
    destruct (fuel - n)%nat as [|f] eqn:Ef; [lia|].
    rewrite collect_step by exact G. rewrite P. cbv zeta.
    unfold broken_at, batch in B |- *. rewrite P in B |- *.
    cbn [tweets] in B. rewrite B. eexists. reflexivity.
Qed.

(** C6.  With budget [b] and maximum [m]: the counter of the loop is the
    number of stagnant iterations just before the current one (it restarts
    from zero when a height differs from the one before); when the loop
    returns, the collected count is at least [m] or the counter at least
    [b], and every iteration it entered started with fewer than [m] items
    and a counter below [b]; the loop does return at either condition: as
    soon as, after [n] whole iterations, the count is at least [m] or the
    counter at least [b], it returns the state of that moment, whatever the
    count, as a value and not as an error, and as soon as the set merged in
    iteration [n] reaches [m] it returns that set from the [break]; and
    when every extraction resolves and the measured height stays the same
    from some iteration on, the loop returns. *)
Theorem collection_loop_stops (b m : Z) (E : env) :
  (forall n, scrollAttempts (state_at E n) = Z.of_nat (trailing (stagnant E) n)) /\
  (forall fuel tr st' tr',
     collect (Num b) E (Num m) fuel 0 loop_init tr = (Val st', tr') ->
     (m <= len (tweets st') \/ b <= scrollAttempts st') /\
     exists n,
       (forall k, (k < n)%nat ->
          len (tweets (state_at E k)) < m /\ scrollAttempts (state_at E k) < b) /\
       (st' = state_at E n \/ exists j, n = S j /\ st' = broken_at E j)) /\
  (forall n fuel tr,
     (forall k, (k < n)%nat -> runs_whole (Num b) E (Num m) k) ->
     m <= len (tweets (state_at E n)) \/ b <= scrollAttempts (state_at E n) ->
     (n <= fuel)%nat ->
     exists tr',
       collect (Num b) E (Num m) fuel 0 loop_init tr = (Val (state_at E n), tr')) /\
  (forall n fuel tr,
     (forall k, (k < n)%nat -> runs_whole (Num b) E (Num m) k) ->
     len (tweets (state_at E n)) < m ->
     scrollAttempts (state_at E n) < b ->
     (exists d, loop_page E n = Resolves d) ->
     m <= len (tweets (broken_at E n)) ->
     (n < fuel)%nat ->
     exists tr',
       collect (Num b) E (Num m) fuel 0 loop_init tr = (Val (broken_at E n), tr')) /\
  (forall i0 h fuel tr,
     (forall k, exists d, loop_page E k = Resolves d) ->
     (forall k, (i0 <= k)%nat -> height E k = h) ->
     (i0 + 1 + Z.to_nat b <= fuel)%nat ->
     exists st' tr',
       collect (Num b) E (Num m) fuel 0 loop_init tr = (Val st', tr')).
Proof.
  split; [|split; [|split; [|split]]].
  - apply scrollAttempts_state_at.
  - intros fuel tr st' tr' H.
    apply (collect_inv (Num b) E (Num m) fuel 0) in H.
    destruct H as [n [_ [Hw Hend]]].
    assert (Hguard : forall k, (k < n)%nat ->
              len (tweets (state_at E k)) < m /\ scrollAttempts (state_at E k) < b).
    { intros k Hk. destruct (Hw k ltac:(lia)) as [G1 [G2 _]].
      simpl in G1, G2. apply Z.ltb_lt in G1, G2. auto. }
    destruct Hend as [[-> G]|[G [-> B]]].
    + split.
      * simpl in G. apply andb_false_iff in G.
        destruct G as [G|G]; apply Z.ltb_ge in G; auto.
      * exists n. split; [exact Hguard | left; reflexivity].
    + split.
      * unfold ge in B. apply Z.geb_le in B. left. exact B.
      * exists (S n). split; [|right; exists n; auto].
        intros k Hk. destruct (Nat.eq_dec k n) as [->|Hne]; [|apply Hguard; lia].
        simpl in G. apply andb_true_iff in G. destruct G as [G1 G2].
        apply Z.ltb_lt in G1, G2. auto.
  - intros n fuel tr Hw Hstop Hf.
    destruct (collect_forward (Num b) E (Num m) n (fuel - n) 0 tr) as [tr1 H1].
    + intros k Hk. apply Hw. lia.
    + replace (n + (fuel - n))%nat with fuel in H1 by lia.
      exists tr1. change loop_init with (state_at E 0). rewrite H1.
      simpl Nat.add. apply collect_exit.
      apply andb_false_iff. unfold lt.
      destruct Hstop as [Hm|Hb]; [left | right]; apply Z.ltb_ge; assumption.
  - intros n fuel tr Hw Hm Hb Hp Hbreak Hf.
    apply collect_breaks; try assumption.
    + unfold lt. apply andb_true_iff. split; apply Z.ltb_lt; assumption.
    + unfold ge. apply Z.geb_le. exact Hbreak.
  - intros i0 h fuel tr Hp Hh Hf.
    exact (collect_returns_when_stagnant (Num b) E (Num m) Hp b i0 h eq_refl Hh
             fuel tr Hf).
Qed.

Lemma collection_loop_stops_witness :
  (10 <= len (tweets (state_at Samples.still 3))
   \/ 2 <= scrollAttempts (state_at Samples.still 3)) /\
  (exists tr',
     collect (Num 2) Samples.still (Num 10) 5 0 loop_init []
     = (Val (state_at Samples.still 3), tr')) /\
  (exists tr',
     collect (Num 2) Samples.still (Num 1) 5 0 loop_init []
     = (Val (broken_at Samples.still 0), tr')) /\
  (exists st' tr',
     collect (Num 2) Samples.still (Num 10) 5 0 loop_init [] = (Val st', tr')).
Proof.
  destruct (collection_loop_stops 2 10 Samples.still)
    as [_ [Hexit [Hbudget [_ Hstill]]]].
  destruct (collection_loop_stops 2 1 Samples.still)
    as [_ [_ [_ [Hbreak _]]]].
  split; [|split; [|split]].
  - apply (Hexit 5%nat [] (state_at Samples.still 3)
             (snd (collect (Num 2) Samples.still (Num 10) 5 0 loop_init []))).
    vm_compute. reflexivity.
  - apply (Hbudget 3%nat 5%nat []).
    + intros k Hk.
      destruct k as [|[|[|k]]]; [| | |lia];
        (split; [reflexivity|]; split; [reflexivity|];
         split; [eexists; reflexivity | reflexivity]).
    + right. vm_compute. discriminate.
    + lia.
  - apply (Hbreak 0%nat 5%nat []).
    + intros k Hk. lia.
    + vm_compute. reflexivity.
    + vm_compute. reflexivity.
    + eexists. reflexivity.
    + vm_compute. discriminate.
    + lia.
  - apply (Hstill 0%nat 900 5%nat []).
    + intros k. eexists. reflexivity.
    + intros k _. reflexivity.
    + vm_compute. lia.
Defined.

(** C1.  The merge never yields two items with one permalink and merging a
    pass twice is merging it once; into a running set with distinct
    permalinks the merge only appends, and a permalink is looked up in the
    merged set as it is in the running set followed by the pass: the first
    occurrence is the one kept; and the set a run of the loop returns has
    distinct permalinks, each item being the first one with its permalink in
    the passes seen. *)
Theorem collected_unique_first_wins (budget : number) (E : env) :
  (forall ts b,
     NoDup (List.map link (merge ts b))
     /\ merge (merge ts b) b = merge ts b) /\
  (forall ts b,
     NoDup (List.map link ts) ->
     (exists added, merge ts b = (ts ++ added)%list) /\
     (forall l, l <> "" ->
        find (has_link l) (merge ts b) = find (has_link l) (ts ++ b)%list)) /\
  (forall maxTweets fuel tr st' tr',
     collect budget E maxTweets fuel 0 loop_init tr = (Val st', tr') ->
     NoDup (List.map link (tweets st')) /\
     exists n, forall l, l <> "" ->
       find (has_link l) (tweets st') = find (has_link l) (seen E n)).
Proof.
  split; [|split].
  - intros ts b. split;
      [apply CollectFacts.merge_NoDup | apply CollectFacts.merge_idempotent].
  - intros ts b H. rewrite (CollectFacts.merge_refines ts b H). split.
    + apply CollectFacts.merge_spec_extends.
    + intros l Hl. apply CollectFacts.merge_spec_first. exact Hl.
  - intros maxTweets fuel tr st' tr' H.
    apply (collect_inv budget E maxTweets fuel 0) in H.
    destruct H as [n [_ [_ [[-> _]|[_ [-> _]]]]]].
    + destruct (tweets_state_at E n) as [H1 H2]. split; [exact H1|].
      exists n. intros l Hl. rewrite H2.
      apply (CollectFacts.merge_spec_first l (seen E n) [] Hl).
    + destruct (tweets_broken_at E n) as [H1 H2]. split; [exact H1|].
      exists (S n). intros l Hl. rewrite H2.
      apply (CollectFacts.merge_spec_first l (seen E (S n)) [] Hl).
Qed.

Lemma collected_unique_first_wins_witness :
  find (has_link "https://twitter.com/alice/status/1")
       (merge [Samples.extracted "hello" None] [Samples.extracted "later" None])
  = Some (Samples.extracted "hello" None) /\
  exists st' tr',
    collect (Num 2) Samples.echo (Num 10) 5 0 loop_init [] = (Val st', tr')
    /\ NoDup (List.map link (tweets st')).
Proof.
  destruct (collected_unique_first_wins (Num 2) Samples.echo)
    as [_ [Hfirst Hrun]].
  split.
  - destruct (Hfirst [Samples.extracted "hello" None]
                     [Samples.extracted "later" None]) as [_ Hfind].
    + constructor; [simpl; tauto | constructor].
    + rewrite (Hfind "https://twitter.com/alice/status/1");
        [reflexivity | discriminate].
  - eexists. eexists. split; [vm_compute; reflexivity|].
    refine (proj1 (Hrun (Num 10) 5%nat [] _ _ _)).
    vm_compute. reflexivity.
Defined.

End LoopFacts.

(** ** The scrape run *)

Module RunFacts.
Import JS Dom Extractor Collect Scrape Spec.

(** From [(r0, tr0) = (r, tr)], replace [r] and [tr]. *)
Ltac split_reply H :=
  let Hf := fresh in
  let Hs := fresh in
  pose proof (f_equal fst H) as Hf;
  pose proof (f_equal snd H) as Hs;
  cbn [fst snd] in Hf, Hs; clear H;
  try subst.

Section Run.

Variable budget : number.
Variable Date_parse : string -> option Z.
Variable toISOString : Z -> string.
Variable E : env.

Local Notation "'run'" := (scrapeTweetsForQuery budget Date_parse toISOString E).
Local Notation "'finishing'" := (collect_and_finish budget Date_parse toISOString E).

(** The run up to the logged-in check. *)
Lemma run_at_landing fuel query maxTweets cookieArray home :
  reaches_landing E home ->
  run fuel query maxTweets cookieArray []
  = if negb (Validator.loggedIn home)
    then (Exc (LOGIN_REQUIRED msg_login),
          (landing_events cookieArray ++ [EvDebugFiles; EvClose])%list)
    else
      match search_page E with
      | Rejects msg =>
          (Exc (Rejected msg), search_events query cookieArray)
      | Resolves d0 =>
          if Validator.isBlockedOrLoginPage d0 && no_cookies cookieArray
          then (Exc (LOGIN_REQUIRED msg_blocked),
                (search_events query cookieArray ++ [EvClose])%list)
          else finishing fuel maxTweets cookieArray
                 (search_events query cookieArray ++ [EvWaitForSelector])%list
      end.
Proof.
  intros [H1 [H2 [H3 [H4 H5]]]].
  unfold scrapeTweetsForQuery, search_events, landing_events.
  unfold bind at 1. unfold await at 1. rewrite H1.
  unfold bind at 1. unfold await at 1. rewrite H2.
  unfold bind at 1. unfold await at 1. rewrite H3.
  unfold bind at 1.
  assert (Hc : forall tr,
    (match cookieArray with
     | Some cs =>
         if negb (len cs =? 0)
         then catch (await (EvSetCookie (List.map normalize_cookie cs))
                       (setCookie E)) tt
         else ret tt
     | None => ret tt
     end) tr
    = (Val tt,
       (tr ++ match cookieArray with
              | Some cs =>
                  if negb (len cs =? 0)
                  then [EvSetCookie (List.map normalize_cookie cs)]
                  else []
              | None => []
              end)%list)).
  { intros tr. destruct cookieArray as [cs|].
    - destruct (negb (len cs =? 0)).
      + rewrite LoopFacts.catch_await. destruct (setCookie E) as [[]|]; reflexivity.
      + unfold ret. rewrite app_nil_r. reflexivity.
    - unfold ret. rewrite app_nil_r. reflexivity. }
  rewrite Hc.
  unfold bind at 1. rewrite LoopFacts.catch_await.
  unfold bind at 1. unfold await at 1. rewrite H4.
  unfold bind at 1. unfold await at 1. rewrite H5.
  destruct (negb (Validator.loggedIn home)).
  - unfold bind at 1. rewrite LoopFacts.catch_await.
    unfold bind, await, throw. simpl. rewrite <- !app_assoc. reflexivity.
  - unfold bind at 1. rewrite LoopFacts.catch_await.
    unfold bind at 1. unfold await at 1.
    destruct (search_page E) as [d0|msg].
    + destruct (Validator.isBlockedOrLoginPage d0 && no_cookies cookieArray).
      * unfold bind, await, throw. simpl. rewrite <- !app_assoc. reflexivity.
      * unfold bind at 1. rewrite LoopFacts.catch_await.
        simpl. rewrite <- !app_assoc. reflexivity.
    + simpl. rewrite <- !app_assoc. reflexivity.
Qed.

(** Either the landing check is reached, or an operation before it is
    rejected: the run ends with that error, and does not close the
    session. *)
Lemma run_reaches_landing_or_rejected fuel query maxTweets cookieArray :
  (exists home, reaches_landing E home) \/
  (exists msg tr,
     run fuel query maxTweets cookieArray [] = (Exc (Rejected msg), tr)
     /\ closed tr = false).
Proof.
  unfold reaches_landing, scrapeTweetsForQuery.
  destruct (launch E) as [[]|m1];
    [|right; unfold bind at 1; unfold await at 1;
      eexists; eexists; split; reflexivity].
  destruct (newPage E) as [[]|m2];
    [|right; unfold bind at 1; unfold await at 1;
      unfold bind at 1; unfold await at 1;
      eexists; eexists; split; reflexivity].
  destruct (page_setup E) as [[]|m3];
    [|right; do 3 (unfold bind at 1; unfold await at 1);
      eexists; eexists; split; reflexivity].
  destruct (waitForTimeout E) as [[]|m4].
  - destruct (landing_page E) as [home|m5]; [left; exists home; auto 6|].
    right. do 3 (unfold bind at 1; unfold await at 1). unfold bind at 1.
    destruct cookieArray as [cs|]; [destruct (negb (len cs =? 0))|];
      try rewrite LoopFacts.catch_await; unfold ret;
      unfold bind at 1; rewrite LoopFacts.catch_await;
      unfold bind at 1; unfold await at 1;
      unfold bind at 1; unfold await at 1;
      eexists; eexists; split; reflexivity.
  - right. do 3 (unfold bind at 1; unfold await at 1). unfold bind at 1.
    destruct cookieArray as [cs|]; [destruct (negb (len cs =? 0))|];
      try rewrite LoopFacts.catch_await; unfold ret;
      unfold bind at 1; rewrite LoopFacts.catch_await;
      unfold bind at 1; unfold await at 1;
      eexists; eexists; split; reflexivity.
Qed.

(** The collection and the final steps, from what the loop gives. *)
Lemma finishing_cases fuel maxTweets cookieArray tr :
  finishing fuel maxTweets cookieArray tr
  = match collect budget E maxTweets fuel 0 loop_init [] with
    | (Val st, evs) =>
        if len (tweets st) =? 0 then
          match final_page E with
          | Resolves d1 =>
              if Validator.isBlockedOrLoginPage d1 && no_cookies cookieArray
              then (Exc (LOGIN_REQUIRED msg_after),
                    (tr ++ evs ++ [EvCheckBlocked; EvClose])%list)
              else (Val (finish Date_parse toISOString (tweets st) maxTweets),
                    (tr ++ evs ++ [EvCheckBlocked; EvClose])%list)
          | Rejects msg =>
              (Exc (Rejected msg), (tr ++ evs ++ [EvCheckBlocked])%list)
          end
        else (Val (finish Date_parse toISOString (tweets st) maxTweets),
              (tr ++ evs ++ [EvClose])%list)
    | (Exc e, evs) => (Exc e, (tr ++ evs)%list)
    | (Diverge, evs) => (Diverge, (tr ++ evs)%list)
    end.
Proof.
  unfold collect_and_finish. unfold bind at 1.
  rewrite (LoopFacts.collect_trace budget E maxTweets fuel 0 loop_init tr).
  destruct (collect budget E maxTweets fuel 0 loop_init []) as [[st|e|] evs];
    cbn [fst snd]; [|reflexivity|reflexivity].
  destruct (len (tweets st) =? 0).
  - unfold bind at 1. unfold bind at 1. unfold await at 1.
    destruct (final_page E) as [d1|msg].
    + destruct (Validator.isBlockedOrLoginPage d1 && no_cookies cookieArray).
      * unfold bind, await, throw. rewrite <- !app_assoc. reflexivity.
      * unfold bind, await, ret. rewrite <- !app_assoc. reflexivity.
    + rewrite <- !app_assoc. reflexivity.
  - unfold bind, await, ret. rewrite <- !app_assoc. reflexivity.
Qed.

(** An error of the loop is the rejection of an extraction. *)
Lemma collect_error maxTweets fuel : forall i st tr e tr',
  collect budget E maxTweets fuel i st tr = (Exc e, tr') ->
  exists msg, e = Rejected msg.
Proof.
  induction fuel as [|f IH]; intros i st tr e tr' H;
    destruct (lt (Num (len (tweets st))) maxTweets
              && lt (Num (scrollAttempts st)) budget) eqn:G.
  - rewrite LoopFacts.collect_out_of_fuel in H by exact G. discriminate.
  - rewrite LoopFacts.collect_exit in H by exact G. discriminate.
  - rewrite LoopFacts.collect_step in H by exact G.
    destruct (loop_page E i) as [d|msg].
    + cbv zeta in H. destruct (ge _ maxTweets); [discriminate|].
      apply IH in H. exact H.
    + injection H as <- _. eauto.
  - rewrite LoopFacts.collect_exit in H by exact G. discriminate.
Qed.

(** The first thing the loop does when its guard holds. *)
Lemma collect_first_event maxTweets fuel st :
  lt (Num (len (tweets st))) maxTweets
  && lt (Num (scrollAttempts st)) budget = true ->
  exists evs,
    snd (collect budget E maxTweets (S fuel) 0 st []) = EvExtract 0 :: evs.
Proof.
  intros G. rewrite LoopFacts.collect_step by exact G.
  destruct (loop_page E 0) as [d|msg]; [|eexists; reflexivity].
  cbv zeta. destruct (ge _ maxTweets); [eexists; reflexivity|].
  rewrite LoopFacts.collect_trace. cbn [snd]. eexists. reflexivity.
Qed.

(** What a run returns is what the loop collected, sorted and truncated. *)
Lemma run_returns_finish fuel query maxTweets cookieArray v tr :
  run fuel query maxTweets cookieArray [] = (Val v, tr) ->
  exists st evs,
    collect budget E maxTweets fuel 0 loop_init [] = (Val st, evs)
    /\ v = finish Date_parse toISOString (tweets st) maxTweets.
Proof.
  intros H.
  destruct (run_reaches_landing_or_rejected fuel query maxTweets cookieArray)
    as [[home Hl]|[msg [tr' [Hr _]]]]; [|congruence].
  rewrite (run_at_landing _ _ _ _ home Hl) in H.
  destruct (negb (Validator.loggedIn home)); [discriminate|].
  destruct (search_page E) as [d0|msg]; [|discriminate].
  destruct (Validator.isBlockedOrLoginPage d0 && no_cookies cookieArray);
    [discriminate|].
  rewrite finishing_cases in H.
  destruct (collect budget E maxTweets fuel 0 loop_init [])
    as [[st|e|] evs]; [|discriminate|discriminate].
  exists st, evs. split; [reflexivity|].
  destruct (len (tweets st) =? 0);
    [destruct (final_page E) as [d1|msg];
     [destruct (Validator.isBlockedOrLoginPage d1 && no_cookies cookieArray)|]|];
    try discriminate; injection H as <- _; reflexivity.
Qed.

Lemma closed_app (tr1 tr2 : trace) :
  closed (tr1 ++ tr2)%list = closed tr1 || closed tr2.
Proof. apply existsb_app. Qed.

(** On the exits the run writes itself, a returned result and a
    [LOGIN_REQUIRED] error, the session is closed, last of all. *)
Lemma run_closes_on_written_exits fuel query maxTweets cookieArray home r tr :
  reaches_landing E home ->
  run fuel query maxTweets cookieArray [] = (r, tr) ->
  (exists v, r = Val v) \/ login_required r ->
  exists tr0, tr = (tr0 ++ [EvClose])%list.
Proof.
  intros Hl H Hr. rewrite (run_at_landing _ _ _ _ home Hl) in H.
  assert (Hnot : forall (msg : string) (A : Type),
             ~ ((exists v : A, Exc (Rejected msg) = Val v)
                \/ login_required (@Exc A (Rejected msg)))).
  { intros msg A [[v Hv]|[m Hm]]; discriminate. }
  destruct (negb (Validator.loggedIn home)).
  - split_reply H. exists (landing_events cookieArray ++ [EvDebugFiles])%list.
    rewrite <- app_assoc. reflexivity.
  - destruct (search_page E) as [d0|msg].
    + destruct (Validator.isBlockedOrLoginPage d0 && no_cookies cookieArray).
      * split_reply H. eexists. reflexivity.
      * rewrite finishing_cases in H.
        destruct (collect budget E maxTweets fuel 0 loop_init [])
          as [[st|e|] evs] eqn:C.
        -- destruct (len (tweets st) =? 0).
           ++ destruct (final_page E) as [d1|msg].
              ** destruct (Validator.isBlockedOrLoginPage d1
                           && no_cookies cookieArray);
                   split_reply H;
                   exists ((search_events query cookieArray
                              ++ [EvWaitForSelector])
                             ++ evs ++ [EvCheckBlocked])%list;
                   rewrite <- !app_assoc; reflexivity.
              ** split_reply H. exfalso. exact (Hnot _ _ Hr).
           ++ split_reply H.
              exists ((search_events query cookieArray ++ [EvWaitForSelector])
                        ++ evs)%list.
              rewrite <- !app_assoc. reflexivity.
        -- split_reply H. apply collect_error in C.
           destruct C as [msg ->]. exfalso. exact (Hnot _ _ Hr).
        -- split_reply H. exfalso.
           destruct Hr as [[v Hv]|[m Hm]]; discriminate.
    + split_reply H. exfalso. exact (Hnot _ _ Hr).
Qed.

Lemma landing_events_quiet cookieArray :
  existsb search_or_collection (landing_events cookieArray) = false
  /\ closed (landing_events cookieArray) = false.
Proof.
  unfold landing_events. destruct cookieArray as [cs|];
    [destruct (negb (len cs =? 0))|]; split; reflexivity.
Qed.

Lemma search_events_open query cookieArray :
  closed (search_events query cookieArray) = false
  /\ ~ In EvWaitForSelector (search_events query cookieArray)
  /\ forall i, ~ In (EvExtract i) (search_events query cookieArray).
Proof.
  unfold search_events, landing_events. destruct cookieArray as [cs|];
    [destruct (negb (len cs =? 0))|]; (split; [reflexivity|]);
    (split; [intros H | intros i H]); simpl in H;
    repeat (destruct H as [H|H]; [discriminate H|]); exact H.
Qed.

Lemma finish_nil maxTweets : finish Date_parse toISOString [] maxTweets = [].
Proof.
  unfold finish, slice0. simpl. destruct maxTweets as [k|]; [|reflexivity].
  destruct (k <? 0); apply firstn_nil.
Qed.

(** The run when an extraction of the loop is rejected: the error goes to
    the caller and nothing closes the session. *)
Lemma run_open_after_rejected_extraction fuel query maxTweets cookieArray
  home d0 msg :
  reaches_landing E home ->
  Validator.loggedIn home = true ->
  search_page E = Resolves d0 ->
  Validator.isBlockedOrLoginPage d0 && no_cookies cookieArray = false ->
  lt (Num 0) maxTweets && lt (Num 0) budget = true ->
  loop_page E 0 = Rejects msg ->
  exists tr,
    run (S fuel) query maxTweets cookieArray [] = (Exc (Rejected msg), tr)
    /\ closed tr = false.
Proof.
  intros Hl Hin Hs Hb G Hp.
  rewrite (run_at_landing _ _ _ _ home Hl), Hin, Hs, Hb. cbn [negb].
  rewrite finishing_cases.
  rewrite LoopFacts.collect_step by exact G. rewrite Hp.
  eexists. split; [reflexivity|].
  rewrite !closed_app. destruct (search_events_open query cookieArray) as [-> _].
  reflexivity.
Qed.

End Run.

(** C3.  When the landing page shows none of the three signs of a session,
    the run ends with a [LOGIN_REQUIRED] error, with cookies or without: the
    search page is never opened, nothing is collected, and the session is
    closed last. *)
Theorem login_check_failure_aborts (budget : number)
  (Date_parse : string -> option Z) (toISOString : Z -> string) (E : env)
  (fuel : nat) (query : string) (maxTweets : number)
  (cookieArray : option (list cookie)) (home : landing) :
  reaches_landing E home ->
  Validator.loggedIn home = false ->
  exists tr,
    scrapeTweetsForQuery budget Date_parse toISOString E fuel query maxTweets
      cookieArray []
    = (Exc (LOGIN_REQUIRED msg_login), tr)
    /\ existsb search_or_collection tr = false
    /\ exists tr0, tr = (tr0 ++ [EvClose])%list.
Proof.
  intros Hl Hout. rewrite (run_at_landing _ _ _ _ _ _ _ _ home Hl), Hout.
  cbn [negb]. eexists. split; [reflexivity|]. split.
  - rewrite existsb_app.
    destruct (landing_events_quiet cookieArray) as [-> _]. reflexivity.
  - exists (landing_events cookieArray ++ [EvDebugFiles])%list.
    rewrite <- app_assoc. reflexivity.
Qed.

Lemma login_check_failure_aborts_witness :
  exists tr,
    scrapeTweetsForQuery (Num 12) Samples.Date_parse Samples.toISOString
      Samples.logged_out 5 "rust" (Num 10) (Some [Samples.auth_cookie]) []
    = (Exc (LOGIN_REQUIRED msg_login), tr)
    /\ existsb search_or_collection tr = false
    /\ exists tr0, tr = (tr0 ++ [EvClose])%list.
Proof.
  apply (login_check_failure_aborts (Num 12) Samples.Date_parse
           Samples.toISOString Samples.logged_out 5 "rust" (Num 10)
           (Some [Samples.auth_cookie]) Samples.logged_out_home).
  - repeat split; reflexivity.
  - reflexivity.
Defined.

(** C2.  Once the search page is reached: when its block check is positive,
    the run aborts there with a [LOGIN_REQUIRED] error if no cookies were
    supplied, before any wait for posts or extraction, and with cookies it
    never ends with [LOGIN_REQUIRED], goes on to wait for the posts and, the
    loop guard holding, extracts; and when the loop ends with no item and
    the block check run again is positive, the run fails with
    [LOGIN_REQUIRED] if no cookies were supplied and returns the empty
    result with cookies. *)
Theorem block_check_fatal_without_cookies (budget : number)
  (Date_parse : string -> option Z) (toISOString : Z -> string) (E : env)
  (query : string) (maxTweets : number) (cookieArray : option (list cookie))
  (home : landing) (d0 : document) :
  reaches_landing E home ->
  Validator.loggedIn home = true ->
  search_page E = Resolves d0 ->
  (Validator.isBlockedOrLoginPage d0 = true ->
     (no_cookies cookieArray = true ->
        forall fuel, exists tr,
          scrapeTweetsForQuery budget Date_parse toISOString E fuel query
            maxTweets cookieArray []
          = (Exc (LOGIN_REQUIRED msg_blocked), tr)
          /\ ~ In EvWaitForSelector tr /\ (forall i, ~ In (EvExtract i) tr)) /\
     (no_cookies cookieArray = false ->
        forall fuel r tr,
          scrapeTweetsForQuery budget Date_parse toISOString E fuel query
            maxTweets cookieArray [] = (r, tr) ->
          ~ login_required r
          /\ In EvWaitForSelector tr
          /\ (lt (Num 0) maxTweets && lt (Num 0) budget = true ->
              (0 < fuel)%nat -> In (EvExtract 0) tr))) /\
  (forall fuel st evs d1,
     Validator.isBlockedOrLoginPage d0 && no_cookies cookieArray = false ->
     collect budget E maxTweets fuel 0 loop_init [] = (Val st, evs) ->
     tweets st = [] ->
     final_page E = Resolves d1 ->
     Validator.isBlockedOrLoginPage d1 = true ->
     (no_cookies cookieArray = true ->
        fst (scrapeTweetsForQuery budget Date_parse toISOString E fuel query
               maxTweets cookieArray [])
        = Exc (LOGIN_REQUIRED msg_after)) /\
     (no_cookies cookieArray = false ->
        fst (scrapeTweetsForQuery budget Date_parse toISOString E fuel query
               maxTweets cookieArray [])
        = Val [])).
Proof.
  intros Hl Hin Hs. split.
  - intros Hb. split.
    + intros Hc fuel.
      rewrite (run_at_landing _ _ _ _ _ _ _ _ home Hl), Hin, Hs, Hb, Hc.
      cbn [negb andb]. eexists. split; [reflexivity|].
      destruct (search_events_open query cookieArray) as [_ [Hw He]].
      split.
      * rewrite in_app_iff. intros [H|[H|[]]]; [exact (Hw H) | discriminate].
      * intros i. rewrite in_app_iff.
        intros [H|[H|[]]]; [exact (He i H) | discriminate].
    + intros Hc fuel r tr.
      rewrite (run_at_landing _ _ _ _ _ _ _ _ home Hl), Hin, Hs, Hb, Hc.
      cbn [negb andb]. rewrite finishing_cases. intros H.
      assert (Hw : forall evs,
                In EvWaitForSelector
                   ((search_events query cookieArray ++ [EvWaitForSelector])
                      ++ evs)%list).
      { intros evs. rewrite !in_app_iff. left. right. left. reflexivity. }
      assert (Hx : lt (Num 0) maxTweets && lt (Num 0) budget = true ->
                   (0 < fuel)%nat ->
                   exists evs',
                     snd (collect budget E maxTweets fuel 0 loop_init [])
                     = EvExtract 0 :: evs').
      { intros G Hf. destruct fuel as [|f]; [lia|].
        apply collect_first_event. exact G. }
      destruct (collect budget E maxTweets fuel 0 loop_init [])
        as [[st|e|] evs] eqn:C; cbn [snd] in Hx.
      * assert (Hin0 : forall more,
                  lt (Num 0) maxTweets && lt (Num 0) budget = true ->
                  (0 < fuel)%nat ->
                  In (EvExtract 0)
                     ((search_events query cookieArray ++ [EvWaitForSelector])
                        ++ evs ++ more)%list).
        { intros more G Hf. destruct (Hx G Hf) as [evs' ->].
          rewrite !in_app_iff. right. left. left. reflexivity. }
        destruct (len (tweets st) =? 0);
          [destruct (final_page E) as [d1|msg];
           [rewrite Hc, andb_false_r in H|]|];
          split_reply H;
          (split; [intros [m Hm]; discriminate|]); split; auto.
      * apply collect_error in C. destruct C as [msg ->]. split_reply H.
        split; [intros [m Hm]; discriminate|]. split; [apply Hw|].
        intros G Hf. destruct (Hx G Hf) as [evs' ->].
        rewrite !in_app_iff. right. left. reflexivity.
      * split_reply H. split; [intros [m Hm]; discriminate|].
        split; [apply Hw|].
        intros G Hf. destruct (Hx G Hf) as [evs' ->].
        rewrite !in_app_iff. right. left. reflexivity.
  - intros fuel st evs d1 Hb C Hst Hf Hb1.
    rewrite (run_at_landing _ _ _ _ _ _ _ _ home Hl), Hin, Hs, Hb.
    cbn [negb]. rewrite finishing_cases, C, Hst, Hf, Hb1.
    change (len (@nil tweet) =? 0) with true. cbn iota.
    split; intros ->; cbn [andb fst]; [reflexivity|].
    rewrite finish_nil. reflexivity.
Qed.

Lemma block_check_fatal_without_cookies_witness :
  (exists tr,
     scrapeTweetsForQuery (Num 2) Samples.Date_parse Samples.toISOString
       Samples.limited 5 "rust" (Num 10) None []
     = (Exc (LOGIN_REQUIRED msg_blocked), tr)
     /\ ~ In EvWaitForSelector tr /\ (forall i, ~ In (EvExtract i) tr)) /\
  fst (scrapeTweetsForQuery (Num 2) Samples.Date_parse Samples.toISOString
         Samples.late_gate 5 "rust" (Num 10) (Some [Samples.auth_cookie]) [])
  = Val [].
Proof.
  split.
  - destruct (block_check_fatal_without_cookies (Num 2) Samples.Date_parse
                Samples.toISOString Samples.limited "rust" (Num 10) None
                Samples.logged_in_home Samples.rate_limited) as [HA _].
    + repeat split; reflexivity.
    + reflexivity.
    + reflexivity.
    + destruct (HA eq_refl) as [Hno _]. exact (Hno eq_refl 5%nat).
  - destruct (block_check_fatal_without_cookies (Num 2) Samples.Date_parse
                Samples.toISOString Samples.late_gate "rust" (Num 10)
                (Some [Samples.auth_cookie])
                Samples.logged_in_home (Samples.page_of [])) as [_ HB].
    + repeat split; reflexivity.
    + reflexivity.
    + reflexivity.
    + edestruct (HB 5%nat) as [_ Hyes];
        [ reflexivity | vm_compute; reflexivity | reflexivity | reflexivity
        | reflexivity | exact (Hyes eq_refl) ].
Defined.

(** C4, at the failing input.  The extraction of the first iteration is
    rejected (the execution context of the page is gone): the run ends with
    that error and the trace holds no [EvClose]; the session stays open. *)
Theorem session_left_open_when_extraction_rejects :
  exists tr,
    scrapeTweetsForQuery (Num 12) Samples.Date_parse Samples.toISOString
      Samples.crash 5 "rust" (Num 10) (Some [Samples.auth_cookie]) []
    = (Exc (Rejected "Execution context was destroyed"), tr)
    /\ closed tr = false.
Proof. eexists. split; vm_compute; reflexivity. Qed.

End RunFacts.

(** ** The order and the length of the result *)

Module SortFacts.
Import JS Dom Extractor Collect Scrape Spec.

Section Sorting.

Variable Date_parse : string -> option Z.
Variable toISOString : Z -> string.

(** [Date.parse(d.toISOString())] is the time value of [d], and an ISO
    string is not empty. *)
Hypothesis Date_roundtrip :
  forall s z, Date_parse s = Some z -> Date_parse (toISOString z) = Some z.
Hypothesis toISOString_nonempty : forall z, toISOString z <> "".

Local Notation "'normal'" := (normalize Date_parse toISOString).
Local Notation "'instant'" := (fun a : item => epoch_time Date_parse (post a)).
Local Notation "'timed'" :=
  (Forall (fun a : item =>
             time_key Date_parse a = Num (epoch_time Date_parse (post a)))).

Lemma toISOString_truthy z : truthy_str (toISOString z) = true.
Proof.
  destruct (toISOString z) eqn:H; [|reflexivity].
  exfalso. exact (toISOString_nonempty z H).
Qed.

(** The ISO string of an item denotes the instant of its raw timestamp. *)
Lemma item_time_normalize t :
  item_time Date_parse (normal t) = norm_time Date_parse t.
Proof.
  unfold item_time, norm_time, normalize. cbn [timestamp_iso].
  destruct (timestamp t) as [s|]; [|reflexivity].
  destruct (truthy_str s); [|reflexivity].
  destruct (Date_parse s) as [z|] eqn:H; [|reflexivity].
  apply (Date_roundtrip s z H).
Qed.

(** The sort key of an item is the instant of its post, the epoch for a
    null timestamp. *)
Lemma time_key_normalize t :
  time_key Date_parse (normal t) = Num (epoch_time Date_parse t).
Proof.
  unfold time_key, epoch_time, norm_time, normalize. cbn [timestamp_iso].
  destruct (timestamp t) as [s|]; [|reflexivity].
  destruct (truthy_str s); [|reflexivity].
  destruct (Date_parse s) as [z|] eqn:H; [|reflexivity].
  rewrite toISOString_truthy, (Date_roundtrip s z H). reflexivity.
Qed.

Lemma timed_normalize tws : timed (List.map normal tws).
Proof.
  induction tws as [|t r IH]; constructor; [|exact IH].
  cbn [post normalize]. apply time_key_normalize.
Qed.

Lemma sorts_after_instant a b :
  time_key Date_parse a = Num (instant a) ->
  time_key Date_parse b = Num (instant b) ->
  sorts_after Date_parse a b = (instant a <? instant b).
Proof.
  intros Ha Hb. unfold sorts_after, compareFn. rewrite Ha, Hb. cbn [sub].
  destruct (instant a <? instant b) eqn:H.
  - apply Z.ltb_lt in H. apply Z.ltb_lt. lia.
  - apply Z.ltb_ge in H. apply Z.ltb_ge. lia.
Qed.

Lemma insert_perm x l : Permutation (insert Date_parse x l) (x :: l).
Proof.
  induction l as [|y r IH]; cbn [insert]; [apply Permutation_refl|].
  destruct (sorts_after Date_parse x y); [|apply Permutation_refl].
  apply perm_trans with (y :: x :: r); [|apply perm_swap].
  apply perm_skip. exact IH.
Qed.

Lemma sort_perm l : Permutation (sort Date_parse l) l.
Proof.
  induction l as [|x r IH]; cbn [sort]; [apply perm_nil|].
  apply perm_trans with (x :: sort Date_parse r); [apply insert_perm|].
  apply perm_skip. exact IH.
Qed.

Lemma timed_sort l : timed l -> timed (sort Date_parse l).
Proof.
  intros H. apply (Permutation_Forall (Permutation_sym (sort_perm l))). exact H.
Qed.

Lemma insert_sorted x l :
  timed (x :: l) ->
  newest_first_epoch Date_parse l ->
  newest_first_epoch Date_parse (insert Date_parse x l).
Proof.
  unfold newest_first_epoch. intros Ht Hs.
  induction Hs as [|y r Hr IH Hy]; cbn [insert].
  - constructor; constructor.
  - inversion Ht as [|? ? Hx Hyr]; subst. inversion Hyr as [|? ? Hy' Hr']; subst.
    rewrite (sorts_after_instant x y Hx Hy').
    destruct (instant x <? instant y) eqn:C.
    + apply Z.ltb_lt in C. constructor.
      * apply IH. constructor; assumption.
      * apply (Permutation_Forall (Permutation_sym (insert_perm x r))).
        constructor; [lia | exact Hy].
    + apply Z.ltb_ge in C. constructor.
      * constructor; assumption.
      * constructor; [lia|].
        apply Forall_forall. intros u Hu.
        rewrite Forall_forall in Hy. specialize (Hy u Hu). lia.
Qed.

Lemma sort_sorted l : timed l -> newest_first_epoch Date_parse (sort Date_parse l).
Proof.
  induction l as [|x r IH]; intros Ht; cbn [sort].
  - constructor.
  - inversion Ht as [|? ? Hx Hr]; subst.
    apply insert_sorted; [|apply IH; exact Hr].
    constructor; [exact Hx | apply timed_sort; exact Hr].
Qed.

(** Stability: the items at one instant keep their order. *)
Lemma insert_at_instant z x l :
  timed (x :: l) ->
  at_instant Date_parse z (insert Date_parse x l)
  = at_instant Date_parse z (x :: l).
Proof.
  unfold at_instant. induction l as [|y r IH]; intros Ht; cbn [insert];
    [reflexivity|].
  inversion Ht as [|? ? Hx Hyr]; subst. inversion Hyr as [|? ? Hy Hr]; subst.
  rewrite (sorts_after_instant x y Hx Hy).
  destruct (instant x <? instant y) eqn:C; [|reflexivity].
  apply Z.ltb_lt in C. cbn [List.filter].
  rewrite IH by (constructor; assumption). cbn [List.filter].
  destruct (instant x =? z) eqn:Ex; destruct (instant y =? z) eqn:Ey;
    try reflexivity.
  apply Z.eqb_eq in Ex, Ey. lia.
Qed.

Lemma sort_at_instant z l :
  timed l ->
  at_instant Date_parse z (sort Date_parse l) = at_instant Date_parse z l.
Proof.
  induction l as [|x r IH]; intros Ht; cbn [sort]; [reflexivity|].
  inversion Ht as [|? ? Hx Hr]; subst.
  rewrite insert_at_instant
    by (constructor; [exact Hx | apply timed_sort; exact Hr]).
  unfold at_instant in *. cbn [List.filter]. rewrite (IH Hr). reflexivity.
Qed.

End Sorting.

Lemma slice0_firstn {A : Type} (l : list A) (m : Z) :
  0 <= m -> slice0 l (Num m) = firstn (Z.to_nat m) l.
Proof.
  intros H. unfold slice0. destruct (m <? 0) eqn:C; [|reflexivity].
  apply Z.ltb_lt in C. lia.
Qed.

Lemma len_firstn {A : Type} (l : list A) (m : Z) :
  0 <= m -> len (firstn (Z.to_nat m) l) = Z.min m (len l).
Proof. intros H. unfold len. rewrite length_firstn. lia. Qed.

(** The claim of C5 as it is worded: the result is ordered with the null
    timestamps below every instant.  It fails when a post is dated before
    1970: the post without timestamp is returned before it. *)
Lemma result_null_timestamp_not_minimal :
  ~ newest_first_null_min Samples.Date_parse
      (finish Samples.Date_parse Samples.toISOString
         [Samples.undated; Samples.from_1969] (Num 2)).
Proof.
  unfold newest_first_null_min. intros H.
  inversion H as [|a l _ Hall Heq]. subst.
  inversion Hall as [|b l' Hb _ Heq']. discriminate Hb.
Qed.

(** C5, amended.  For a maximum [m >= 0] the result is the first
    [min(m, total)] items of the collected items sorted by the instant of
    their normalized timestamp, newest first, where a null timestamp counts
    as the epoch (instant 0) and items at one instant keep their discovery
    order. *)
Theorem result_sorted_and_truncated
  (Date_parse : string -> option Z) (toISOString : Z -> string)
  (tws : list tweet) (m : Z) :
  (forall s z, Date_parse s = Some z -> Date_parse (toISOString z) = Some z) ->
  (forall z, toISOString z <> "") ->
  0 <= m ->
  let items := List.map (normalize Date_parse toISOString) tws in
  let sorted := sort Date_parse items in
  Forall (fun a => item_time Date_parse a = norm_time Date_parse (post a)) items
  /\ Permutation sorted items
  /\ newest_first_epoch Date_parse sorted
  /\ (forall z, at_instant Date_parse z sorted = at_instant Date_parse z items)
  /\ finish Date_parse toISOString tws (Num m) = firstn (Z.to_nat m) sorted
  /\ len (finish Date_parse toISOString tws (Num m)) = Z.min m (len tws).
Proof.
  intros Hrt Hne Hm items sorted.
  assert (Ht := timed_normalize Date_parse toISOString Hrt Hne tws).
  split; [|split; [|split; [|split; [|split]]]].
  - apply Forall_forall. intros a Ha. apply in_map_iff in Ha.
    destruct Ha as [t [<- _]]. cbn [post normalize].
    apply item_time_normalize. exact Hrt.
  - apply sort_perm.
  - apply sort_sorted; assumption.
  - intros z. apply sort_at_instant; assumption.
  - unfold finish. apply slice0_firstn. exact Hm.
  - unfold finish. rewrite slice0_firstn by exact Hm. rewrite len_firstn by exact Hm.
    f_equal. unfold len. f_equal.
    rewrite (Permutation_length (sort_perm Date_parse _)).
    apply length_map.
Qed.

Lemma Samples_Date_roundtrip s z :
  Samples.Date_parse s = Some z ->
  Samples.Date_parse (Samples.toISOString z) = Some z.
Proof.
  unfold Samples.Date_parse. cbn [find Samples.known_dates fst snd].
  destruct (String.eqb _ s); [intros H; injection H as <-; reflexivity|].
  destruct (String.eqb _ s); [intros H; injection H as <-; reflexivity|].
  destruct (String.eqb _ s); [intros H; injection H as <-; reflexivity|].
  discriminate.
Qed.

Lemma Samples_toISOString_nonempty z : Samples.toISOString z <> "".
Proof.
  unfold Samples.toISOString. cbn [find Samples.known_dates fst snd].
  destruct (_ =? z); [discriminate|]. destruct (_ =? z); [discriminate|].
  destruct (_ =? z); discriminate.
Qed.

Lemma result_sorted_and_truncated_witness :
  finish Samples.Date_parse Samples.toISOString
    [Samples.undated; Samples.from_1969; Samples.from_2024] (Num 2)
  = firstn 2
      (sort Samples.Date_parse
         (List.map (normalize Samples.Date_parse Samples.toISOString)
            [Samples.undated; Samples.from_1969; Samples.from_2024]))
  /\ len (finish Samples.Date_parse Samples.toISOString
            [Samples.undated; Samples.from_1969; Samples.from_2024] (Num 2))
     = 2.
Proof.
  destruct (result_sorted_and_truncated Samples.Date_parse Samples.toISOString
              [Samples.undated; Samples.from_1969; Samples.from_2024] 2
              Samples_Date_roundtrip Samples_toISOString_nonempty
              ltac:(lia))
    as [_ [_ [_ [_ [Hf Hl]]]]].
  split; [exact Hf | exact Hl].
Defined.

End SortFacts.

(* ===================================================================== *)
(** * Further properties of the code *)
(* ===================================================================== *)

(** ** Strings *)

Module StringFacts.
Import JS Spec Notions.

Lemma append_nil_r (s : string) : s ++ "" = s.
Proof. induction s as [|c r IH]; simpl; [reflexivity | rewrite IH; reflexivity]. Qed.

Lemma append_assoc (a b c : string) : (a ++ b) ++ c = a ++ (b ++ c).
Proof. induction a as [|x r IH]; simpl; [reflexivity | rewrite IH; reflexivity]. Qed.

Lemma length_append (a b : string) :
  String.length (a ++ b) = (String.length a + String.length b)%nat.
Proof. induction a as [|x r IH]; simpl; [reflexivity | rewrite IH; reflexivity]. Qed.

Lemma append_cancel_l (a b c : string) : a ++ b = a ++ c -> b = c.
Proof.
  induction a as [|x r IH]; simpl; intros H; [exact H|].
  injection H as H. exact (IH H).
Qed.

Lemma append_cancel_r (c : string) : forall a b, a ++ c = b ++ c -> a = b.
Proof.
  induction a as [|x r IH]; intros [|y q] H; simpl in H.
  - reflexivity.
  - exfalso. apply (f_equal String.length) in H. simpl in H.
    rewrite length_append in H. lia.
  - exfalso. apply (f_equal String.length) in H. simpl in H.
    rewrite length_append in H. lia.
  - injection H as -> H. rewrite (IH q H). reflexivity.
Qed.

Lemma str_forall_append f a b :
  str_forall f (a ++ b) = str_forall f a && str_forall f b.
Proof.
  induction a as [|x r IH]; simpl; [reflexivity|].
  rewrite IH, andb_assoc. reflexivity.
Qed.

Lemma str_forall_weaken (f g : ascii -> bool) s :
  (forall c, f c = true -> g c = true) ->
  str_forall f s = true -> str_forall g s = true.
Proof.
  intros Hfg. induction s as [|c r IH]; simpl; [reflexivity|].
  intros H. apply andb_true_iff in H. destruct H as [Hc Hr].
  rewrite (Hfg c Hc), (IH Hr). reflexivity.
Qed.

(** *** Reversal *)

Lemma str_rev_app_spec s : forall acc, str_rev_app s acc = str_rev s ++ acc.
Proof.
  unfold str_rev. induction s as [|c r IH]; intros acc; simpl; [reflexivity|].
  rewrite (IH (String c acc)), (IH (String c "")), append_assoc. reflexivity.
Qed.

Lemma str_rev_cons c s : str_rev (String c s) = str_rev s ++ String c "".
Proof. unfold str_rev at 1. simpl. apply str_rev_app_spec. Qed.

Lemma str_rev_append a b : str_rev (a ++ b) = str_rev b ++ str_rev a.
Proof.
  induction a as [|x r IH]; simpl.
  - rewrite append_nil_r. reflexivity.
  - rewrite !str_rev_cons, IH, append_assoc. reflexivity.
Qed.

Lemma str_rev_involutive s : str_rev (str_rev s) = s.
Proof.
  induction s as [|c r IH]; [reflexivity|].
  rewrite str_rev_cons, str_rev_append, IH. reflexivity.
Qed.

Lemma str_forall_rev f s : str_forall f (str_rev s) = str_forall f s.
Proof.
  induction s as [|c r IH]; [reflexivity|].
  rewrite str_rev_cons, str_forall_append, IH. simpl.
  rewrite andb_true_r, andb_comm. reflexivity.
Qed.

(** *** Dropping and taking *)

Lemma take_drop_while f s : take_while f s ++ drop_while f s = s.
Proof.
  induction s as [|c r IH]; simpl; [reflexivity|].
  destruct (f c); simpl; [rewrite IH|]; reflexivity.
Qed.

Lemma length_drop_while f s :
  (String.length (drop_while f s) <= String.length s)%nat.
Proof.
  induction s as [|c r IH]; simpl; [lia|]. destruct (f c); simpl; lia.
Qed.

(** A string that [drop_while] leaves alone does not start with a character
    to drop. *)
Lemma drop_while_fixed f c r :
  drop_while f (String c r) = String c r -> f c = false.
Proof.
  simpl. destruct (f c); [|reflexivity]. intros H. exfalso.
  pose proof (length_drop_while f r) as L. rewrite H in L. simpl in L. lia.
Qed.

Lemma drop_while_head f c r : f c = false -> drop_while f (String c r) = String c r.
Proof. intros H. simpl. rewrite H. reflexivity. Qed.

Lemma drop_while_idempotent f s : drop_while f (drop_while f s) = drop_while f s.
Proof.
  induction s as [|c r IH]; simpl; [reflexivity|].
  destruct (f c) eqn:H; [exact IH|]. simpl. rewrite H. reflexivity.
Qed.

Lemma str_forall_drop_while f g s :
  str_forall g s = true -> str_forall g (drop_while f s) = true.
Proof.
  induction s as [|c r IH]; simpl; [reflexivity|].
  intros H. apply andb_true_iff in H. destruct H as [Hc Hr].
  destruct (f c); [exact (IH Hr)|]. simpl. rewrite Hc, Hr. reflexivity.
Qed.

Lemma drop_while_none f s :
  str_forall (fun c => negb (f c)) s = true -> drop_while f s = s.
Proof.
  destruct s as [|c r]; simpl; [reflexivity|].
  intros H. apply andb_true_iff in H. destruct H as [Hc _].
  apply negb_true_iff in Hc. rewrite Hc. reflexivity.
Qed.

(** *** [trim] *)

(** What [trim] returns starts and ends with a character that is not white
    space, when it is not empty. *)
Lemma trim_no_leading_space s : drop_while is_space (trim s) = trim s.
Proof.
  unfold trim. set (t := drop_while is_space s).
  assert (Ht : drop_while is_space t = t) by apply drop_while_idempotent.
  pose proof (take_drop_while is_space (str_rev t)) as D.
  set (u := drop_while is_space (str_rev t)) in *.
  apply (f_equal str_rev) in D.
  rewrite str_rev_append, str_rev_involutive in D.
  destruct (str_rev u) as [|c r] eqn:Hu; [reflexivity|].
  apply drop_while_head. simpl in D. rewrite <- D in Ht.
  exact (drop_while_fixed _ _ _ Ht).
Qed.

Lemma trim_no_trailing_space s :
  drop_while is_space (str_rev (trim s)) = str_rev (trim s).
Proof.
  unfold trim. rewrite str_rev_involutive. apply drop_while_idempotent.
Qed.

Lemma trim_fixed s :
  drop_while is_space s = s ->
  drop_while is_space (str_rev s) = str_rev s ->
  trim s = s.
Proof.
  intros H1 H2. unfold trim. rewrite H1, H2. apply str_rev_involutive.
Qed.

Lemma trim_idempotent s : trim (trim s) = trim s.
Proof.
  apply trim_fixed; [apply trim_no_leading_space | apply trim_no_trailing_space].
Qed.

Lemma trim_empty : trim "" = "".
Proof. reflexivity. Qed.

Lemma str_forall_trim g s : str_forall g s = true -> str_forall g (trim s) = true.
Proof.
  intros H. unfold trim. rewrite str_forall_rev.
  apply str_forall_drop_while. rewrite str_forall_rev.
  apply str_forall_drop_while. exact H.
Qed.

(** A string without white space is its own [trim]. *)
Lemma trim_no_space s :
  str_forall (fun c => negb (is_space c)) s = true -> trim s = s.
Proof.
  intros H. apply trim_fixed; apply drop_while_none; [exact H|].
  rewrite str_forall_rev. exact H.
Qed.

(** *** [split], [slice] and [replace] *)

Lemma split_not_nil sep s : split sep s <> [].
Proof.
  induction s as [|c r IH]; simpl; [discriminate|].
  destruct (Ascii.eqb c sep); [discriminate|].
  destruct (split sep r); [contradiction | discriminate].
Qed.

(** [s.split(sep)[0]] is what comes before the first separator. *)
Lemma split_head_take sep s :
  split_head sep s = take_while (fun c => negb (Ascii.eqb c sep)) s.
Proof.
  unfold split_head. induction s as [|c r IH]; simpl; [reflexivity|].
  destruct (Ascii.eqb c sep); simpl; [reflexivity|].
  destruct (split sep r) as [|p ps] eqn:E.
  - exfalso. exact (split_not_nil sep r E).
  - simpl in *. rewrite IH. reflexivity.
Qed.

Lemma str_forall_take_while f g s :
  str_forall g s = true -> str_forall g (take_while f s) = true.
Proof.
  induction s as [|c r IH]; simpl; [reflexivity|].
  intros H. apply andb_true_iff in H. destruct H as [Hc Hr].
  destruct (f c); [|reflexivity]. simpl. rewrite Hc, (IH Hr). reflexivity.
Qed.

Lemma str_forall_split_head sep g s :
  str_forall g s = true -> str_forall g (split_head sep s) = true.
Proof. rewrite split_head_take. apply str_forall_take_while. Qed.

Lemma split_head_no_sep sep s :
  str_forall (fun c => negb (Ascii.eqb c sep)) (split_head sep s) = true.
Proof. rewrite split_head_take. apply ExtractorFacts.take_while_forall. Qed.

Lemma split_head_none sep s :
  str_forall (fun c => negb (Ascii.eqb c sep)) s = true -> split_head sep s = s.
Proof. rewrite split_head_take. apply ExtractorFacts.take_while_all. Qed.

Lemma str_forall_str_drop g n : forall s,
  str_forall g s = true -> str_forall g (str_drop n s) = true.
Proof.
  induction n as [|n IH]; intros [|c r] H; simpl; try exact H; try reflexivity.
  simpl in H. apply andb_true_iff in H. apply IH. tauto.
Qed.

Lemma str_forall_remove_first g c s :
  str_forall g s = true -> str_forall g (remove_first c s) = true.
Proof.
  induction s as [|d r IH]; simpl; [reflexivity|].
  intros H. apply andb_true_iff in H. destruct H as [Hd Hr].
  destruct (Ascii.eqb d c); [exact Hr|]. simpl. rewrite Hd, (IH Hr). reflexivity.
Qed.

Lemma remove_first_none c s :
  str_forall (fun d => negb (Ascii.eqb d c)) s = true -> remove_first c s = s.
Proof.
  induction s as [|d r IH]; simpl; [reflexivity|].
  intros H. apply andb_true_iff in H. destruct H as [Hd Hr].
  apply negb_true_iff in Hd. rewrite Hd, (IH Hr). reflexivity.
Qed.

(** *** [startsWith] and [includes] *)

Lemma prefix_append p : forall s,
  String.prefix p s = true <-> exists rest, s = p ++ rest.
Proof.
  induction p as [|c r IH]; intros s.
  - split; [intros _; exists s; reflexivity | intros _; destruct s; reflexivity].
  - destruct s as [|d q]; simpl.
    + split; [discriminate | intros [rest H]; discriminate].
    + destruct (Ascii.ascii_dec c d) as [->|Hne].
      * rewrite IH. split; intros [rest H]; exists rest.
        -- rewrite H. reflexivity.
        -- injection H as H. exact H.
      * split; [discriminate|]. intros [rest H]. injection H as H _.
        congruence.
Qed.

Lemma includes_append s p :
  includes s p = true <-> exists before after, s = before ++ p ++ after.
Proof.
  induction s as [|c r IH]; cbn [includes].
  - destruct (String.prefix p "") eqn:E.
    + split; [|reflexivity]. intros _.
      apply prefix_append in E. destruct E as [rest E]. exists "", rest. exact E.
    + split; [discriminate|]. intros [before [after H]].
      destruct before; [|discriminate]. simpl in H.
      assert (E' : String.prefix p "" = true)
        by (apply prefix_append; exists after; exact H).
      congruence.
  - destruct (String.prefix p (String c r)) eqn:E.
    + split; [|reflexivity]. intros _.
      apply prefix_append in E. destruct E as [rest E]. exists "", rest. exact E.
    + rewrite IH. split; intros [before [after H]].
      * exists (String c before), after. simpl. rewrite H. reflexivity.
      * destruct before as [|d q].
        -- simpl in H.
           assert (E' : String.prefix p (String c r) = true)
             by (apply prefix_append; exists after; exact H).
           congruence.
        -- simpl in H. injection H as _ H. exists q, after. exact H.
Qed.

Lemma toLowerCase_append a b :
  toLowerCase (a ++ b) = toLowerCase a ++ toLowerCase b.
Proof.
  unfold toLowerCase. induction a as [|c r IH]; simpl;
    [reflexivity | rewrite IH; reflexivity].
Qed.

(** A text is still included when text is added around. *)
Lemma includes_grows s p before after :
  includes s p = true -> includes (before ++ s ++ after) p = true.
Proof.
  rewrite !includes_append. intros [x [y H]]. subst s.
  exists (before ++ x), (y ++ after). rewrite !append_assoc. reflexivity.
Qed.

End StringFacts.

(** ** The session validator and the search URL *)

Module ValidatorFacts.
Import JS Dom Validator Spec Notions.

(** X1.  The logged-in check is decided by the three structural signs (the
    home link, the profile link, the timeline container): the text of the
    page, which the function reads, never changes its result. *)
Theorem loggedIn_structural_only (d : landing) :
  loggedIn d = home_link d || profile_link d || timeline d.
Proof.
  unfold loggedIn.
  destruct (home_link d), (profile_link d), (timeline d); try reflexivity.
  cbv zeta.
  match goal with |- context [if ?c then false else false] => destruct c end;
    reflexivity.
Qed.

(** The block check as a disjunction of its five tests. *)
Lemma isBlockedOrLoginPage_tests (d : document) :
  isBlockedOrLoginPage d
  = (let lower := toLowerCase (match body d with Some t => t | None => "" end) in
     (includes lower "log in"
        && (includes lower "twitter" || includes lower "x.com"))
     || (includes lower "sign up"
           && (includes lower "twitter" || includes lower "x.com"))
     || (includes lower "rate limit" || includes lower "too many requests")
     || (includes lower "you are only seeing"
           || includes lower "to view this page")
     || login_element d).
Proof.
  unfold isBlockedOrLoginPage. cbv zeta.
  set (lower := toLowerCase _).
  destruct (includes lower "log in" && _); [reflexivity|].
  destruct (includes lower "sign up" && _); [reflexivity|].
  destruct (includes lower "rate limit" || _); [reflexivity|].
  destruct (includes lower "you are only seeing" || _); [reflexivity|].
  destruct (login_element d); reflexivity.
Qed.

(** X2.  The block check is monotone: a page that is blocked stays blocked
    when text is added before or after its body text, in any letter case,
    and when a login element is added. *)
Theorem isBlockedOrLoginPage_monotone (d d' : document) :
  grows_from d d' ->
  isBlockedOrLoginPage d = true ->
  isBlockedOrLoginPage d' = true.
Proof.
  intros [Hlogin Hbody]. rewrite !isBlockedOrLoginPage_tests. cbv zeta.
  destruct (body d) as [t|].
  - destruct Hbody as [before [after Hb]]. rewrite Hb.
    rewrite !StringFacts.toLowerCase_append.
    set (lower := toLowerCase t).
    set (lower' := toLowerCase before ++ lower ++ toLowerCase after).
    assert (G : forall p, includes lower p = true -> includes lower' p = true)
      by (intros p; apply StringFacts.includes_grows).
    rewrite !orb_true_iff, !andb_true_iff, !orb_true_iff.
    intros [[[[[H1 [H2|H2]]|[H1 [H2|H2]]]|[H|H]]|[H|H]]|H]; auto 10.
  - change (toLowerCase "") with "".
    change (includes "" "log in") with false.
    change (includes "" "sign up") with false.
    change (includes "" "rate limit") with false.
    change (includes "" "too many requests") with false.
    change (includes "" "you are only seeing") with false.
    change (includes "" "to view this page") with false.
    cbn [andb orb]. intros H. rewrite (Hlogin H). apply orb_true_r.
Qed.

Lemma isBlockedOrLoginPage_monotone_witness :
  isBlockedOrLoginPage
    {| body := Some "Home. RATE LIMIT exceeded, retry later";
       login_element := false; articles := [] |} = true.
Proof.
  apply (isBlockedOrLoginPage_monotone
           {| body := Some "RATE LIMIT exceeded"; login_element := false;
              articles := [] |}).
  - split; [discriminate|]. exists "Home. ", ", retry later". reflexivity.
  - reflexivity.
Defined.

End ValidatorFacts.

Module UrlFacts.
Import JS Scrape Spec Notions.

Lemma hex_digits_unreserved (c : ascii) :
  unreserved (hex_digit (nat_of_ascii c / 16)) = true
  /\ unreserved (hex_digit (nat_of_ascii c mod 16)) = true.
Proof. destruct c as [[] [] [] [] [] [] [] []]; split; vm_compute; reflexivity. Qed.

Lemma encodeURIComponent_url_safe (s : string) :
  str_forall url_safe (encodeURIComponent s) = true.
Proof.
  induction s as [|c r IH]; [reflexivity|]. cbn [encodeURIComponent].
  destruct (unreserved c) eqn:U.
  - cbn [str_forall]. unfold url_safe at 1. rewrite U, IH. reflexivity.
  - destruct (hex_digits_unreserved c) as [H1 H2].
    cbn [str_forall]. unfold url_safe at 1 2 3. rewrite H1, H2, IH. reflexivity.
Qed.

Lemma url_safe_not_delimiter (c : ascii) :
  url_safe c = true ->
  negb (existsb (Ascii.eqb c) ["&"; "="; "?"; "#"; "/"; "+"; " "]%char) = true.
Proof.
  destruct c as [[] [] [] [] [] [] [] []]; vm_compute; intros H;
    first [reflexivity | discriminate H].
Qed.

(** X3.  The search URL is [https://twitter.com/search?q=], the encoded
    query, [&f=live], and the encoded query holds none of the characters
    [&], [=], [?], [#], [/], [+] and space: the query cannot add or end a
    parameter of the URL. *)
Theorem buildTwitterSearchUrl_one_parameter (query : string) :
  exists q,
    buildTwitterSearchUrl query = "https://twitter.com/search?q=" ++ q ++ "&f=live"
    /\ str_forall
         (fun c => negb (existsb (Ascii.eqb c)
                           ["&"; "="; "?"; "#"; "/"; "+"; " "]%char)) q
       = true.
Proof.
  exists (encodeURIComponent query). split; [reflexivity|].
  apply (StringFacts.str_forall_weaken url_safe);
    [exact url_safe_not_delimiter | apply encodeURIComponent_url_safe].
Qed.

Lemma percent_decode_plain c r :
  c <> "%"%char -> percent_decode (String c r) = String c (percent_decode r).
Proof.
  intros H. destruct c as [[] [] [] [] [] [] [] []];
    try reflexivity. exfalso. apply H. reflexivity.
Qed.

Lemma unreserved_not_percent c : unreserved c = true -> c <> "%"%char.
Proof. intros H E. subst c. discriminate H. Qed.

Lemma hex_roundtrip (c : ascii) :
  ascii_of_nat (16 * hex_val (hex_digit (nat_of_ascii c / 16))
                + hex_val (hex_digit (nat_of_ascii c mod 16))) = c.
Proof. destruct c as [[] [] [] [] [] [] [] []]; vm_compute; reflexivity. Qed.

(** Percent decoding reads an encoded query back. *)
Lemma percent_decode_encode (s : string) :
  percent_decode (encodeURIComponent s) = s.
Proof.
  induction s as [|c r IH]; [reflexivity|]. cbn [encodeURIComponent].
  destruct (unreserved c) eqn:U.
  - rewrite percent_decode_plain by (apply unreserved_not_percent; exact U).
    rewrite IH. reflexivity.
  - cbn [percent_decode]. rewrite hex_roundtrip, IH. reflexivity.
Qed.

(** X4.  Two queries with the same search URL are the same query: the
    encoding loses nothing. *)
Theorem buildTwitterSearchUrl_injective (q1 q2 : string) :
  buildTwitterSearchUrl q1 = buildTwitterSearchUrl q2 -> q1 = q2.
Proof.
  unfold buildTwitterSearchUrl. intros H.
  apply StringFacts.append_cancel_l in H.
  apply StringFacts.append_cancel_r in H.
  rewrite <- (percent_decode_encode q1), <- (percent_decode_encode q2), H.
  reflexivity.
Qed.

Lemma buildTwitterSearchUrl_injective_witness :
  "rust lang" = "rust lang".
Proof.
  apply (buildTwitterSearchUrl_injective "rust lang" "rust lang"). reflexivity.
Defined.

End UrlFacts.

(** ** More on the page extractor *)

Module ExtractorMore.
Import JS Dom Extractor Spec Notions.

(** What one article adds to the result. *)
Lemma extract_articles_app (l1 l2 : list article) :
  extract_articles (l1 ++ l2) = (extract_articles l1 ++ extract_articles l2)%list.
Proof.
  induction l1 as [|a r IH]; simpl; [reflexivity|].
  destruct (extract_article a); simpl; rewrite IH; reflexivity.
Qed.

(** X5.  Each article is processed on its own: the items of a page are the
    items of the articles before, what the article gives, and the items of
    the articles after.  An article whose processing throws, or that is
    skipped, takes nothing away from the others. *)
Theorem extract_articles_isolates (l1 l2 : list article) (a : article) :
  extract_articles (l1 ++ a :: l2)
  = (extract_articles l1
     ++ match extract_article a with
        | Emit t => [t]
        | Skip | Fail => []
        end
     ++ extract_articles l2)%list.
Proof.
  rewrite extract_articles_app. simpl.
  destruct (extract_article a); reflexivity.
Qed.

(** *** The handle *)

Lemma str_forall_and f g s :
  str_forall (fun c => f c && g c) s = str_forall f s && str_forall g s.
Proof.
  induction s as [|c r IH]; simpl; [reflexivity|]. rewrite IH.
  destruct (f c), (g c), (str_forall f r), (str_forall g r); reflexivity.
Qed.

Lemma handle_of_href_trimmed (h : string) :
  trim (handle_of_href h) = handle_of_href h.
Proof.
  unfold handle_of_href. cbv zeta.
  match goal with |- context [if ?c then _ else ""] => destruct c end;
    [apply StringFacts.trim_idempotent | reflexivity].
Qed.

(** X6.  The handle read from the [href] of a profile anchor is one path
    segment: it holds no [/], no [?] and no [#], and no white space at
    either end. *)
Theorem handle_of_href_segment (h : string) :
  str_forall segment_char (handle_of_href h) = true
  /\ trim (handle_of_href h) = handle_of_href h.
Proof.
  split; [|apply handle_of_href_trimmed].
  unfold handle_of_href. cbv zeta.
  set (h2 := split_head "#" (split_head "?" (strip_origin h))).
  set (h3 := if startsWith h2 "/" then str_drop 1 h2 else h2).
  destruct (truthy_str h3); [|reflexivity].
  assert (Hq : str_forall (fun c => negb (Ascii.eqb c "?")) h3 = true).
  { unfold h3. destruct (startsWith h2 "/");
      [apply StringFacts.str_forall_str_drop|];
      apply StringFacts.str_forall_split_head, StringFacts.split_head_no_sep. }
  assert (Hh : str_forall (fun c => negb (Ascii.eqb c "#")) h3 = true).
  { unfold h3. destruct (startsWith h2 "/");
      [apply StringFacts.str_forall_str_drop|];
      apply StringFacts.split_head_no_sep. }
  apply StringFacts.str_forall_trim, StringFacts.str_forall_remove_first.
  unfold segment_char.
  rewrite (str_forall_and (fun c => negb (Ascii.eqb c "/") && negb (Ascii.eqb c "?"))),
          (str_forall_and (fun c => negb (Ascii.eqb c "/"))).
  rewrite StringFacts.split_head_no_sep.
  rewrite (StringFacts.str_forall_split_head "/" _ h3 Hq).
  rewrite (StringFacts.str_forall_split_head "/" _ h3 Hh).
  reflexivity.
Qed.

Lemma word_char (c : ascii) :
  is_word c = true ->
  is_space c = false /\ Ascii.eqb c "/" = false /\ Ascii.eqb c "?" = false
  /\ Ascii.eqb c "#" = false /\ Ascii.eqb c "@" = false.
Proof.
  destruct c as [[] [] [] [] [] [] [] []]; vm_compute; intros H;
    first [discriminate H | repeat split].
Qed.

Lemma word_forall (f : ascii -> bool) (name : string) :
  (forall c, is_word c = true -> f c = true) ->
  str_forall is_word name = true -> str_forall f name = true.
Proof. intros H. apply StringFacts.str_forall_weaken. exact H. Qed.

(** The handle of a link whose path, once the origin is removed, is [/] and
    a name. *)
Lemma handle_of_path (h name : string) :
  strip_origin h = "/" ++ name ->
  str_forall is_word name = true ->
  handle_of_href h = name.
Proof.
  intros Hs Hw. unfold handle_of_href. cbv zeta. rewrite Hs.
  assert (Hsep : forall sep, is_word sep = false ->
            str_forall (fun c => negb (Ascii.eqb c sep)) name = true).
  { intros sep Hsep. apply (word_forall _ name); [|exact Hw].
    intros c Hc. apply negb_true_iff. apply Ascii.eqb_neq. intros ->. congruence. }
  assert (E1 : split_head "?" ("/" ++ name) = "/" ++ name).
  { apply StringFacts.split_head_none. simpl. apply Hsep. reflexivity. }
  rewrite E1.
  assert (E2 : split_head "#" ("/" ++ name) = "/" ++ name).
  { apply StringFacts.split_head_none. simpl. apply Hsep. reflexivity. }
  rewrite E2.
  change (startsWith ("/" ++ name) "/") with (String.prefix "/" (String "/" name)).
  cbn [String.prefix]. destruct (Ascii.ascii_dec "/" "/") as [_|N]; [|congruence].
  assert (P : String.prefix "" name = true) by (destruct name; reflexivity).
  rewrite P. change (str_drop 1 ("/" ++ name)) with name.
  destruct name as [|c r] eqn:En; [reflexivity|]. rewrite <- En in *.
  replace (truthy_str name) with true by (rewrite En; reflexivity).
  rewrite (StringFacts.split_head_none "/" name) by (apply Hsep; reflexivity).
  rewrite (StringFacts.remove_first_none "@" name) by (apply Hsep; reflexivity).
  apply StringFacts.trim_no_space. apply (word_forall _ name); [|exact Hw].
  intros d Hd. destruct (word_char d Hd) as [-> _]. reflexivity.
Qed.

(** X7.  For a profile link [/name], or [name] under the origin
    [twitter.com] or [www.twitter.com] over [http] or [https], where [name]
    is made of letters, digits and underscores, the handle is [name]. *)
Theorem handle_of_href_profile_link (name : string) :
  str_forall is_word name = true ->
  handle_of_href ("/" ++ name) = name
  /\ handle_of_href ("https://twitter.com/" ++ name) = name
  /\ handle_of_href ("https://www.twitter.com/" ++ name) = name
  /\ handle_of_href ("http://twitter.com/" ++ name) = name
  /\ handle_of_href ("http://www.twitter.com/" ++ name) = name.
Proof.
  intros Hw.
  assert (P : String.prefix "" ("/" ++ name) = true) by reflexivity.
  repeat split; apply handle_of_path; try exact Hw;
    unfold strip_origin, startsWith; cbn; reflexivity.
Qed.

Lemma handle_of_href_profile_link_witness :
  handle_of_href "https://www.twitter.com/rust_lang" = "rust_lang".
Proof.
  apply (handle_of_href_profile_link "rust_lang"). reflexivity.
Defined.

(** *** The handle guessed from the text *)

Lemma substring_prefix n : forall s,
  exists rest, s = substring 0 n s ++ rest.
Proof.
  induction n as [|n IH]; intros [|c r]; simpl.
  - exists "". reflexivity.
  - exists (String c r). reflexivity.
  - exists "". reflexivity.
  - destruct (IH r) as [rest H]. exists rest. rewrite <- H. reflexivity.
Qed.

Lemma length_substring n : forall s,
  String.length (substring 0 n s) = Nat.min n (String.length s).
Proof.
  induction n as [|n IH]; intros [|c r]; simpl; try reflexivity.
  rewrite IH. reflexivity.
Qed.

Lemma str_forall_substring f n : forall s,
  str_forall f s = true -> str_forall f (substring 0 n s) = true.
Proof.
  induction n as [|n IH]; intros [|c r] H; simpl; try reflexivity.
  simpl in H. apply andb_true_iff in H. destruct H as [Hc Hr].
  rewrite Hc, (IH r Hr). reflexivity.
Qed.

(** X8.  The handle guessed from the text of an article has between 1 and
    15 characters, all letters, digits or underscores, and stands in the
    text right after an [@]. *)
Theorem match_at_handle_shape (s h : string) :
  match_at_handle s = Some h ->
  (1 <= String.length h <= 15)%nat
  /\ str_forall is_word h = true
  /\ exists before after, s = before ++ "@" ++ h ++ after.
Proof.
  induction s as [|c r IH]; cbn [match_at_handle]; [discriminate|].
  destruct (Ascii.eqb c "@" && truthy_str (take_while is_word r)) eqn:E.
  - intros H. injection H as <-.
    apply andb_true_iff in E. destruct E as [Ec Et].
    apply Ascii.eqb_eq in Ec. subst c.
    set (w := take_while is_word r) in *.
    split; [|split].
    + rewrite length_substring. destruct w as [|x w']; [discriminate|].
      change (String.length (String x w')) with (S (String.length w')). lia.
    + apply str_forall_substring. apply ExtractorFacts.take_while_forall.
    + destruct (substring_prefix 15 w) as [rest Hrest].
      exists "", (rest ++ drop_while is_word r). simpl.
      rewrite <- StringFacts.append_assoc, <- Hrest. unfold w.
      rewrite StringFacts.take_drop_while. reflexivity.
  - intros H. destruct (IH H) as [Hl [Hw [before [after Hs]]]].
    split; [exact Hl|]. split; [exact Hw|].
    exists (String c before), after. simpl. rewrite Hs. reflexivity.
Qed.

Lemma match_at_handle_shape_witness :
  (1 <= String.length "rust_lang" <= 15)%nat
  /\ str_forall is_word "rust_lang" = true
  /\ exists before after,
       "via @rust_lang!" = before ++ "@" ++ "rust_lang" ++ after.
Proof.
  apply (match_at_handle_shape "via @rust_lang!" "rust_lang"). reflexivity.
Defined.

(** *** The timestamp *)

Lemma extracted_timestamp (d : document) (t : tweet) :
  In t (extractTweetsFromPage d) -> timestamp t <> Some "".
Proof.
  intros Ht. apply ExtractorFacts.extract_articles_In in Ht.
  destruct Ht as [a [_ Ha]].
  assert (Hts : timestamp t = timestamp_of a).
  { unfold extract_article in Ha.
    destruct (tweetText a) as [[s|]|]; try discriminate;
      destruct (profileAnchor a);
      destruct (truthy_str (text_of a) && truthy_str (link_of a));
      try discriminate; injection Ha as <-; reflexivity. }
  rewrite Hts. unfold timestamp_of.
  destruct (time a) as [e|]; [|discriminate].
  destruct (datetime e) as [v|].
  - destruct v as [|c r]; simpl; [|discriminate].
    destruct (time_innerText e); simpl; discriminate.
  - destruct (time_innerText e); simpl; discriminate.
Qed.

(** X9.  The timestamp of an item is absent or a string that is not empty:
    an empty [datetime] attribute gives way to the text of the [time]
    element, and an empty text to [null]. *)
Theorem timestamp_never_empty (d : document) (t : tweet) :
  In t (extractTweetsFromPage d) ->
  timestamp t = None \/ exists s, timestamp t = Some s /\ s <> "".
Proof.
  intros Ht. pose proof (extracted_timestamp d t Ht) as H.
  destruct (timestamp t) as [s|]; [|left; reflexivity].
  right. exists s. split; [reflexivity|]. intros ->. apply H. reflexivity.
Qed.

Lemma timestamp_never_empty_witness :
  timestamp MoreSamples.one_post_item = None
  \/ exists s, timestamp MoreSamples.one_post_item = Some s /\ s <> "".
Proof.
  apply (timestamp_never_empty Samples.one_post MoreSamples.one_post_item).
  left. reflexivity.
Defined.

(** *** The like count *)

Lemma filter_commas_empty (m : string) :
  str_forall is_digit_or_comma m = true ->
  (str_filter (fun c => negb (Ascii.eqb c ",")) m = ""
   <-> str_exists is_digit m = false).
Proof.
  induction m as [|c r IH]; simpl; [tauto|].
  intros H. apply andb_true_iff in H. destruct H as [Hc Hr].
  unfold is_digit_or_comma in Hc.
  destruct (Ascii.eqb c ",") eqn:E; simpl.
  - apply Ascii.eqb_eq in E. subst c. simpl. exact (IH Hr).
  - rewrite orb_false_r in Hc. rewrite Hc. simpl. split; discriminate.
Qed.

(** X10.  The like count of an article is a number that is not negative,
    or [NaN]; it is [NaN] exactly when the first run of digits and commas
    in the name (or, failing a name, the text) of the like control holds no
    digit. *)
Theorem likes_of_number_or_commas (a : article) :
  (forall n, likes_of a = Num n -> 0 <= n) /\
  (likes_of a = NaN <->
   exists b m,
     like a = Some b
     /\ match_digits (or_str (like_aria b) (or_str (like_innerText b) "")) = Some m
     /\ str_exists is_digit m = false).
Proof.
  split; [intros n; apply ExtractorFacts.likes_of_nonneg|].
  unfold likes_of. destruct (like a) as [b|].
  - destruct (match_digits _) as [m|] eqn:Em.
    + assert (Hm : str_forall is_digit_or_comma m = true).
      { unfold match_digits in Em.
        destruct (drop_while _ _) as [|c r] eqn:Ed; [discriminate|].
        injection Em as Em. rewrite <- Em.
        apply (ExtractorFacts.take_while_forall is_digit_or_comma (String c r)). }
      rewrite (ExtractorFacts.parseInt_digits _
                 (ExtractorFacts.filter_commas_digits m Hm)).
      pose proof (filter_commas_empty m Hm) as F.
      destruct (str_filter _ m) eqn:Ef.
      * split; [|reflexivity]. intros _. exists b, m.
        split; [reflexivity|]. split; [exact Em|]. apply F. reflexivity.
      * split; [discriminate|]. intros [b' [m' [Hb [Hm' Hd]]]].
        injection Hb as <-. rewrite Em in Hm'. injection Hm' as <-.
        apply F in Hd. discriminate.
    + split; [discriminate|]. intros [b' [m' [Hb [Hm' _]]]].
      injection Hb as <-. rewrite Em in Hm'. discriminate.
  - split; [discriminate|]. intros [b' [m' [Hb _]]]. discriminate.
Qed.

(** *** The fallback test of the profile anchor *)

Lemma includes_slash (s : string) :
  includes s "/" = false <->
  str_forall (fun c => negb (Ascii.eqb c "/")) s = true.
Proof.
  induction s as [|c r IH]; cbn [includes str_forall String.prefix].
  - split; reflexivity.
  - destruct (Ascii.ascii_dec "/" c) as [<-|N].
    + assert (P : String.prefix "" r = true) by (destruct r; reflexivity).
      rewrite P. simpl. split; discriminate.
    + assert (E : Ascii.eqb c "/" = false)
        by (apply Ascii.eqb_neq; congruence).
      rewrite E. simpl. exact IH.
Qed.

(** X11.  The fallback test [/twitter\.com\/[^\/]+$/] accepts exactly the
    links that end with [twitter.com/] and a segment that is not empty and
    holds no [/]. *)
Theorem ends_with_profile_iff (s : string) :
  ends_with_profile s = true <->
  exists before seg,
    s = before ++ "twitter.com/" ++ seg
    /\ seg <> ""
    /\ str_forall (fun c => negb (Ascii.eqb c "/")) seg = true.
Proof.
  induction s as [|c r IH].
  - split; [discriminate|]. intros [before [seg [H _]]].
    destruct before; discriminate.
  - assert (U : ends_with_profile (String c r)
                = (startsWith (String c r) "twitter.com/"
                   && truthy_str (str_drop 12 (String c r))
                   && negb (includes (str_drop 12 (String c r)) "/"))
                  || ends_with_profile r) by reflexivity.
    rewrite U, orb_true_iff, IH. clear U. split.
    + intros [H|[before [seg [Hs Hseg]]]].
      * apply andb_true_iff in H. destruct H as [H H3].
        apply andb_true_iff in H. destruct H as [H1 H2].
        apply StringFacts.prefix_append in H1. destruct H1 as [seg Hs].
        rewrite Hs in H2, H3.
        change (str_drop 12 ("twitter.com/" ++ seg)) with seg in H2, H3.
        exists "", seg. split; [exact Hs|]. split.
        -- intros ->. discriminate.
        -- apply includes_slash. apply negb_true_iff. exact H3.
      * exists (String c before), seg. split; [|exact Hseg].
        simpl. rewrite Hs. reflexivity.
    + intros [before [seg [Hs [Hne Hno]]]].
      destruct before as [|d q].
      * left. change (String c r = "twitter.com/" ++ seg) in Hs. rewrite Hs.
        change (str_drop 12 ("twitter.com/" ++ seg)) with seg.
        assert (P : startsWith ("twitter.com/" ++ seg) "twitter.com/" = true)
          by (apply StringFacts.prefix_append; exists seg; reflexivity).
        rewrite P. apply includes_slash in Hno. rewrite Hno.
        destruct seg; [congruence | reflexivity].
      * right. simpl in Hs. injection Hs as _ Hr.
        exists q, seg. split; [exact Hr|]. split; assumption.
Qed.

(** *** Trimmed fields *)

Lemma displayName_of_trimmed (a : article) (p : anchor) :
  trim (displayName_of a p) = displayName_of a p.
Proof.
  unfold displayName_of. cbv zeta.
  destruct (has_text _); [apply StringFacts.trim_idempotent|].
  destruct (has_text (headerSpan a)); [apply StringFacts.trim_idempotent|].
  destruct (aria_label p) as [l|]; [destruct (truthy_str l)|];
    try apply StringFacts.trim_idempotent;
    destruct (title p) as [t|]; try reflexivity;
    destruct (truthy_str t); try reflexivity; apply StringFacts.trim_idempotent.
Qed.

(** X12.  The body text of every item has no white space at either end,
    and so have the handle and the display name of an item whose article
    has a profile anchor. *)
Theorem extracted_fields_trimmed (d : document) (t : tweet) :
  In t (extractTweetsFromPage d) ->
  trim (text t) = text t
  /\ exists a,
       In a (articles d) /\ extract_article a = Emit t
       /\ (profileAnchor a <> None ->
           trim (handle t) = handle t /\ trim (displayName t) = displayName t).
Proof.
  intros Ht. apply ExtractorFacts.extract_articles_In in Ht.
  destruct Ht as [a [Hin Ha]].
  assert (Htext : trim (text_of a) = text_of a).
  { unfold text_of. destruct (tweetText a) as [[s|]|];
      [apply StringFacts.trim_idempotent | reflexivity | reflexivity]. }
  pose proof Ha as Ha'. unfold extract_article in Ha'.
  destruct (tweetText a) as [[s|]|] eqn:Et; try discriminate;
    destruct (profileAnchor a) as [p|] eqn:Ep;
    destruct (truthy_str (text_of a) && truthy_str (link_of a));
    try discriminate; injection Ha' as <-; cbn [text handle displayName];
    (split; [exact Htext|]); exists a; (split; [exact Hin|]);
    (split; [exact Ha|]); intros Hp; try congruence;
    (split; [apply handle_of_href_trimmed | apply displayName_of_trimmed]).
Qed.

Lemma extracted_fields_trimmed_witness :
  trim (text MoreSamples.one_post_item) = text MoreSamples.one_post_item.
Proof.
  apply (extracted_fields_trimmed Samples.one_post MoreSamples.one_post_item).
  left. reflexivity.
Defined.

End ExtractorMore.

(** ** The cookie source *)

Module CookieFacts.
Import JS Scrape CookieSource Spec Notions.

Section Loader.

Variable JSON_parse : string -> option parsed.

Lemma nonempty_array_some (p : parsed) (cs : list cookie) :
  nonempty_array p = Some cs -> p = PArray cs /\ cs <> [].
Proof.
  destruct p as [l|]; simpl; [|discriminate].
  destruct l as [|c r]; simpl; [discriminate|].
  intros H. injection H as <-. split; [reflexivity | discriminate].
Qed.

Lemma nonempty_array_cons (c : cookie) (r : list cookie) :
  nonempty_array (PArray (c :: r)) = Some (c :: r).
Proof.
  unfold nonempty_array.
  replace (len (c :: r) =? 0) with false; [reflexivity|].
  symmetry. apply Z.eqb_neq. unfold len. cbn [List.length]. lia.
Qed.

(** X13.  The loader returns [null] or an array that is not empty, never an
    empty array: the run is without cookies exactly when the loader returned
    [null]. *)
Theorem loadCookies_null_or_nonempty (COOKIE_JSON : option string)
  (cookie_file : file) :
  (forall cs,
     loadCookiesFromEnvOrFile JSON_parse COOKIE_JSON cookie_file = Some cs ->
     cs <> []) /\
  (no_cookies (loadCookiesFromEnvOrFile JSON_parse COOKIE_JSON cookie_file) = true
   <-> loadCookiesFromEnvOrFile JSON_parse COOKIE_JSON cookie_file = None).
Proof.
  assert (H : forall cs,
            loadCookiesFromEnvOrFile JSON_parse COOKIE_JSON cookie_file = Some cs ->
            cs <> []).
  { intros cs. unfold loadCookiesFromEnvOrFile. cbv zeta.
    destruct COOKIE_JSON as [env|].
    - destruct (truthy_str env).
      + destruct (JSON_parse env) as [p|].
        * destruct (nonempty_array p) as [l|] eqn:E.
          -- intros I. injection I as <-. apply (nonempty_array_some p l E).
          -- destruct cookie_file as [| |raw]; try discriminate.
             destruct (JSON_parse raw) as [p'|]; [|discriminate].
             intros I. apply (nonempty_array_some p' cs I).
        * destruct cookie_file as [| |raw]; try discriminate.
          destruct (JSON_parse raw) as [p'|]; [|discriminate].
          intros I. apply (nonempty_array_some p' cs I).
      + destruct cookie_file as [| |raw]; try discriminate.
        destruct (JSON_parse raw) as [p'|]; [|discriminate].
        intros I. apply (nonempty_array_some p' cs I).
    - destruct cookie_file as [| |raw]; try discriminate.
      destruct (JSON_parse raw) as [p'|]; [|discriminate].
      intros I. apply (nonempty_array_some p' cs I). }
  split; [exact H|].
  destruct (loadCookiesFromEnvOrFile JSON_parse COOKIE_JSON cookie_file)
    as [cs|]; [|split; reflexivity].
  split; [|discriminate].
  destruct cs as [|c r]; [exfalso; exact (H [] eq_refl eq_refl)|].
  unfold no_cookies, len. cbn [List.length]. intros I. apply Z.eqb_eq in I. lia.
Qed.

(** X14.  The environment variable wins over the file: when [COOKIE_JSON]
    holds an array that is not empty, it is returned whatever the file
    holds; when it is not set, is empty, is not JSON, is not an array or is
    an empty array, the result is what the file alone gives; and a file that
    is missing or cannot be read gives nothing. *)
Theorem loadCookies_env_then_file :
  (forall env c r cookie_file,
     env <> "" ->
     JSON_parse env = Some (PArray (c :: r)) ->
     loadCookiesFromEnvOrFile JSON_parse (Some env) cookie_file = Some (c :: r)) /\
  (forall env cookie_file,
     env = "" \/ JSON_parse env = None \/ JSON_parse env = Some POther
     \/ JSON_parse env = Some (PArray []) ->
     loadCookiesFromEnvOrFile JSON_parse (Some env) cookie_file
     = loadCookiesFromEnvOrFile JSON_parse None cookie_file) /\
  loadCookiesFromEnvOrFile JSON_parse None NoFile = None /\
  loadCookiesFromEnvOrFile JSON_parse None Unreadable = None.
Proof.
  split; [|split; [|split; reflexivity]].
  - intros env c r cookie_file Hne Hp. unfold loadCookiesFromEnvOrFile. cbv zeta.
    destruct env as [|x y]; [congruence|]. cbn [truthy_str].
    rewrite Hp, nonempty_array_cons. reflexivity.
  - intros env cookie_file H. unfold loadCookiesFromEnvOrFile. cbv zeta.
    destruct H as [->|[H|[H|H]]]; [reflexivity| | |];
      destruct (truthy_str env); try reflexivity; rewrite H; reflexivity.
Qed.

End Loader.

Lemma loadCookies_env_then_file_witness :
  loadCookiesFromEnvOrFile MoreSamples.parse_one
    (Some "[auth_token]") (Holds "oops")
  = Some [Samples.auth_cookie].
Proof.
  apply (proj1 (loadCookies_env_then_file MoreSamples.parse_one));
    [discriminate | reflexivity].
Defined.

(** X15.  A cookie given to the page has a domain and a path that are not
    empty, the ones of the source when it has them and [.x.com] and [/]
    otherwise, and the name and value of the source; normalizing it again
    changes nothing. *)
Theorem normalize_cookie_defaults (c : cookie) :
  (exists d p,
     domain (normalize_cookie c) = Some d /\ d <> ""
     /\ path (normalize_cookie c) = Some p /\ p <> "") /\
  (forall d, domain c = Some d -> d <> "" -> domain (normalize_cookie c) = Some d) /\
  (forall p, path c = Some p -> p <> "" -> path (normalize_cookie c) = Some p) /\
  (domain c = None \/ domain c = Some "" ->
   domain (normalize_cookie c) = Some ".x.com") /\
  (path c = None \/ path c = Some "" -> path (normalize_cookie c) = Some "/") /\
  name (normalize_cookie c) = name c /\
  value (normalize_cookie c) = value c /\
  normalize_cookie (normalize_cookie c) = normalize_cookie c.
Proof.
  destruct c as [n v d p h s e]. unfold normalize_cookie. cbn.
  repeat split.
  - exists (Extractor.or_str d ".x.com"), (Extractor.or_str p "/").
    repeat split; destruct d as [[|x y]|], p as [[|x' y']|]; discriminate.
  - intros d' -> Hd. destruct d'; [congruence | reflexivity].
  - intros p' -> Hp. destruct p'; [congruence | reflexivity].
  - intros [->| ->]; reflexivity.
  - intros [->| ->]; reflexivity.
  - f_equal.
    + destruct d as [[|x y]|]; reflexivity.
    + destruct p as [[|x y]|]; reflexivity.
    + destruct e as [z|]; [|reflexivity].
      destruct (z =? 0) eqn:Z0; [reflexivity|]. rewrite Z0. reflexivity.
Qed.

End CookieFacts.

(** ** More on the collection loop and the run *)

Module LoopMore.
Import JS Dom Extractor Collect Scrape Spec Notions.

Lemma merge_spec_appends (b acc : list tweet) :
  exists added,
    merge_spec acc b = (acc ++ added)%list /\ incl added b.
Proof.
  unfold merge_spec. revert acc. induction b as [|t r IH]; intros acc; simpl.
  - exists []. split; [rewrite app_nil_r; reflexivity | intros x []].
  - destruct (IH (merge_step acc t)) as [added [Ha Hi]]. rewrite Ha.
    unfold merge_step.
    destruct (truthy_str (link t) && negb (existsb (has_link (link t)) acc)).
    + exists (t :: added). split; [rewrite <- app_assoc; reflexivity|].
      intros x [->|Hx]; [left; reflexivity | right; apply Hi; exact Hx].
    + exists added. split; [reflexivity|]. intros x Hx. right. apply Hi. exact Hx.
Qed.

Section Loop.

Variable E : env.

Lemma state_at_tweets_step (n : nat) :
  tweets (state_at E (S n)) = merge_spec (tweets (state_at E n)) (batch E n).
Proof.
  destruct (LoopFacts.tweets_state_at E n) as [Hn _].
  rewrite <- (CollectFacts.merge_refines _ _ Hn).
  simpl. unfold measure. destruct (_ =? _); reflexivity.
Qed.

Lemma state_at_extends (n k : nat) :
  exists added,
    tweets (state_at E (n + k)) = (tweets (state_at E n) ++ added)%list.
Proof.
  induction k as [|k [added IH]].
  - exists []. rewrite Nat.add_0_r, app_nil_r. reflexivity.
  - replace (n + S k)%nat with (S (n + k)) by lia.
    rewrite state_at_tweets_step, IH.
    destruct (merge_spec_appends (batch E (n + k))
                (tweets (state_at E n) ++ added)) as [more [Hm _]].
    exists (added ++ more)%list. rewrite Hm, app_assoc. reflexivity.
Qed.

Lemma state_at_origin (n : nat) (t : tweet) :
  In t (tweets (state_at E n)) -> exists i, (i < n)%nat /\ In t (batch E i).
Proof.
  induction n as [|n IH]; intros Ht; [destruct Ht|].
  rewrite state_at_tweets_step in Ht.
  destruct (merge_spec_appends (batch E n) (tweets (state_at E n)))
    as [added [Hm Hi]].
  rewrite Hm in Ht. apply in_app_iff in Ht. destruct Ht as [Ht|Ht].
  - destruct (IH Ht) as [i [Hi1 Hi2]]. exists i. split; [lia | exact Hi2].
  - exists n. split; [lia | apply Hi; exact Ht].
Qed.

(** X16.  The running set only grows, at its end: what an iteration holds
    is what an earlier one held, in the same order, followed by items added
    since; and every item it holds was extracted by one of the iterations
    before. *)
Theorem running_set_grows (n k : nat) :
  (exists added,
     tweets (state_at E (n + k)) = (tweets (state_at E n) ++ added)%list) /\
  (forall t, In t (tweets (state_at E n)) ->
     exists i, (i < n)%nat /\ In t (batch E i)).
Proof.
  split; [apply state_at_extends | intros t; apply state_at_origin].
Qed.

Lemma broken_at_tweets (n : nat) :
  tweets (broken_at E n) = tweets (state_at E (S n)).
Proof.
  unfold broken_at. cbn [tweets]. simpl. unfold measure.
  destruct (_ =? _); reflexivity.
Qed.

(** Every item the loop returns was extracted from a page of the loop. *)
Lemma collected_from_pages budget maxTweets fuel tr st' tr' t :
  collect budget E maxTweets fuel 0 loop_init tr = (Val st', tr') ->
  In t (tweets st') ->
  exists i d, loop_page E i = Resolves d /\ In t (extractTweetsFromPage d).
Proof.
  intros H Ht.
  apply (LoopFacts.collect_inv budget E maxTweets fuel 0) in H.
  destruct H as [n [_ [_ Hend]]].
  assert (Hs : exists m, In t (tweets (state_at E m))).
  { destruct Hend as [[-> _]|[_ [-> _]]].
    - exists n. exact Ht.
    - exists (S n). rewrite <- broken_at_tweets. exact Ht. }
  destruct Hs as [m Hm].
  destruct (state_at_origin m t Hm) as [i [_ Hi]].
  unfold batch in Hi. destruct (loop_page E i) as [d|msg] eqn:P; [|destruct Hi].
  exists i, d. split; [exact P | exact Hi].
Qed.

(** X17.  With a budget [b >= 0], the counter of stagnant attempts of a
    loop that returns is between 0 and [b]. *)
Theorem scrollAttempts_within_budget (b : Z) (maxTweets : number)
  (fuel : nat) (tr : trace) (st' : loop_state) (tr' : trace) :
  0 <= b ->
  collect (Num b) E maxTweets fuel 0 loop_init tr = (Val st', tr') ->
  0 <= scrollAttempts st' <= b.
Proof.
  intros Hb H.
  apply (LoopFacts.collect_inv (Num b) E maxTweets fuel 0) in H.
  destruct H as [n [_ [Hw Hend]]].
  assert (Hn : forall m, 0 <= scrollAttempts (state_at E m))
    by (intros m; rewrite LoopFacts.scrollAttempts_state_at; lia).
  assert (Hle : scrollAttempts (state_at E n) <= b).
  { destruct n as [|k]; [simpl; lia|].
    destruct (Hw k ltac:(lia)) as [_ [G _]].
    unfold lt in G. apply Z.ltb_lt in G.
    simpl. unfold measure. destruct (_ =? _); simpl; lia. }
  destruct Hend as [[-> _]|[_ [-> _]]].
  - split; [apply Hn | exact Hle].
  - unfold broken_at. cbn [scrollAttempts]. split; [apply Hn | exact Hle].
Qed.

End Loop.

Lemma scrollAttempts_within_budget_witness :
  0 <= scrollAttempts (state_at Samples.still 3) <= 2.
Proof.
  apply (scrollAttempts_within_budget Samples.still 2 (Num 10) 5 []
           (state_at Samples.still 3)
           (snd (collect (Num 2) Samples.still (Num 10) 5 0 loop_init []))).
  - lia.
  - vm_compute. reflexivity.
Defined.

End LoopMore.

Module RunMore.
Import JS Dom Extractor Collect Scrape Handler Spec Notions.

Section Run.

Variable budget : number.
Variable Date_parse : string -> option Z.
Variable toISOString : Z -> string.
Variable E : env.

Local Notation "'run'" :=
  (scrapeTweetsForQuery budget Date_parse toISOString E).

(** The loop never closes the session. *)
Lemma collect_never_closes maxTweets fuel : forall i st,
  closed (snd (collect budget E maxTweets fuel i st [])) = false.
Proof.
  induction fuel as [|f IH]; intros i st;
    destruct (lt (Num (len (tweets st))) maxTweets
              && lt (Num (scrollAttempts st)) budget) eqn:G.
  - rewrite LoopFacts.collect_out_of_fuel by exact G. reflexivity.
  - rewrite LoopFacts.collect_exit by exact G. reflexivity.
  - rewrite LoopFacts.collect_step by exact G.
    destruct (loop_page E i) as [d|msg]; [|reflexivity].
    cbv zeta. destruct (ge _ maxTweets); [reflexivity|].
    rewrite LoopFacts.collect_trace. cbn [snd].
    rewrite RunFacts.closed_app, IH. reflexivity.
  - rewrite LoopFacts.collect_exit by exact G. reflexivity.
Qed.

(** X18.  A run that returns a result or fails with [LOGIN_REQUIRED] closes
    the session once, as the last thing it does. *)
Theorem session_closed_once_on_written_exits (fuel : nat) (query : string)
  (maxTweets : number) (cookieArray : option (list cookie)) (home : landing)
  (r : reply (list item)) (tr : trace) :
  reaches_landing E home ->
  run fuel query maxTweets cookieArray [] = (r, tr) ->
  written_exit r ->
  exists tr0, tr = (tr0 ++ [EvClose])%list /\ closed tr0 = false.
Proof.
  intros Hl H Hr. unfold written_exit in Hr.
  rewrite (RunFacts.run_at_landing _ _ _ _ _ _ _ _ home Hl) in H.
  assert (Hnot : forall (msg : string) (A : Type),
             ~ ((exists v : A, Exc (Rejected msg) = Val v)
                \/ login_required (@Exc A (Rejected msg)))).
  { intros msg A [[v Hv]|[m Hm]]; discriminate. }
  destruct (RunFacts.landing_events_quiet cookieArray) as [_ Hq].
  destruct (RunFacts.search_events_open query cookieArray) as [Hs _].
  destruct (negb (Validator.loggedIn home)).
  - RunFacts.split_reply H.
    exists (landing_events cookieArray ++ [EvDebugFiles])%list.
    split; [rewrite <- app_assoc; reflexivity|].
    rewrite RunFacts.closed_app, Hq. reflexivity.
  - destruct (search_page E) as [d0|msg].
    + destruct (Validator.isBlockedOrLoginPage d0 && no_cookies cookieArray).
      * RunFacts.split_reply H. exists (search_events query cookieArray).
        split; [reflexivity | exact Hs].
      * rewrite RunFacts.finishing_cases in H.
        pose proof (collect_never_closes maxTweets fuel 0 loop_init) as Hc.
        destruct (collect budget E maxTweets fuel 0 loop_init [])
          as [[st|e|] evs] eqn:C; cbn [snd] in Hc.
        -- destruct (len (tweets st) =? 0).
           ++ destruct (final_page E) as [d1|msg].
              ** destruct (Validator.isBlockedOrLoginPage d1
                           && no_cookies cookieArray);
                   RunFacts.split_reply H;
                   exists ((search_events query cookieArray
                              ++ [EvWaitForSelector])
                             ++ evs ++ [EvCheckBlocked])%list;
                   (split; [rewrite <- !app_assoc; reflexivity|]);
                   rewrite !RunFacts.closed_app, Hs, Hc; reflexivity.
              ** RunFacts.split_reply H. exfalso. exact (Hnot _ _ Hr).
           ++ RunFacts.split_reply H.
              exists ((search_events query cookieArray ++ [EvWaitForSelector])
                        ++ evs)%list.
              split; [rewrite <- !app_assoc; reflexivity|].
              rewrite !RunFacts.closed_app, Hs, Hc. reflexivity.
        -- RunFacts.split_reply H. apply RunFacts.collect_error in C.
           destruct C as [msg ->]. exfalso. exact (Hnot _ _ Hr).
        -- RunFacts.split_reply H. exfalso.
           destruct Hr as [[v Hv]|[m Hm]]; discriminate.
    + RunFacts.split_reply H. exfalso. exact (Hnot _ _ Hr).
Qed.

(** *** What a run returns *)

Lemma slice0_is_firstn {A : Type} (l : list A) (e : number) :
  exists k, slice0 l e = firstn k l.
Proof.
  destruct e as [k|]; [|exists O; reflexivity].
  unfold slice0. destruct (k <? 0); eexists; reflexivity.
Qed.

Lemma NoDup_firstn {A : Type} (k : nat) (l : list A) :
  NoDup l -> NoDup (firstn k l).
Proof.
  intros H. rewrite <- (firstn_skipn k l) in H.
  exact (NoDup_app_remove_r _ _ H).
Qed.

Lemma In_firstn {A : Type} (k : nat) (l : list A) (x : A) :
  In x (firstn k l) -> In x l.
Proof.
  intros H. rewrite <- (firstn_skipn k l). apply in_or_app. left. exact H.
Qed.

Lemma extracted_item_nonempty (d : document) (t : tweet) :
  In t (extractTweetsFromPage d) -> text t <> "" /\ link t <> "".
Proof.
  intros Ht. apply ExtractorFacts.extract_articles_In in Ht.
  destruct Ht as [a [_ Ha]].
  destruct (ExtractorFacts.extract_article_emit a t Ha) as [Hq [Ht [Hl _]]].
  unfold qualifies in Hq.
  assert (Hb : truthy_str (text_of a) && truthy_str (link_of a) = true)
    by (destruct (tweetText a) as [[s|]|]; [exact Hq | discriminate | exact Hq]).
  apply andb_true_iff in Hb. destruct Hb as [H1 H2].
  rewrite Ht, Hl. split; apply ExtractorFacts.truthy_str_nonempty; assumption.
Qed.

Lemma collected_NoDup maxTweets fuel tr st' tr' :
  collect budget E maxTweets fuel 0 loop_init tr = (Val st', tr') ->
  NoDup (List.map link (tweets st')).
Proof.
  intros H. apply (LoopFacts.collect_inv budget E maxTweets fuel 0) in H.
  destruct H as [n [_ [_ [[-> _]|[_ [-> _]]]]]].
  - apply LoopFacts.tweets_state_at.
  - apply LoopFacts.tweets_broken_at.
Qed.

(** X19.  The items a run returns have pairwise distinct permalinks; each
    is a post extracted from a page of the loop, so its body text and its
    permalink are not empty; and there are at most [maxTweets] of them. *)
Theorem returned_items_well_formed (fuel : nat) (query : string)
  (maxTweets : number) (cookieArray : option (list cookie))
  (v : list item) (tr : trace) :
  run fuel query maxTweets cookieArray [] = (Val v, tr) ->
  NoDup (List.map (fun a => link (post a)) v)
  /\ Forall (fun a =>
               (exists i d, loop_page E i = Resolves d
                            /\ In (post a) (extractTweetsFromPage d))
               /\ text (post a) <> "" /\ link (post a) <> "") v
  /\ (forall m, maxTweets = Num m -> 0 <= m -> len v <= m).
Proof.
  intros H. apply RunFacts.run_returns_finish in H.
  destruct H as [st [evs [C ->]]]. unfold finish.
  set (items := List.map (normalize Date_parse toISOString) (tweets st)).
  pose proof (SortFacts.sort_perm Date_parse items) as P.
  destruct (slice0_is_firstn (sort Date_parse items) maxTweets) as [k Hk].
  split; [|split].
  - rewrite Hk, <- firstn_map. apply NoDup_firstn.
    apply (Permutation_NoDup
             (Permutation_sym (Permutation_map (fun a => link (post a)) P))).
    unfold items. rewrite map_map. cbn [post normalize].
    exact (collected_NoDup _ _ _ _ _ C).
  - apply Forall_forall. intros a Ha. rewrite Hk in Ha.
    apply In_firstn in Ha. apply (Permutation_in _ P) in Ha.
    unfold items in Ha. apply in_map_iff in Ha. destruct Ha as [t [<- Ht]].
    cbn [post normalize].
    destruct (LoopMore.collected_from_pages E _ _ _ _ _ _ t C Ht)
      as [i [d [Hp Hin]]].
    split; [exists i, d; auto | exact (extracted_item_nonempty d t Hin)].
  - intros m -> Hm. rewrite SortFacts.slice0_firstn by exact Hm.
    unfold len. pose proof (firstn_le_length (Z.to_nat m) (sort Date_parse items)).
    lia.
Qed.

Lemma no_extract_In (tr : trace) :
  existsb is_extract tr = false -> forall i, ~ In (EvExtract i) tr.
Proof.
  intros H i Hi.
  assert (T : existsb is_extract tr = true)
    by (apply existsb_exists; exists (EvExtract i); split; [exact Hi | reflexivity]).
  congruence.
Qed.

Lemma search_events_no_extract query cookieArray :
  existsb is_extract (search_events query cookieArray) = false
  /\ existsb is_extract (landing_events cookieArray) = false.
Proof.
  unfold search_events, landing_events. destruct cookieArray as [cs|];
    [destruct (negb (len cs =? 0))|]; split; reflexivity.
Qed.

(** The run when the guard of the loop fails at once. *)
Lemma run_without_collection (fuel : nat) (query : string)
  (maxTweets : number) (cookieArray : option (list cookie)) (home : landing)
  (r : reply (list item)) (tr : trace) :
  reaches_landing E home ->
  lt (Num 0) maxTweets && lt (Num 0) budget = false ->
  run fuel query maxTweets cookieArray [] = (r, tr) ->
  (forall i, ~ In (EvExtract i) tr) /\ (forall v, r = Val v -> v = []).
Proof.
  intros Hl G H.
  rewrite (RunFacts.run_at_landing _ _ _ _ _ _ _ _ home Hl) in H.
  destruct (search_events_no_extract query cookieArray) as [Hs Hq].
  destruct (negb (Validator.loggedIn home)).
  - RunFacts.split_reply H. split; [|intros v Hv; discriminate].
    apply no_extract_In. rewrite existsb_app, Hq. reflexivity.
  - destruct (search_page E) as [d0|msg].
    + destruct (Validator.isBlockedOrLoginPage d0 && no_cookies cookieArray).
      * RunFacts.split_reply H. split; [|intros v Hv; discriminate].
        apply no_extract_In. rewrite existsb_app, Hs. reflexivity.
      * rewrite RunFacts.finishing_cases in H.
        rewrite (LoopFacts.collect_exit budget E maxTweets fuel 0 loop_init [] G)
          in H.
        change (len (tweets loop_init) =? 0) with true in H. cbn iota in H.
        destruct (final_page E) as [d1|msg];
          [destruct (Validator.isBlockedOrLoginPage d1 && no_cookies cookieArray)|];
          RunFacts.split_reply H;
          (split; [apply no_extract_In; rewrite !existsb_app, Hs; reflexivity|]);
          intros v Hv; try discriminate Hv.
        injection Hv as <-. apply RunFacts.finish_nil.
    + RunFacts.split_reply H. split; [|intros v Hv; discriminate].
      apply no_extract_In. exact Hs.
Qed.

End Run.


Lemma session_closed_once_on_written_exits_witness :
  exists tr0,
    snd (scrapeTweetsForQuery (Num 2) Samples.Date_parse Samples.toISOString
           Samples.still 5 "rust" (Num 10) None [])
    = (tr0 ++ [EvClose])%list
    /\ closed tr0 = false.
Proof.
  apply (session_closed_once_on_written_exits (Num 2) Samples.Date_parse
           Samples.toISOString Samples.still 5 "rust" (Num 10) None
           Samples.logged_in_home (Val MoreSamples.one_post_result)).
  - repeat split; reflexivity.
  - vm_compute. reflexivity.
  - left. exists MoreSamples.one_post_result. reflexivity.
Defined.

Lemma returned_items_well_formed_witness :
  NoDup (List.map (fun a => link (post a)) MoreSamples.one_post_result)
  /\ len MoreSamples.one_post_result <= 10.
Proof.
  destruct (returned_items_well_formed (Num 2) Samples.Date_parse
              Samples.toISOString Samples.still 5 "rust" (Num 10) None
              MoreSamples.one_post_result
              (snd (scrapeTweetsForQuery (Num 2) Samples.Date_parse
                      Samples.toISOString Samples.still 5 "rust" (Num 10)
                      None [])))
    as [H1 [_ H3]].
  - vm_compute. reflexivity.
  - split; [exact H1 | apply (H3 10); [reflexivity | lia]].
Defined.


End RunMore.

(** ** More on the request handler and on the counts it reads *)

Module HandlerMore.
Import JS Dom Extractor Scrape Handler Spec Notions.

(** X21.  A run is started only with a filter that is not empty and has no
    white space at either end: the [filter] field when it is a string that
    is not empty, else the [query] field, trimmed.  When both fields are
    falsy the handler answers 400, and when the field read is truthy and
    not a string it throws. *)
Theorem post_scrape_filter (b : request_body) :
  (forall f m,
     post_scrape b = Invoke f m ->
     f <> "" /\ trim f = f /\
     ((exists s, filter b = JStr s /\ s <> "" /\ f = trim s) \/
      (truthy (filter b) = false /\ exists s, query b = JStr s /\ f = trim s))) /\
  (truthy (filter b) = false -> truthy (query b) = false ->
   post_scrape b = BadRequest) /\
  (forall v,
     (v = filter b /\ truthy v = true) \/
     (truthy (filter b) = false /\ v = query b /\ truthy v = true) ->
     (forall s, v <> JStr s) ->
     post_scrape b = TypeError).
Proof.
  unfold post_scrape, or_else. split; [|split].
  - intros f m.
    destruct (truthy (filter b)) eqn:Tf.
    + destruct (filter b) as [| |x|z|r|s|o]; try discriminate.
      destruct (negb (truthy_str (trim s))) eqn:E; [discriminate|].
      intros H. injection H as <- _.
      apply negb_false_iff in E.
      split; [apply ExtractorFacts.truthy_str_nonempty; exact E|].
      split; [apply StringFacts.trim_idempotent|].
      left. exists s. split; [reflexivity|]. split; [|reflexivity].
      apply ExtractorFacts.truthy_str_nonempty. exact Tf.
    + destruct (truthy (query b)) eqn:Tq.
      * destruct (query b) as [| |x|z|r|s|o]; try discriminate.
        destruct (negb (truthy_str (trim s))) eqn:E; [discriminate|].
        intros H. injection H as <- _.
        apply negb_false_iff in E.
        split; [apply ExtractorFacts.truthy_str_nonempty; exact E|].
        split; [apply StringFacts.trim_idempotent|].
        right. split; [reflexivity|]. exists s. split; reflexivity.
      * discriminate.
  - intros -> ->. reflexivity.
  - intros v [[-> Tv]|[Tf [-> Tv]]] Hs.
    + rewrite Tv. destruct (filter b) as [| |x|z|r|s|o]; try reflexivity.
      exfalso. exact (Hs s eq_refl).
    + rewrite Tf, Tv. destruct (query b) as [| |x|z|r|s|o]; try reflexivity.
      exfalso. exact (Hs s eq_refl).
Qed.

Lemma post_scrape_filter_witness :
  "rust" <> "" /\ trim "rust" = "rust".
Proof.
  destruct (proj1 (post_scrape_filter Samples.five_rust) "rust" (Num 5) eq_refl)
    as [H1 [H2 _]].
  split; [exact H1 | exact H2].
Defined.

(** *** Numerals followed by text *)

Lemma take_while_append f a rest :
  str_forall f a = true -> stops f rest = true ->
  take_while f (a ++ rest) = a.
Proof.
  induction a as [|c r IH]; simpl.
  - intros _ H. destruct rest as [|d q]; [reflexivity|]. simpl in *.
    apply negb_true_iff in H. rewrite H. reflexivity.
  - intros H Hr. apply andb_true_iff in H. destruct H as [Hc Ha].
    rewrite Hc, (IH Ha Hr). reflexivity.
Qed.

(** [parseInt] reads the digits a string starts with and ignores what
    follows them. *)
Lemma parseInt_leading_digits (ds rest : string) :
  ds <> "" -> str_forall is_digit ds = true -> stops is_digit rest = true ->
  parseInt (ds ++ rest) = Num (digits_val 0 ds).
Proof.
  intros Hne Hd Hr. destruct ds as [|c r]; [congruence|].
  pose proof (take_while_append is_digit (String c r) rest Hd Hr) as Ht.
  simpl in Hd. apply andb_true_iff in Hd. destruct Hd as [Hc Hd].
  destruct (ExtractorFacts.digit_char c Hc) as [Hs [Hm [Hp _]]].
  unfold parseInt. change (String c r ++ rest) with (String c (r ++ rest)) in *.
  cbn [drop_while]. rewrite Hs.
  assert (E : match String c (r ++ rest) with
              | String "-" r0 => (true, r0)
              | String "+" r0 => (false, r0)
              | _ => (false, String c (r ++ rest))
              end = (false, String c (r ++ rest))).
  { destruct c as [[] [] [] [] [] [] [] []]; try reflexivity;
      exfalso; [apply Hp | apply Hm]; reflexivity. }
  rewrite E, Ht. reflexivity.
Qed.

(** X22.  A maximum given as a string that starts with digits writing a
    number up to 2^53 (the integers a JavaScript number holds exactly) is
    read as that number, whatever follows the digits, and clamped to at
    least 1: ["5 posts"] asks for 5 items. *)
Theorem maxTweets_of_leading_digits (b : request_body) (ds rest : string) :
  ds <> "" -> str_forall is_digit ds = true -> stops is_digit rest = true ->
  digits_val 0 ds <= 2 ^ 53 ->
  (max_tweets_per_run b = JStr (ds ++ rest)
   \/ (truthy (max_tweets_per_run b) = false /\ max_tweets b = JStr (ds ++ rest))) ->
  maxTweets_of b = Num (Z.max 1 (digits_val 0 ds))
  /\ 0 <= digits_val 0 ds.
Proof.
  intros Hne Hd Hr _ Hb.
  assert (T : truthy (JStr (ds ++ rest)) = true)
    by (destruct ds; [congruence | reflexivity]).
  split.
  - unfold maxTweets_of, or_else.
    destruct Hb as [-> | [Hf ->]]; [|rewrite Hf]; rewrite T;
      cbn [parseInt_value]; rewrite (parseInt_leading_digits ds rest Hne Hd Hr);
      reflexivity.
  - apply ExtractorFacts.digits_val_nonneg; [exact Hd | lia].
Qed.

Lemma maxTweets_of_leading_digits_witness :
  maxTweets_of
    {| filter := JStr "rust"; query := JUndefined;
       max_tweets_per_run := JUndefined; max_tweets := JStr "5 posts" |}
  = Num (Z.max 1 (digits_val 0 "5")).
Proof.
  apply (maxTweets_of_leading_digits _ "5" " posts");
    [discriminate | reflexivity | reflexivity | vm_compute; discriminate |].
  right. split; reflexivity.
Defined.

(** X23.  A like control whose name starts with a count up to 2^53 (the
    integers a JavaScript number holds exactly), written with or without
    commas between the thousands and followed by text, gives that count:
    ["1,234 Likes. Like"] gives 1234. *)
Theorem likes_of_leading_count (a : article) (b : like_control)
  (run rest : string) :
  like a = Some b ->
  like_aria b = Some (run ++ rest) ->
  str_forall is_digit_or_comma run = true ->
  str_exists is_digit run = true ->
  stops is_digit_or_comma rest = true ->
  digits_val 0 (str_filter (fun c => negb (Ascii.eqb c ",")) run) <= 2 ^ 53 ->
  likes_of a
  = Num (digits_val 0 (str_filter (fun c => negb (Ascii.eqb c ",")) run)).
Proof.
  intros Hl Ha Hrun Hdig Hrest _. unfold likes_of. rewrite Hl, Ha.
  assert (Hne : exists c r, run = String c r)
    by (destruct run as [|c r]; [discriminate | eauto]).
  destruct Hne as [c [r ->]].
  assert (Hlabel : or_str (Some (String c r ++ rest))
                          (or_str (like_innerText b) "")
                   = String c r ++ rest) by reflexivity.
  rewrite Hlabel.
  assert (Hm : match_digits (String c r ++ rest) = Some (String c r)).
  { unfold match_digits.
    pose proof (take_while_append is_digit_or_comma (String c r) rest Hrun Hrest)
      as Ht.
    change (String c r ++ rest) with (String c (r ++ rest)) in *.
    cbn [str_forall] in Hrun. apply andb_true_iff in Hrun.
    destruct Hrun as [Hc _].
    cbn [drop_while]. rewrite Hc. cbn [negb]. rewrite Ht. reflexivity. }
  rewrite Hm.
  pose proof (ExtractorFacts.filter_commas_digits _ Hrun) as Hf.
  rewrite (ExtractorFacts.parseInt_digits _ Hf).
  destruct (str_filter _ (String c r)) eqn:Ef; [|reflexivity].
  exfalso. apply (ExtractorMore.filter_commas_empty _ Hrun) in Ef. congruence.
Qed.

Lemma likes_of_leading_count_witness :
  likes_of (Samples.post_of "hello" (Some "1,234 Likes. Like") None)
  = Num (digits_val 0 "1234").
Proof.
  apply (likes_of_leading_count _
           {| like_aria := Some "1,234 Likes. Like"; like_innerText := Some "" |}
           "1,234" " Likes. Like");
    first [reflexivity | vm_compute; discriminate].
Defined.

End HandlerMore.

(** ** The normalized timestamp of an extracted item *)

Module TimestampFacts.
Import JS Dom Extractor Scrape Spec Notions.

(** X24.  For an item of the extractor, the normalized timestamp is null
    exactly when the raw timestamp is absent or is not a date, and is
    otherwise the ISO string of the instant the raw timestamp denotes. *)
Theorem normalized_timestamp_null_iff
  (Date_parse : string -> option Z) (toISOString : Z -> string)
  (d : document) (t : tweet) :
  In t (extractTweetsFromPage d) ->
  (timestamp_iso (normalize Date_parse toISOString t) = None <->
   timestamp t = None \/ exists s, timestamp t = Some s /\ Date_parse s = None)
  /\ (forall s z,
        timestamp t = Some s -> Date_parse s = Some z ->
        timestamp_iso (normalize Date_parse toISOString t)
        = Some (toISOString z)).
Proof.
  intros Ht. pose proof (ExtractorMore.extracted_timestamp d t Ht) as Hne.
  unfold normalize. cbn [timestamp_iso].
  destruct (timestamp t) as [s|].
  - destruct s as [|c r]; [congruence|]. cbn [truthy_str]. split.
    + destruct (Date_parse (String c r)) as [z|] eqn:P.
      * split; [discriminate|]. intros [H|[s [Hs Hp]]]; [discriminate|].
        injection Hs as <-. congruence.
      * split; [|reflexivity]. intros _. right. exists (String c r). auto.
    + intros s z Hs Hp. injection Hs as <-. rewrite Hp. reflexivity.
  - split; [split; auto | intros s z Hs; discriminate].
Qed.

Lemma normalized_timestamp_null_iff_witness :
  timestamp_iso
    (normalize Samples.Date_parse Samples.toISOString MoreSamples.one_post_item)
  = Some (Samples.toISOString 1714564800000).
Proof.
  apply (proj2 (normalized_timestamp_null_iff Samples.Date_parse
                  Samples.toISOString Samples.one_post
                  MoreSamples.one_post_item
                  (or_introl eq_refl))
           "2024-05-01T12:00:00.000Z" 1714564800000);
    reflexivity.
Defined.

End TimestampFacts.
